(** * migrate-portal: the content migration engine of [src/bin.ts]

    A shallow embedding of the markdown migration ([migrateMarkdown],
    [processFrontMatter]), the sidebar migration ([migrateSidebars],
    [transformSidebarItems]), the structural equality check ([dequal]) and the
    writes to the rename registry ([renamedFiles]) in [migrateOpenAPI] and
    [migrateMdx].

    Text is a [string] of 8-bit code units (the Latin-1 range of the UTF-16
    code units of a JavaScript string).  Regular expressions are kept as
    syntax trees and run by a backtracking matcher with the priorities of
    the JavaScript one (left alternative first, greedy and lazy quantifiers,
    numbered capture groups). *)

From Stdlib Require Import Ascii String ZArith Lia Bool List.
From Stdlib Require Import DecimalString.
From stdpp Require Import base option list gmap strings.

#[local] Set Warnings "-register-all".
Local Open Scope nat_scope.
#[local] Arguments String.append : simpl nomatch.

(** ** Characters and strings *)

Module Chars.
Definition LF : ascii := "010"%char.
Definition CR : ascii := "013"%char.
Definition TAB : ascii := "009"%char.
Definition DQ : ascii := "034"%char.

Definition code (c : ascii) : nat := nat_of_ascii c.
Definition between (lo hi : nat) (c : ascii) : bool :=
  (lo <=? code c) && (code c <=? hi).

Definition is_lower (c : ascii) : bool := between 97 122 c.
Definition is_upper (c : ascii) : bool := between 65 90 c.
Definition is_digit (c : ascii) : bool := between 48 57 c.

(** [\w] *)
Definition is_word (c : ascii) : bool :=
  is_lower c || is_upper c || is_digit c || (code c =? 95).

(** [\s] on code units below 256: TAB, LF, VT, FF, CR, space, NBSP. *)
Definition is_space (c : ascii) : bool :=
  between 9 13 c || (code c =? 32) || (code c =? 160).

(** [.] without the [s] flag: anything but a line terminator. *)
Definition is_dot (c : ascii) : bool :=
  negb ((code c =? 10) || (code c =? 13)).

(** [[\s\S]] *)
Definition is_any (c : ascii) : bool := is_space c || negb (is_space c).

(** [[^x]] *)
Definition is_not (x c : ascii) : bool := negb (Ascii.eqb c x).

(** [[^a-z0-9]] *)
Definition is_not_slug (c : ascii) : bool := negb (is_lower c || is_digit c).

(** One code unit of [toLowerCase]: A-Z and the Latin-1 capitals
    (U+00C0..U+00DE without the multiplication sign U+00D7). *)
Definition lower (c : ascii) : ascii :=
  if is_upper c || (between 192 222 c && negb (code c =? 215))
  then ascii_of_nat (code c + 32) else c.
End Chars.
Import Chars.

Module Str.
Definition nl : string := String LF EmptyString.
Definition dq : string := String DQ EmptyString.
Definition tab : string := String TAB EmptyString.

Definition is_empty (s : string) : bool :=
  match s with EmptyString => true | _ => false end.

Fixpoint take (n : nat) (s : string) : string :=
  match n, s with
  | S n', String c s' => String c (take n' s')
  | _, _ => EmptyString
  end.

(** [s.slice(n)] for [0 <= n]. *)
Fixpoint drop (n : nat) (s : string) : string :=
  match n, s with
  | S n', String _ s' => drop n' s'
  | _, _ => s
  end.

(** [s.slice(0, -n)] *)
Definition drop_end (n : nat) (s : string) : string :=
  take (String.length s - n) s.

(** [s.startsWith(p)] *)
Definition startsWith (s p : string) : bool := String.prefix p s.

(** [s.endsWith(p)] *)
Definition endsWith (s p : string) : bool :=
  (String.length p <=? String.length s) &&
  String.eqb (drop (String.length s - String.length p) s) p.

(** [s.includes(p)] *)
Fixpoint includes (s p : string) : bool :=
  startsWith s p ||
  match s with
  | EmptyString => false
  | String _ s' => includes s' p
  end.

(** [s.replace(p, r)] with a string pattern: the first occurrence only.
    (No [r] in the source holds a dollar sign, so [r] is literal.) *)
Fixpoint replace (p r s : string) : string :=
  if startsWith s p then r +:+ drop (String.length p) s
  else match s with
       | EmptyString => EmptyString
       | String c s' => String c (replace p r s')
       end.

(** [s.replaceAll(c, r)] for a one-character pattern. *)
Fixpoint replaceAll (c : ascii) (r s : string) : string :=
  match s with
  | EmptyString => EmptyString
  | String a s' =>
      if Ascii.eqb a c then r +:+ replaceAll c r s'
      else String a (replaceAll c r s')
  end.

(** [s.split(c)] for a one-character separator: never an empty list. *)
Fixpoint split (c : ascii) (s : string) : list string :=
  match s with
  | EmptyString => [EmptyString]
  | String a s' =>
      if Ascii.eqb a c then EmptyString :: split c s'
      else match split c s' with
           | x :: xs => String a x :: xs
           | [] => [String a EmptyString]
           end
  end.

(** [l.join(sep)] *)
Definition join (sep : string) (l : list string) : string :=
  String.concat sep l.

Fixpoint toLowerCase (s : string) : string :=
  match s with
  | EmptyString => EmptyString
  | String c s' => String (lower c) (toLowerCase s')
  end.

Fixpoint trimStart (s : string) : string :=
  match s with
  | String c s' => if is_space c then trimStart s' else s
  | EmptyString => EmptyString
  end.

Fixpoint rev_onto (s acc : string) : string :=
  match s with
  | EmptyString => acc
  | String c s' => rev_onto s' (String c acc)
  end.
Definition rev (s : string) : string := rev_onto s EmptyString.

(** [s.trim()] *)
Definition trim (s : string) : string := rev (trimStart (rev (trimStart s))).

(** Does the character occur in the string? *)
Fixpoint mem (c : ascii) (s : string) : bool :=
  match s with
  | EmptyString => false
  | String a s' => Ascii.eqb a c || mem c s'
  end.

Fixpoint all (f : ascii -> bool) (s : string) : bool :=
  match s with
  | EmptyString => true
  | String a s' => f a && all f s'
  end.
End Str.

(** ** Regular expressions *)

Module Re.
Inductive regex : Type :=
| Eps
| Chr (c : ascii)
| Cls (f : ascii -> bool)
| Seq (r1 r2 : regex)
| Alt (r1 r2 : regex)
| Star (greedy : bool) (r : regex)
| Grp (i : nat) (r : regex)        (* capture group number [S i] *)
| Bol                              (* [^] without the [m] flag *)
| BolM                             (* [^] with the [m] flag *)
| Eol.                             (* [$] without the [m] flag *)

Fixpoint lit (s : string) : regex :=
  match s with
  | EmptyString => Eps
  | String c s' => Seq (Chr c) (lit s')
  end.
Definition cat (l : list regex) : regex := foldr Seq Eps l.
Definition plus (r : regex) : regex := Seq r (Star true r).
Definition lazy_plus (r : regex) : regex := Seq r (Star false r).
Definition opt (r : regex) : regex := Alt r Eps.

(** Captures, by group: [None] is JavaScript's [undefined]. *)
Definition captures := list (option string).

(** The text between two positions of one input, given as the two rests. *)
Definition consumed (s s' : string) : string :=
  Str.take (String.length s - String.length s') s.

Definition is_line_end (p : option ascii) : bool :=
  match p with
  | None => true
  | Some c => negb (is_dot c)
  end.

(** The matcher, in continuation-passing style: [p] is the character
    before the current position ([None] at the start of the input), [s]
    the rest of the input, [k] what remains to be matched.  A failed
    continuation makes the matcher try its next choice. *)
Section Matcher.
Context {R : Type}.
Definition cont := option ascii -> string -> captures -> option R.

(** [r*] and [r*?] for a body matcher [body]: an iteration has to
    consume input, so [n], the length of the input at the first
    iteration, bounds their number. *)
Fixpoint star_loop (body : option ascii -> string -> captures -> cont -> option R)
    (greedy : bool) (k : cont) (n : nat) (p : option ascii) (s : string)
    (c : captures) {struct n} : option R :=
  match n with
  | 0 => k p s c
  | S n' =>
      let again :=
        body p s c (fun p' s' c' =>
          if String.length s' <? String.length s
          then star_loop body greedy k n' p' s' c' else None) in
      if greedy
      then match again with Some x => Some x | None => k p s c end
      else match k p s c with Some x => Some x | None => again end
  end.

Fixpoint run (r : regex) (p : option ascii) (s : string) (c : captures)
    (k : cont) {struct r} : option R :=
  match r with
  | Eps => k p s c
  | Chr a =>
      match s with
      | String b s' => if Ascii.eqb b a then k (Some b) s' c else None
      | EmptyString => None
      end
  | Cls f =>
      match s with
      | String b s' => if f b then k (Some b) s' c else None
      | EmptyString => None
      end
  | Seq r1 r2 => run r1 p s c (fun p' s' c' => run r2 p' s' c' k)
  | Alt r1 r2 =>
      match run r1 p s c k with
      | Some x => Some x
      | None => run r2 p s c k
      end
  | Star greedy r1 => star_loop (run r1) greedy k (String.length s) p s c
  | Grp i r1 =>
      run r1 p s c (fun p' s' c' => k p' s' (<[i := Some (consumed s s')]> c'))
  | Bol => match p with None => k p s c | Some _ => None end
  | BolM => if is_line_end p then k p s c else None
  | Eol => if Str.is_empty s then k p s c else None
  end.
End Matcher.

(** The character before the position reached from [p] by reading [w]. *)
Fixpoint after (p : option ascii) (w : string) : option ascii :=
  match w with
  | EmptyString => p
  | String a w' => after (Some a) w'
  end.

(** The text is at its end, or its next character is outside the class. *)
Definition stops (f : ascii -> bool) (s : string) : bool :=
  match s with
  | EmptyString => true
  | String a _ => negb (f a)
  end.

(** One match: the whole matched text and the captures. *)
Record hit := { whole : string; groups : captures }.

(** A match starting exactly here ([n] capture groups). *)
Definition match_at (n : nat) (r : regex) (p : option ascii) (s : string)
    : option hit :=
  run r p s (replicate n None)
    (fun _ s' c => Some {| whole := consumed s s'; groups := c |}).

(** [RegExp.prototype.exec] from the current position: the leftmost match,
    with the text skipped before it. *)
Fixpoint exec_from (n : nat) (r : regex) (p : option ascii) (s : string)
    : option (string * hit) :=
  match match_at n r p s with
  | Some h => Some (EmptyString, h)
  | None =>
      match s with
      | EmptyString => None
      | String a s' =>
          match exec_from n r (Some a) s' with
          | Some (pre, h) => Some (String a pre, h)
          | None => None
          end
      end
  end.

(** [s.match(r)] for [r] without the [g] flag. *)
Definition exec (n : nat) (r : regex) (s : string) : option (string * hit) :=
  exec_from n r None s.

(** [r.test(s)] *)
Definition test (n : nat) (r : regex) (s : string) : bool :=
  match exec n r s with Some _ => true | None => false end.

(** The pieces a global replace cuts its input into: the text kept as it
    is, and the matches, in order. *)
Inductive piece : Type :=
| Keep (c : ascii)
| Hit (h : hit).

(** The scan of [s.replace(r, ...)] for [r] with the [g] flag.  [skip]
    counts the characters of the last match still to be passed over; a
    match is looked for at the first position after it.  After an empty
    match the next character is kept and the scan resumes behind it. *)
Fixpoint scan (n : nat) (r : regex) (p : option ascii) (s : string)
    (skip : nat) {struct s} : list piece :=
  match skip with
  | S skip' =>
      match s with
      | EmptyString => []
      | String a s' => scan n r (Some a) s' skip'
      end
  | 0 =>
      match match_at n r p s with
      | Some h =>
          match String.length (whole h), s with
          | 0, EmptyString => [Hit h]
          | 0, String a s' => Hit h :: Keep a :: scan n r (Some a) s' 0
          | S m, EmptyString => [Hit h]
          | S m, String a s' => Hit h :: scan n r (Some a) s' m
          end
      | None =>
          match s with
          | EmptyString => []
          | String a s' => Keep a :: scan n r (Some a) s' 0
          end
      end
  end.

Definition pieces (n : nat) (r : regex) (s : string) : list piece :=
  scan n r None s 0.

(** Capture [i] (numbered from 1) as the callback receives it. *)
Definition group (i : nat) (h : hit) : option string :=
  match i with
  | 0 => Some (whole h)
  | S j => default None (groups h !! j)
  end.

(** Capture [i] as a replacement pattern [$i] writes it. *)
Definition group_text (i : nat) (h : hit) : string :=
  default EmptyString (group i h).

(** [s.replace(r, f)] for a global [r] and a pure callback [f]. *)
Definition replace_with (n : nat) (r : regex) (f : hit -> string) (s : string)
    : string :=
  foldr (fun pc acc =>
           match pc with
           | Keep c => String c acc
           | Hit h => f h +:+ acc
           end) EmptyString (pieces n r s).

(** [s.replace(r, f)] for [r] without the [g] flag. *)
Definition replace_first (n : nat) (r : regex) (f : hit -> string) (s : string)
    : string :=
  match exec n r s with
  | Some (pre, h) =>
      pre +:+ f h +:+ Str.drop (String.length pre + String.length (whole h)) s
  | None => s
  end.
End Re.
Import Re.

(** ** The patterns of the source *)

Module Patterns.
(** [/:::(\w+)(?: +(.+?)\n|\s*\n)([\s\S]+?)(:::|$)/g] *)
Definition admonitionRegex : regex :=
  cat [ lit ":::";
        Grp 0 (plus (Cls is_word));
        Alt (cat [plus (Chr " "); Grp 1 (lazy_plus (Cls is_dot)); Chr LF])
            (cat [Star true (Cls is_space); Chr LF]);
        Grp 2 (lazy_plus (Cls is_any));
        Grp 3 (Alt (lit ":::") Eol) ].

(** [/<embed\s+src="(.*?)"\s+\/>/g] *)
Definition embedRegex : regex :=
  cat [ lit "<embed"; plus (Cls is_space); lit "src="; Chr DQ;
        Grp 0 (Star false (Cls is_dot)); Chr DQ;
        plus (Cls is_space); lit "/>" ].

(** [/```(\w+)?\s+(.+)\n([\s\S]+?)```/g] *)
Definition codeFenceRegex : regex :=
  cat [ lit "```";
        opt (Grp 0 (plus (Cls is_word)));
        plus (Cls is_space);
        Grp 1 (plus (Cls is_dot));
        Chr LF;
        Grp 2 (lazy_plus (Cls is_any));
        lit "```" ].

(** [/(\[[^\]]+\]\()([^)]+)(\))/g] *)
Definition linkRegex : regex :=
  cat [ Grp 0 (cat [Chr "["; plus (Cls (is_not "]")); Chr "]"; Chr "("]);
        Grp 1 (plus (Cls (is_not ")")));
        Grp 2 (Chr ")") ].

(** [/^---\r?\n([\s\S]+?)\r?\n---(?:\r?\n)+/] *)
Definition frontMatterRegex : regex :=
  cat [ Bol; lit "---"; opt (Chr CR); Chr LF;
        Grp 0 (lazy_plus (Cls is_any));
        opt (Chr CR); Chr LF; lit "---";
        plus (cat [opt (Chr CR); Chr LF]) ].

(** [/[^a-z0-9]+/g] *)
Definition slugRunRegex : regex := plus (Cls is_not_slug).

(** [/^-|-$/g] *)
Definition slugEdgeRegex : regex :=
  Alt (cat [Bol; Chr "-"]) (cat [Chr "-"; Eol]).

(** [/\.mdx$/] *)
Definition mdxRegex : regex := cat [lit ".mdx"; Eol].

(** [/^#+\s*\w/m] *)
Definition headingRegex : regex :=
  cat [BolM; plus (Chr "#"); Star true (Cls is_space); Cls is_word].

(** [/https?:\/\//] *)
Definition httpRegex : regex := cat [lit "http"; opt (Chr "s"); lit "://"].

(** [/\.md$/], [/sidebars\.yaml$/], [/\.page\.yaml$/]: what [fsInfo.list]
    is asked for. *)
Definition mdRegex : regex := cat [lit ".md"; Eol].
Definition sidebarsRegex : regex := cat [lit "sidebars.yaml"; Eol].
Definition pageYamlRegex : regex := cat [lit ".page.yaml"; Eol].
End Patterns.
Import Patterns.

(** ** [node:path], POSIX flavour

    The functions of Node's [path] module the source calls, after Node's
    documentation and its [lib/path.js]; [cwd] is [process.cwd()]. *)

Module Path.
Definition sep : string := "/".

(** [normalizeString]: drop empty and [.] segments, resolve [..] against
    the segment before it; above the start, [..] is kept for a relative
    path and dropped for an absolute one.  [acc] is the reversed output. *)
Fixpoint normalizeSegments (allowAboveRoot : bool) (acc segs : list string)
    : list string :=
  match segs with
  | [] => rev acc
  | seg :: rest =>
      if Str.is_empty seg || String.eqb seg "." then
        normalizeSegments allowAboveRoot acc rest
      else if String.eqb seg ".." then
        match acc with
        | top :: acc' =>
            if String.eqb top ".."
            then normalizeSegments allowAboveRoot
                   (if allowAboveRoot then ".." :: acc else acc) rest
            else normalizeSegments allowAboveRoot acc' rest
        | [] =>
            normalizeSegments allowAboveRoot
              (if allowAboveRoot then [".."] else []) rest
        end
      else normalizeSegments allowAboveRoot (seg :: acc) rest
  end.

Definition normalizeString (path : string) (allowAboveRoot : bool) : string :=
  Str.join sep (normalizeSegments allowAboveRoot [] (Str.split "/" path)).

Definition isAbsolute (path : string) : bool := Str.startsWith path sep.

(** [path.normalize] *)
Definition normalize (path : string) : string :=
  if Str.is_empty path then "." else
  let trailing := Str.endsWith path sep in
  let p := normalizeString path (negb (isAbsolute path)) in
  if Str.is_empty p then
    (if isAbsolute path then "/" else if trailing then "./" else ".")
  else
    (if isAbsolute path then sep else EmptyString)
      +:+ p +:+ (if trailing then sep else EmptyString).

(** [path.join] *)
Definition join (args : list string) : string :=
  match filter (fun a => negb (Str.is_empty a) = true) args with
  | [] => "."
  | parts => normalize (Str.join sep parts)
  end.

(** The loop of [path.resolve], from the last argument to the first and
    then the working directory, until an absolute path is met. *)
Fixpoint resolveLoop (rev_args : list string) (resolved : string)
    : string * bool :=
  match rev_args with
  | [] => (resolved, false)
  | p :: rest =>
      if Str.is_empty p then resolveLoop rest resolved
      else if isAbsolute p then (p +:+ sep +:+ resolved, true)
      else resolveLoop rest (p +:+ sep +:+ resolved)
  end.

(** [path.resolve] *)
Definition resolve (cwd : string) (args : list string) : string :=
  let '(resolved, absolute) := resolveLoop (rev args ++ [cwd]) EmptyString in
  let p := normalizeString resolved (negb absolute) in
  if absolute then sep +:+ p
  else if Str.is_empty p then "." else p.

(** The segments of a resolved path. *)
Definition resolvedSegments (cwd path : string) : list string :=
  filter (fun a => negb (Str.is_empty a) = true) (Str.split "/" (resolve cwd [path])).

Fixpoint stripCommon (a b : list string) : list string * list string :=
  match a, b with
  | x :: a', y :: b' => if String.eqb x y then stripCommon a' b' else (a, b)
  | _, _ => (a, b)
  end.

(** [path.relative]: both paths resolved, the common leading segments
    dropped, one [..] for each segment left of [from], then what is left
    of [to].  (Node compares character by character up to the last common
    separator, which cuts at the same place.) *)
Definition relative (cwd from to : string) : string :=
  if String.eqb from to then EmptyString else
  if String.eqb (resolve cwd [from]) (resolve cwd [to]) then EmptyString else
  let '(up, down) := stripCommon (resolvedSegments cwd from) (resolvedSegments cwd to) in
  Str.join sep (map (fun _ => "..") up ++ down).

Fixpoint dropWhile (f : ascii -> bool) (s : string) : string :=
  match s with
  | String c s' => if f c then dropWhile f s' else s
  | EmptyString => EmptyString
  end.

Definition is_sep (c : ascii) : bool := Ascii.eqb c "/".

(** [path.dirname]: the scan runs from the last character down to index 1,
    over the trailing separators, then over the last segment, and stops at
    the separator before it. *)
Definition dirname (path : string) : string :=
  match path with
  | EmptyString => "."
  | String c0 tl =>
      let hasRoot := is_sep c0 in
      match dropWhile (fun c => negb (is_sep c)) (dropWhile is_sep (Str.rev tl)) with
      | EmptyString => if hasRoot then "/" else "."
      | String _ before =>
          if hasRoot && Str.is_empty before then "//"
          else String c0 (Str.rev before)
      end
  end.

(** The last segment of a path, trailing separators apart. *)
Definition lastSegment (path : string) : string :=
  let r := dropWhile is_sep (Str.rev path) in
  Str.rev (Str.take (String.length r - String.length (dropWhile (fun c => negb (is_sep c)) r)) r).

(** [path.basename(path)] *)
Definition basename (path : string) : string := lastSegment path.

(** [path.basename(path, suffix)]: the suffix is cut from the last segment
    when that segment ends with it and is longer than it; a path equal to
    the suffix gives the empty string. *)
Definition basenameExt (path suffix : string) : string :=
  let base := lastSegment path in
  if Str.is_empty suffix || (String.length path <? String.length suffix) then base
  else if String.eqb suffix path then EmptyString
  else if Str.endsWith base suffix && negb (String.eqb base suffix)
       then Str.drop_end (String.length suffix) base
       else base.
End Path.

(** ** JavaScript values, as [js-yaml] parses them *)

Module Js.
(** Numbers: the integers and not-a-number. *)
Inductive number : Type :=
| NaN
| Int (z : Z).

(** An object is the list of its own properties in enumeration order; a
    well-formed one has no key twice ([wf]). *)
Inductive value : Type :=
| VUndefined
| VNull
| VBool (b : bool)
| VNum (n : number)
| VStr (s : string)
| VArr (items : list value)
| VObj (fields : list (string * value)).

Definition truthy (v : value) : bool :=
  match v with
  | VUndefined | VNull => false
  | VBool b => b
  | VNum NaN => false
  | VNum (Int z) => negb (Z.eqb z 0)
  | VStr s => negb (Str.is_empty s)
  | VArr _ | VObj _ => true
  end.

(** [typeof v === 'object' && v !== null] *)
Definition is_object (v : value) : bool :=
  match v with
  | VArr _ | VObj _ => true
  | _ => false
  end.

Definition number_eqb (a b : number) : bool :=
  match a, b with
  | Int x, Int y => Z.eqb x y
  | _, _ => false
  end.

(** [a === b] but for two references: two primitives are compared by
    value; an array or an object is no primitive, and never [===] to one. *)
Definition strict_eq (a b : value) : bool :=
  match a, b with
  | VUndefined, VUndefined => true
  | VNull, VNull => true
  | VBool x, VBool y => Bool.eqb x y
  | VNum x, VNum y => number_eqb x y
  | VStr x, VStr y => String.eqb x y
  | _, _ => false
  end.

(** [v !== v] *)
Definition is_nan (v : value) : bool :=
  match v with
  | VNum NaN => true
  | _ => false
  end.

(** Own properties. *)
Fixpoint lookup (k : string) (fields : list (string * value)) : option value :=
  match fields with
  | [] => None
  | (k', v) :: rest => if String.eqb k' k then Some v else lookup k rest
  end.

(** [o[k] = v]: in place when the key exists, at the end otherwise. *)
Fixpoint assign (k : string) (v : value) (fields : list (string * value))
    : list (string * value) :=
  match fields with
  | [] => [(k, v)]
  | (k', v') :: rest =>
      if String.eqb k' k then (k', v) :: rest else (k', v') :: assign k v rest
  end.

(** [delete o[k]] *)
Definition remove (k : string) (fields : list (string * value))
    : list (string * value) :=
  filter (fun kv => negb (String.eqb (fst kv) k) = true) fields.

(** [Object.keys(o)] *)
Definition keys (fields : list (string * value)) : list string := map fst fields.

(** [v.k] where [k] is no property of the prototypes of strings, numbers,
    booleans and arrays: [None] stands for the [TypeError] of reading a
    property of [undefined] or [null]. *)
Definition get (v : value) (k : string) : option value :=
  match v with
  | VUndefined | VNull => None
  | VObj fields => Some (default VUndefined (lookup k fields))
  | _ => Some VUndefined
  end.

(** [Object.keys(v).length]: own properties, the indices of an array or
    of a string. *)
Definition keyCount (v : value) : nat :=
  match v with
  | VObj fields => length fields
  | VArr items => length items
  | VStr s => String.length s
  | _ => 0
  end.

Definition string_of_Z (z : Z) : string := NilZero.string_of_int (Z.to_int z).

(** [String(v)], as a template literal and a property key read [v]. *)
Fixpoint toString (v : value) : string :=
  match v with
  | VUndefined => "undefined"
  | VNull => "null"
  | VBool true => "true"
  | VBool false => "false"
  | VNum NaN => "NaN"
  | VNum (Int z) => string_of_Z z
  | VStr s => s
  | VArr items =>
      Str.join ","
        ((fix each (l : list value) : list string :=
            match l with
            | [] => []
            | VUndefined :: l' | VNull :: l' => EmptyString :: each l'
            | x :: l' => toString x :: each l'
            end) items)
  | VObj _ => "[object Object]"
  end.

(** Whether two trees are the same tree. *)
Fixpoint value_eqb (a b : value) {struct a} : bool :=
  match a, b with
  | VUndefined, VUndefined => true
  | VNull, VNull => true
  | VBool x, VBool y => Bool.eqb x y
  | VNum NaN, VNum NaN => true
  | VNum (Int x), VNum (Int y) => Z.eqb x y
  | VStr x, VStr y => String.eqb x y
  | VArr xs, VArr ys =>
      (fix each (xs ys : list value) {struct xs} : bool :=
         match xs, ys with
         | [], [] => true
         | x :: xs', y :: ys' => value_eqb x y && each xs' ys'
         | _, _ => false
         end) xs ys
  | VObj fs, VObj gs =>
      (fix each (fs gs : list (string * value)) {struct fs} : bool :=
         match fs, gs with
         | [], [] => true
         | (k, v) :: fs', (k', w) :: gs' =>
             String.eqb k k' && value_eqb v w && each fs' gs'
         | _, _ => false
         end) fs gs
  | _, _ => false
  end.

(** Two arrays or two objects are [===] when they are one object of the
    heap, which a tree does not tell: [same] answers for them.  [apart] is
    the heap of two trees built separately, where no object of the one is
    an object of the other. *)
Definition apart (a b : value) : bool := false.

(** [a === b] *)
Definition identical (same : value -> value -> bool) (a b : value) : bool :=
  strict_eq a b || (is_object a && is_object b && same a b).

(** [foo.constructor === bar.constructor] for two mappings: [constructor]
    is the own property of that name where the mapping has one, and
    [Object] otherwise, which no value read from YAML is. *)
Definition sameConstructor (same : value -> value -> bool)
    (fs gs : list (string * value)) : bool :=
  match lookup "constructor" fs, lookup "constructor" gs with
  | None, None => true
  | Some v, Some w => identical same v w
  | _, _ => false
  end.

(** [dequal(foo, bar)] on a heap where [same] tells the references that
    are one object.  The [constructor] the source compares first is [Array]
    for a sequence, what [sameConstructor] compares for a mapping, and the
    wrapper of its type for a truthy primitive, for which the function then
    falls through to the last line, as it does for two mappings of different
    [constructor].  The array loop of the source runs from the last index
    down and stops at the first difference; the conjunction below is the
    same boolean.  [count] is the source's [len] in the object loop. *)
Fixpoint dequalOn (same : value -> value -> bool) (foo bar : value) {struct foo} : bool :=
  if identical same foo bar then true else
  match foo, bar with
  | VArr xs, VArr ys =>
      (length xs =? length ys) &&
      (fix each (xs ys : list value) {struct xs} : bool :=
         match xs, ys with
         | x :: xs', y :: ys' => dequalOn same x y && each xs' ys'
         | _, _ => true
         end) xs ys
  | VObj fs, VObj gs =>
      sameConstructor same fs gs &&
      (fix each (fs : list (string * value)) (count : nat) {struct fs} : bool :=
         match fs with
         | [] => length (keys gs) =? count
         | (k, v) :: fs' =>
             match lookup k gs with
             | None => false
             | Some w => if dequalOn same v w then each fs' (S count) else false
             end
         end) fs 0
  | _, _ => is_nan foo && is_nan bar
  end.

(** [dequal(foo, bar)] for two trees built separately. *)
Definition dequal (foo bar : value) : bool := dequalOn apart foo bar.

(** No key twice, at every depth. *)
Fixpoint wf (v : value) : Prop :=
  match v with
  | VArr items =>
      (fix each (l : list value) : Prop :=
         match l with
         | [] => True
         | x :: l' => wf x /\ each l'
         end) items
  | VObj fields =>
      List.NoDup (keys fields) /\
      (fix each (l : list (string * value)) : Prop :=
         match l with
         | [] => True
         | (_, x) :: l' => wf x /\ each l'
         end) fields
  | _ => True
  end.

(** What a mapping holds under an own key [constructor], if it has one, is
    a primitive other than not-a-number. *)
Definition plainConstructor (fields : list (string * value)) : bool :=
  match lookup "constructor" fields with
  | None => true
  | Some v => negb (is_object v) && negb (is_nan v)
  end.

(** No mapping holds a sequence, a mapping or not-a-number under an own
    key [constructor], at every depth. *)
Fixpoint plain (v : value) : Prop :=
  match v with
  | VArr items =>
      (fix each (l : list value) : Prop :=
         match l with
         | [] => True
         | x :: l' => plain x /\ each l'
         end) items
  | VObj fields =>
      plainConstructor fields = true /\
      (fix each (l : list (string * value)) : Prop :=
         match l with
         | [] => True
         | (_, x) :: l' => plain x /\ each l'
         end) fields
  | _ => True
  end.
End Js.
Import Js.

(** ** The process: module-level accumulators, the file system, exceptions *)

Module Run.
(** What a run can throw. *)
Inductive error : Type :=
| TypeError (msg : string)
| Error (msg : string)
| YAMLException
| ENOENT (path : string).

(** The module-level variables of the source, the variable
    [addedRegistryRecord] that [migrateOpenAPI] closes over, and the files
    on disk. *)
Record state : Type := mkState {
  renamedFiles : gmap string string;
  fileRbacPermissions : gmap string value;
  ignore : list string;
  partialFolders : list string;
  apis : gmap string value;
  migrationInstructions : string;
  addedRegistryRecord : bool;
  files : gmap string string
}.

Definition defaultMigrationInstructions : string :=
  "# Manual migration instructions" +:+ Str.nl +:+ Str.nl.

(** The accumulators as the module initialises them, over a given disk. *)
Definition initial (disk : gmap string string) : state :=
  {| renamedFiles := ∅;
     fileRbacPermissions := ∅;
     ignore := ["_*"];
     partialFolders := [];
     apis := ∅;
     migrationInstructions := defaultMigrationInstructions;
     addedRegistryRecord := false;
     files := disk |}.

Inductive result (A : Type) : Type :=
| Ok (a : A) (st : state)
| Throw (e : error).
Arguments Ok {A} a st.
Arguments Throw {A} e.

(** A computation over the process state that may throw. *)
Definition M (A : Type) : Type := state -> result A.

Definition ret {A} (a : A) : M A := fun st => Ok a st.
Definition throw {A} (e : error) : M A := fun _ => Throw e.
Definition bind {A B} (m : M A) (f : A -> M B) : M B :=
  fun st =>
    match m st with
    | Ok a st' => f a st'
    | Throw e => Throw e
    end.
Definition get_state : M state := fun st => Ok st st.
Definition modify (f : state -> state) : M unit := fun st => Ok tt (f st).

(** [o] or a thrown [e]. *)
Definition orThrow {A} (e : error) (o : option A) : M A :=
  match o with
  | Some a => ret a
  | None => throw e
  end.

Fixpoint forM_ {A} (l : list A) (f : A -> M unit) : M unit :=
  match l with
  | [] => ret tt
  | x :: l' => bind (f x) (fun _ => forM_ l' f)
  end.

(** The result of [renamedFiles[k]]: an own entry, a property inherited
    from [Object.prototype] (a function or an object: truthy, and no
    string), or [undefined]. *)
Inductive entry : Type :=
| Own (target : string)
| Inherited
| Missing.

Definition objectPrototypeNames : list string :=
  [ "constructor"; "toString"; "toLocaleString"; "valueOf"; "hasOwnProperty";
    "isPrototypeOf"; "propertyIsEnumerable"; "__proto__";
    "__defineGetter__"; "__defineSetter__"; "__lookupGetter__"; "__lookupSetter__" ].

Definition inherited (k : string) : bool :=
  existsb (String.eqb k) objectPrototypeNames.

Definition registryGet (reg : gmap string string) (k : string) : entry :=
  match reg !! k with
  | Some target => Own target
  | None => if inherited k then Inherited else Missing
  end.

Definition entryTruthy (e : entry) : bool :=
  match e with
  | Own target => negb (Str.is_empty target)
  | Inherited => true
  | Missing => false
  end.

(** [fs.readFileSync(path, 'utf8')] *)
Definition readFileSync (path : string) : M string :=
  fun st =>
    match files st !! Path.normalize path with
    | Some content => Ok content st
    | None => Throw (ENOENT path)
    end.

Definition set_renamedFiles (f : gmap string string -> gmap string string) (st : state) : state :=
  {| renamedFiles := f (renamedFiles st);
     fileRbacPermissions := fileRbacPermissions st;
     ignore := ignore st;
     partialFolders := partialFolders st;
     apis := apis st;
     migrationInstructions := migrationInstructions st;
     addedRegistryRecord := addedRegistryRecord st;
     files := files st |}.

Definition set_fileRbacPermissions (f : gmap string value -> gmap string value) (st : state) : state :=
  {| renamedFiles := renamedFiles st;
     fileRbacPermissions := f (fileRbacPermissions st);
     ignore := ignore st;
     partialFolders := partialFolders st;
     apis := apis st;
     migrationInstructions := migrationInstructions st;
     addedRegistryRecord := addedRegistryRecord st;
     files := files st |}.

Definition set_ignore (f : list string -> list string) (st : state) : state :=
  {| renamedFiles := renamedFiles st;
     fileRbacPermissions := fileRbacPermissions st;
     ignore := f (ignore st);
     partialFolders := partialFolders st;
     apis := apis st;
     migrationInstructions := migrationInstructions st;
     addedRegistryRecord := addedRegistryRecord st;
     files := files st |}.

Definition set_partialFolders (f : list string -> list string) (st : state) : state :=
  {| renamedFiles := renamedFiles st;
     fileRbacPermissions := fileRbacPermissions st;
     ignore := ignore st;
     partialFolders := f (partialFolders st);
     apis := apis st;
     migrationInstructions := migrationInstructions st;
     addedRegistryRecord := addedRegistryRecord st;
     files := files st |}.

Definition set_apis (f : gmap string value -> gmap string value) (st : state) : state :=
  {| renamedFiles := renamedFiles st;
     fileRbacPermissions := fileRbacPermissions st;
     ignore := ignore st;
     partialFolders := partialFolders st;
     apis := f (apis st);
     migrationInstructions := migrationInstructions st;
     addedRegistryRecord := addedRegistryRecord st;
     files := files st |}.

Definition set_migrationInstructions (f : string -> string) (st : state) : state :=
  {| renamedFiles := renamedFiles st;
     fileRbacPermissions := fileRbacPermissions st;
     ignore := ignore st;
     partialFolders := partialFolders st;
     apis := apis st;
     migrationInstructions := f (migrationInstructions st);
     addedRegistryRecord := addedRegistryRecord st;
     files := files st |}.

Definition set_addedRegistryRecord (f : bool -> bool) (st : state) : state :=
  {| renamedFiles := renamedFiles st;
     fileRbacPermissions := fileRbacPermissions st;
     ignore := ignore st;
     partialFolders := partialFolders st;
     apis := apis st;
     migrationInstructions := migrationInstructions st;
     addedRegistryRecord := f (addedRegistryRecord st);
     files := files st |}.

Definition set_files (f : gmap string string -> gmap string string) (st : state) : state :=
  {| renamedFiles := renamedFiles st;
     fileRbacPermissions := fileRbacPermissions st;
     ignore := ignore st;
     partialFolders := partialFolders st;
     apis := apis st;
     migrationInstructions := migrationInstructions st;
     addedRegistryRecord := addedRegistryRecord st;
     files := f (files st) |}.

(** [fs.writeFileSync(path, content)] (missing directories are not
    modelled: the disk is a map from normalized paths to contents). *)
Definition writeFileSync (path content : string) : M unit :=
  modify (set_files (insert (Path.normalize path) content)).

(** [fs.unlinkSync(path)] *)
Definition unlinkSync (path : string) : M unit :=
  fun st =>
    match files st !! Path.normalize path with
    | Some _ => Ok tt (set_files (delete (Path.normalize path)) st)
    | None => Throw (ENOENT path)
    end.

(** [fs.renameSync(from, to)].  The disk of the model holds files and no
    directories, so the [ENOENT] of the source for a target whose directory
    does not exist is not modelled: the model returns wherever the source
    returns, and also where the source throws for that reason. *)
Definition renameSync (from to : string) : M unit :=
  fun st =>
    match files st !! Path.normalize from with
    | Some content =>
        Ok tt (set_files (fun d => <[Path.normalize to := content]> (delete (Path.normalize from) d)) st)
    | None => Throw (ENOENT from)
    end.

(** [set.add(x)] on a [Set], kept in insertion order. *)
Definition setAdd (x : string) (l : list string) : list string :=
  if existsb (String.eqb x) l then l else l ++ [x].
End Run.
Import Run.

Declare Scope run_scope.
Delimit Scope run_scope with run.
Notation "x <- m ;; k" := (bind m (fun x => k))
  (at level 100, m at next level, right associativity) : run_scope.
Notation "m ;;; k" := (bind m (fun _ => k))
  (at level 100, right associativity) : run_scope.
Local Open Scope run_scope.

(** ** The collaborators outside the repository *)

(** What [tryFetchRemoteDefinition] hands back. *)
Record definitionInfo : Type := {
  text : option string;
  readme : string;
  baseName : string
}.

(** [js-yaml], [JSON], the working directory and the registry download: the
    source calls them, the repository does not define them. *)
Class Host : Type := {
  cwd : string;
  (** [yaml.load]: [None] when it throws. *)
  yaml_load : string -> option value;
  yaml_dump : value -> string;
  (** [JSON.stringify(v, null, 2)] *)
  json_stringify : value -> string;
  (** [tryFetchRemoteDefinition], with the credential prompt answered. *)
  fetchRemoteDefinition : string -> option definitionInfo
}.

(** ** [slug], [slugRoute] and the file listing *)

Definition slug (str : string) : string :=
  replace_with 0 slugEdgeRegex (fun _ => EmptyString)
    (replace_with 0 slugRunRegex (fun _ => "-") (Str.toLowerCase str)).

Definition slugRoute (str : string) : string :=
  Str.join "/" (map slug (Str.split "/" str)).

(** [getFsInfo(dir).list(pattern)] over the paths read from the disk. *)
Definition listFiles (pattern : regex) (paths : list string) : list string :=
  filter (fun file => test 0 pattern file = true) paths.

(** [s.replace(r, f)] for a global [r] and a callback with effects: the
    callbacks run in the order of the matches. *)
Fixpoint replaceM (f : hit -> M string) (ps : list piece) : M string :=
  match ps with
  | [] => ret EmptyString
  | Keep c :: ps' => rest <- replaceM f ps';; ret (String c rest)
  | Hit h :: ps' => x <- f h;; rest <- replaceM f ps';; ret (x +:+ rest)
  end.

(** ** [processFrontMatter] *)

Record frontMatterResult : Type := {
  frontmatter : value;        (* [null] when the document has no block *)
  changed : bool;
  len : option nat            (* [undefined] when the document has no block *)
}.

Definition deleteProp (v : value) (k : string) : value :=
  match v with
  | VObj fields => VObj (remove k fields)
  | _ => v
  end.

Definition assignProp (v : value) (k : string) (x : value) : value :=
  match v with
  | VObj fields => VObj (assign k x fields)
  | _ => v
  end.

(** [redirectFrom.reduce((acc, str) => { acc[str] = {}; return acc }, {})] *)
Definition redirectsOf (redirectFrom : list value) : value :=
  VObj (fold_left (fun acc str => assign (toString str) (VObj []) acc) redirectFrom []).

Definition nullProperty (k : string) : error :=
  TypeError ("Cannot read properties of null or undefined: " +:+ k).

Section FrontMatter.
Context `{Host}.

(** The rewrite of the parsed mapping: the new mapping, [changed], and the
    two side effects on the permission map and the ignore list. *)
Definition rewriteFrontMatter (fm : value) (filePath : string)
    : M (value * bool) :=
  permission <- orThrow (nullProperty "permission") (get fm "permission");;
  step1 <-
    (if truthy permission
     then modify (set_fileRbacPermissions (insert filePath permission));;;
          ret (deleteProp fm "permission", true)
     else ret (fm, false));;
  let fm := fst step1 in
  let changed := snd step1 in
  redirectFrom <- orThrow (nullProperty "redirectFrom") (get fm "redirectFrom");;
  step2 <-
    (if truthy redirectFrom
     then match redirectFrom with
          | VArr urls =>
              ret (deleteProp (assignProp fm "redirects" (redirectsOf urls))
                     "redirectFrom", true)
          | _ => throw (TypeError "frontmatter.redirectFrom.reduce is not a function")
          end
     else ret (fm, changed));;
  let fm := fst step2 in
  let changed := snd step2 in
  exclude <- orThrow (nullProperty "exclude") (get fm "exclude");;
  (if truthy exclude
   then modify (set_ignore (fun l => l ++ [filePath]))
   else ret tt);;;
  ret (fm, changed).

Definition processFrontMatter (content filePath : string) : M frontMatterResult :=
  match exec 1 frontMatterRegex content with
  | None => ret {| frontmatter := VNull; changed := false; len := None |}
  | Some (_, frontMatterSrc) =>
      let frontMatterYaml := Str.replaceAll TAB "  " (group_text 1 frontMatterSrc) in
      fm <- orThrow YAMLException (yaml_load frontMatterYaml);;
      rewritten <- rewriteFrontMatter fm filePath;;
      ret {| frontmatter := fst rewritten;
             changed := snd rewritten;
             len := Some (String.length (whole frontMatterSrc)) |}
  end.
End FrontMatter.

(** ** [migrateMarkdown] *)

(** A value in a template literal: [undefined] is written out. *)
Definition template (o : option string) : string := default "undefined" o.

(** The callback of the admonition rewrite. *)
Definition admonition (type : string) (title : option string) (text : string) : string :=
  let type := Str.trim type in
  let type := if String.eqb type "attention" then "info" else type in
  let text := if Str.endsWith text Str.nl then text else text +:+ Str.nl in
  "{% admonition type=" +:+ Str.dq +:+ type +:+ Str.dq +:+ " name=" +:+ Str.dq
    +:+ template title +:+ Str.dq +:+ " %}" +:+ Str.nl +:+ text +:+ "{% /admonition %}".

Definition admonitionReplacer (h : hit) : string :=
  admonition (group_text 1 h) (group 2 h) (group_text 3 h).

Definition rewriteAdmonitions (content : string) : string :=
  replace_with 4 admonitionRegex admonitionReplacer content.

(** The replacement pattern of the titled code fence: three backquotes, [$1],
    the title attribute holding [$2], a line feed, [$3], three backquotes. *)
Definition codeFenceReplacer (h : hit) : string :=
  "```" +:+ group_text 1 h +:+ " {% title=" +:+ Str.dq +:+ group_text 2 h +:+ Str.dq
    +:+ " %}" +:+ Str.nl +:+ group_text 3 h +:+ "```".

Definition rewriteCodeFences (content : string) : string :=
  replace_with 3 codeFenceRegex codeFenceReplacer content.

Section Markdown.
Context `{Host}.

(** The callback of the embed rewrite. *)
Definition embedReplacer (filePath : string) (h : hit) : M string :=
  let src := group_text 1 h in
  modify (set_partialFolders (setAdd
    (if Str.startsWith src "/"
     then Path.dirname (Str.drop 1 src)
     else Path.dirname (Path.resolve cwd [Path.dirname filePath; src]))));;;
  ret ("{% partial file=" +:+ Str.dq +:+ src +:+ Str.dq +:+ " /%}").

Definition rewriteEmbeds (filePath content : string) : M string :=
  replaceM (embedReplacer filePath) (pieces 1 embedRegex content).

(** The three rewrites of the markup, in the order of the source. *)
Definition transformMarkup (filePath content : string) : M string :=
  newContent <- rewriteEmbeds filePath (rewriteAdmonitions content);;
  ret (rewriteCodeFences newContent).

(** [Object.keys(frontmatter || {}).length] *)
Definition frontmatterKeyCount (fm : value) : nat :=
  if truthy fm then keyCount fm else 0.

(** [newContent.slice(len)] *)
Definition sliceFrom (len : option nat) (s : string) : string :=
  Str.drop (default 0 len) s.

(** The splice of the rewritten frontmatter block. *)
Definition spliceFrontMatter (r : frontMatterResult) (newContent : string) : string :=
  if changed r then
    if frontmatterKeyCount (frontmatter r) =? 0
    then sliceFrom (len r) newContent
    else "---" +:+ Str.nl +:+ yaml_dump (frontmatter r) +:+ "---" +:+ Str.nl
           +:+ Str.nl +:+ sliceFrom (len r) newContent
  else newContent.

(** Some key [f] of the registry names a page collection whose route is a
    prefix of the link. *)
Definition underRenamedRoute (reg : gmap string string) (link : string) : bool :=
  existsb (fun f =>
             Str.endsWith f ".page.yaml" &&
             Str.startsWith link
               ("/" +:+ slugRoute (Str.replace ".page.yaml" EmptyString f) +:+ "/"))
          (map fst (map_to_list reg)).

(** The callback of the link rewrite. *)
Definition linkReplacer (filePath : string) (h : hit) : M string :=
  let start := group_text 1 h in
  let link := group_text 2 h in
  let end_ := group_text 3 h in
  let parts := Str.split "#" link in
  let fileLink := hd EmptyString parts in
  let hashSuffix :=
    match parts with
    | _ :: hash :: _ => if Str.is_empty hash then EmptyString else "#" +:+ hash
    | _ => EmptyString
    end in
  let relativeLink :=
    Path.relative cwd "."
      (if Str.startsWith fileLink "/" then Str.drop 1 fileLink
       else Path.resolve cwd [Path.dirname filePath; fileLink]) in
  st <- get_state;;
  let found := registryGet (renamedFiles st) relativeLink in
  if entryTruthy found then
    match found with
    | Own target =>
        ret (start +:+ Path.relative cwd (Path.dirname filePath) target
               +:+ hashSuffix +:+ end_)
    | _ => throw (TypeError "The to argument must be of type string")
    end
  else if underRenamedRoute (renamedFiles st) link && Str.includes link "/tag/"
  then ret (start +:+ Str.toLowerCase (Str.replace "/tag/" "/" link) +:+ end_)
  else ret (whole h).

Definition rewriteLinks (filePath content : string) : M string :=
  replaceM (linkReplacer filePath) (pieces 3 linkRegex content).

(** The body of the loop of [migrateMarkdown], from the text read to the
    text compared with it. *)
Definition migrateContent (filePath content : string) : M string :=
  newContent <- transformMarkup filePath content;;
  r <- processFrontMatter newContent filePath;;
  rewriteLinks filePath (spliceFrontMatter r newContent).

Definition migrateMarkdownFile (filePath : string) : M unit :=
  content <- readFileSync filePath;;
  newContent <- migrateContent filePath content;;
  if String.eqb newContent content then ret tt
  else writeFileSync filePath newContent.

Definition migrateMarkdown (paths : list string) : M unit :=
  forM_ (listFiles mdRegex paths) migrateMarkdownFile.
End Markdown.

(** ** [migrateSidebars] and [transformSidebarItems] *)

(** A result that reads the state and leaves it as it is. *)
Inductive outcome (A : Type) : Type :=
| Done (a : A)
| Raise (e : error).
Arguments Done {A} a.
Arguments Raise {A} e.

Definition liftOutcome {A} (f : state -> outcome A) : M A :=
  fun st =>
    match f st with
    | Done a => Ok a st
    | Raise e => Throw e
    end.

Section Sidebars.
Context `{Host}.

(** [path.relative('.', path.resolve(path.dirname(filePath), page))] *)
Definition registryKey (filePath page : string) : string :=
  Path.relative cwd "." (Path.resolve cwd [Path.dirname filePath; page]).

(** [path.relative(path.dirname(filePath), target)] *)
Definition relativeToFile (filePath target : string) : string :=
  Path.relative cwd (Path.dirname filePath) target.

(** The two branches for a page collection: the lookup that must succeed,
    then the node built from the entry. *)
Definition renamedPage (reg : gmap string string) (filePath page : string)
    (build : string -> value) : outcome value :=
  let pageYamlFile := registryKey filePath (Str.replace "/*" EmptyString page) in
  let found := registryGet reg pageYamlFile in
  if negb (entryTruthy found)
  then Raise (Error ("No renamed file found for " +:+ pageYamlFile))
  else match found with
       | Own target => Done (build (relativeToFile filePath target))
       | _ => Raise (TypeError "The to argument must be of type string")
       end.

(** [item.label || item.group] *)
Definition labelOrGroup (fields : list (string * value)) : value :=
  let label := default VUndefined (lookup "label" fields) in
  if truthy label then label else default VUndefined (lookup "group" fields).

(** The callback of [items.map]; [children] is
    [transformSidebarItems(item.pages, filePath)], read only when
    [item.pages] is truthy. *)
Definition transformSidebarItem (reg : gmap string string) (filePath : string)
    (item : value) (children : outcome value) : outcome value :=
  match item with
  | VUndefined | VNull => Raise (nullProperty "pages")
  | VObj fields =>
      if truthy (default VUndefined (lookup "pages" fields)) then
        match children with
        | Done items =>
            Done (VObj (assign "items" items (assign "pages" VUndefined fields)))
        | Raise e => Raise e
        end
      else
        match default VUndefined (lookup "page" fields) with
        | VUndefined | VNull => Done item
        | VStr page =>
            if Str.endsWith page "/*" then
              if Str.endsWith page ".page.yaml/*" then
                renamedPage reg filePath page (fun target =>
                  VObj (assign "page" (VStr target) fields))
              else
                Done (VObj (assign "directory" (VStr (Str.drop_end 2 page))
                              (assign "page" VUndefined fields)))
            else if Str.endsWith page ".page.yaml" then
              renamedPage reg filePath page (fun target =>
                VObj (assign "page" (VStr target)
                        (assign "group" (labelOrGroup fields) fields)))
            else if negb (Str.is_empty page) then
              let found := registryGet reg (registryKey filePath page) in
              if entryTruthy found then
                match found with
                | Own target =>
                    Done (VObj (assign "page" (VStr (relativeToFile filePath target)) fields))
                | _ => Raise (TypeError "The to argument must be of type string")
                end
              else Done item
            else Done item
        | _ => Raise (TypeError "item.page?.endsWith is not a function")
        end
  | _ => Done item
  end.

(** [transformSidebarItems(items, filePath)]: [items.map] over an array,
    a [TypeError] on anything else. *)
Fixpoint transformSidebarItems (reg : gmap string string) (filePath : string)
    (items : value) {struct items} : outcome value :=
  match items with
  | VArr l =>
      match
        (fix each (l : list value) : outcome (list value) :=
           match l with
           | [] => Done []
           | item :: l' =>
               let children :=
                 match item with
                 | VObj fields =>
                     (fix pagesOf (fs : list (string * value)) : outcome value :=
                        match fs with
                        | [] => Raise (TypeError "items.map is not a function")
                        | (k, v) :: fs' =>
                            if String.eqb k "pages"
                            then transformSidebarItems reg filePath v
                            else pagesOf fs'
                        end) fields
                 | _ => Raise (TypeError "items.map is not a function")
                 end in
               match transformSidebarItem reg filePath item children with
               | Done item' =>
                   match each l' with
                   | Done rest => Done (item' :: rest)
                   | Raise e => Raise e
                   end
               | Raise e => Raise e
               end
           end) l
      with
      | Done l' => Done (VArr l')
      | Raise e => Raise e
      end
  | _ => Raise (TypeError "items.map is not a function")
  end.

Definition transformSidebar (items : value) (filePath : string) : M value :=
  liftOutcome (fun st => transformSidebarItems (renamedFiles st) filePath items).

(** [dequal(data, newData)] where [newData] is what the transformer made of
    [data]: a node it does not change is returned as it is, and one it
    changes is copied by a spread, its values with it, so the same tree at
    the same place of both is taken for one object of the heap.  (Where a
    copy has the tree of its original, and where a [group] is written from
    a [label], the source compares two objects: it answers as the model
    does unless it meets an own key [constructor] that holds not-a-number
    or an object of its own.) *)
Definition unchanged (data newData : value) : bool := dequalOn value_eqb data newData.

(** [Object.entries(data).forEach(([key, data], idx) => ...)] *)
Fixpoint forEachTree (filePath : string) (entries : list (string * value))
    (idx : nat) : M unit :=
  match entries with
  | [] => ret tt
  | (key, data) :: rest =>
      newData <- transformSidebar data filePath;;
      let prefix := if idx =? 0 then EmptyString else slug key +:+ "." in
      let newName := prefix +:+ "sidebars.yaml" in
      (if unchanged data newData then ret tt
       else writeFileSync (Path.join [Path.dirname filePath; newName])
              (yaml_dump newData));;;
      forEachTree filePath rest (S idx)
  end.

(** The body of the loop of [migrateSidebars]: [false] is the [return]
    that leaves the function. *)
Definition migrateSidebarsFile (filePath : string) : M bool :=
  content <- readFileSync filePath;;
  data <- orThrow YAMLException (yaml_load content);;
  match data with
  | VArr _ =>
      newData <- transformSidebar data filePath;;
      (if unchanged data newData then ret tt
       else writeFileSync filePath (yaml_dump newData));;;
      ret true
  | VObj entries =>
      forEachTree filePath entries 0;;;
      ret true
  | _ => ret false
  end.

Fixpoint migrateSidebarsLoop (sidebars : list string) : M unit :=
  match sidebars with
  | [] => ret tt
  | filePath :: rest =>
      continue <- migrateSidebarsFile filePath;;
      if continue then migrateSidebarsLoop rest else ret tt
  end.

Definition migrateSidebars (paths : list string) : M unit :=
  migrateSidebarsLoop (listFiles sidebarsRegex paths).
End Sidebars.

(** ** [migrateMdx] *)

(** [renamedFiles[path.normalize(filePath)] = target]: the one statement that
    writes the registry, at each of its four places in the source. *)
Definition recordRename (filePath target : string) : M unit :=
  modify (set_renamedFiles (insert (Path.normalize filePath) target)).

Section Mdx.
Context `{Host}.

(** [detectMdxType(content) === 'md'] *)
Definition detectMdxIsMd (content : string) : bool := test 0 headingRegex content.

Definition tsxPage (frontmatterStr newContent : string) : string :=
  "import * as React from 'react';" +:+ Str.nl +:+ Str.nl
  +:+ "// import { WideTile, Jumbotron } from '@redocly/portal-legacy-ui';"
  +:+ Str.nl +:+ Str.nl
  +:+ frontmatterStr
  +:+ "export default function Page() {" +:+ Str.nl
  +:+ "  return <div>TODO: migrate manually</div>;" +:+ Str.nl
  +:+ "  /*" +:+ Str.nl
  +:+ Str.join Str.nl (map (fun line => "  " +:+ line) (Str.split LF newContent))
  +:+ "  */" +:+ Str.nl
  +:+ "}" +:+ Str.nl.

Definition convertMdxToTsx (content filePath : string) : M unit :=
  let newFilePath := replace_first 0 mdxRegex (fun _ => ".page.tsx") filePath in
  r <- processFrontMatter content newFilePath;;
  let newContent := sliceFrom (len r) content in
  let frontmatterStr :=
    if truthy (frontmatter r)
    then Str.nl +:+ Str.nl +:+ "export const frontmatter = "
           +:+ json_stringify (frontmatter r) +:+ ";" +:+ Str.nl +:+ Str.nl
    else EmptyString in
  writeFileSync newFilePath (tsxPage frontmatterStr newContent);;;
  unlinkSync filePath;;;
  recordRename filePath newFilePath.

Definition mdBanner : string :=
  "<!--" +:+ Str.nl
  +:+ "This file was automatically renamed from MDX to Markdown." +:+ Str.nl
  +:+ "Please, review and update the content." +:+ Str.nl
  +:+ "-->" +:+ Str.nl +:+ Str.nl.

Definition convertMdxToMd (content filePath : string) : M unit :=
  let newFilePath := replace_first 0 mdxRegex (fun _ => ".md") filePath in
  r <- processFrontMatter content newFilePath;;
  let newContent := sliceFrom (len r) content in
  let frontmatterStr :=
    if truthy (frontmatter r) && (0 <? keyCount (frontmatter r))
    then "---" +:+ Str.nl +:+ yaml_dump (frontmatter r) +:+ "---" +:+ Str.nl +:+ Str.nl
    else EmptyString in
  writeFileSync newFilePath (frontmatterStr +:+ mdBanner +:+ newContent);;;
  unlinkSync filePath;;;
  recordRename filePath newFilePath.

Definition migrateMdxFile (filePath : string) : M unit :=
  content <- readFileSync filePath;;
  (if detectMdxIsMd content
   then convertMdxToMd content filePath
   else convertMdxToTsx content filePath);;;
  modify (set_migrationInstructions (fun log =>
    log +:+ "* `" +:+ Path.relative cwd "." filePath +:+ "`" +:+ Str.nl)).

Definition migrateMdx (paths : list string) : M unit :=
  match listFiles mdxRegex paths with
  | [] => ret tt
  | mdxFiles =>
      modify (set_migrationInstructions (fun log =>
        log +:+ "## MDX files" +:+ Str.nl +:+ Str.nl
            +:+ "Please, review and migrate MDX files manually:" +:+ Str.nl +:+ Str.nl));;;
      forM_ mdxFiles migrateMdxFile
  end.
End Mdx.

(** ** [migrateOpenAPI] *)

(** [{...v}]: the own enumerable properties. *)
Definition spread (v : value) : list (string * value) :=
  match v with
  | VObj fields => fields
  | VArr items => imap (fun i x => (string_of_Z (Z.of_nat i), x)) items
  | VStr s =>
      imap (fun i c => (string_of_Z (Z.of_nat i), VStr (String c EmptyString)))
        (list_ascii_of_string s)
  | _ => []
  end.

(** [a || b] *)
Definition orElse (a b : value) : value := if truthy a then a else b.

(** [v?.k] *)
Definition getOpt (v : value) (k : string) : value :=
  default VUndefined (get v k).

(** [v?.[0]] *)
Definition firstOpt (v : value) : value :=
  match v with
  | VArr (x :: _) => x
  | VStr (String c _) => VStr (String c EmptyString)
  | VObj fields => default VUndefined (lookup "0" fields)
  | _ => VUndefined
  end.

(** The values a [for ... of] loop visits; [None] is the [TypeError] of a
    value that cannot be iterated. *)
Definition iterate (v : value) : option (list value) :=
  match v with
  | VArr items => Some items
  | VStr s => Some (map (fun c => VStr (String c EmptyString)) (list_ascii_of_string s))
  | _ => None
  end.

Definition emptyOas (title : string) : string :=
  "openapi: 3.1.0" +:+ Str.nl
  +:+ "info:" +:+ Str.nl
  +:+ "  title: " +:+ title +:+ Str.nl
  +:+ "  version: 1.0.0" +:+ Str.nl
  +:+ "  description: |" +:+ Str.nl
  +:+ "    {% admonition type=" +:+ Str.dq +:+ "danger" +:+ Str.dq +:+ " name="
  +:+ Str.dq +:+ "Example file" +:+ Str.dq +:+ " %}" +:+ Str.nl
  +:+ "      This file was automatically generated and should be replaced with the actual OpenAPI definition."
  +:+ Str.nl
  +:+ "      Please, connect remote content in Reunite." +:+ Str.nl
  +:+ "    {% /admonition %}" +:+ Str.nl
  +:+ "paths: {}" +:+ Str.nl.

Definition migrateRefDocsSettings (settings : value) : value :=
  VObj (assign "pagination" VUndefined
         (assign "generateCodeSamples" VUndefined
           (assign "codeSamples" (getOpt settings "generateCodeSamples")
             (spread settings)))).

Section OpenAPI.
Context `{Host}.

(** [if (pageYaml.permission) fileRbacPermissions[path.relative('.', p)] = ...] *)
Definition recordPermission (pageYaml : value) (p : string) : M unit :=
  let permission := getOpt pageYaml "permission" in
  if truthy permission
  then modify (set_fileRbacPermissions (insert (Path.relative cwd "." p) permission))
  else ret tt.

(** [migratePageYaml]: [None] is the [undefined] it returns when the site
    configuration has no path for the definition.  ([fs.mkdirSync] has
    nothing to do on a disk without directories.) *)
Definition migratePageYaml (oasDefinitions definitionId pageYaml : value)
    (targetPath : string) (versioned : bool) : M (option string) :=
  let id := toString definitionId in
  let definitionPath := getOpt oasDefinitions id in
  if negb (truthy definitionPath) then ret None else
  match definitionPath with
  | VStr definitionPath =>
      if test 0 httpRegex definitionPath then
        let dir :=
          if versioned then Path.dirname targetPath
          else Path.join [Path.dirname targetPath; Path.basenameExt targetPath ".yaml"] in
        let definitionInfo := fetchRemoteDefinition definitionPath in
        let fetchedName := default EmptyString (baseName <$> definitionInfo) in
        let newTargetPath :=
          Path.join [dir; if Str.is_empty fetchedName
                          then Path.basename definitionPath else fetchedName] in
        st <- get_state;;
        modify (set_apis (insert id
          (VObj (assign "output" (VStr (Path.join [dir; "index.yaml"]))
                  (assign "root" (VStr newTargetPath)
                    (spread (default VUndefined (apis st !! id))))))));;;
        let fetchedText := default EmptyString (definitionInfo ≫= text) in
        writeFileSync newTargetPath
          (if Str.is_empty fetchedText
           then emptyOas (toString (orElse (getOpt pageYaml "title")
                                      (orElse (getOpt pageYaml "label") definitionId)))
           else fetchedText);;;
        let fetchedReadme := default EmptyString (readme <$> definitionInfo) in
        (if Str.is_empty fetchedReadme then ret tt else
           st <- get_state;;
           (if addedRegistryRecord st then ret tt else
              modify (set_migrationInstructions (fun log =>
                log +:+ "## Registry OpenAPI files" +:+ Str.nl +:+ Str.nl
                +:+ "OpenAPI files from registry has to be replaced with [Remote content](https://redocly.com/docs/realm/setup/how-to/remote-content)"
                +:+ Str.nl +:+ Str.nl));;;
              modify (set_addedRegistryRecord (fun _ => true)));;;
           modify (set_migrationInstructions (fun log =>
             log +:+ "* Connect folder `" +:+ dir +:+ "`:" +:+ Str.nl
                 +:+ fetchedReadme +:+ Str.nl)));;;
        recordPermission pageYaml newTargetPath;;;
        ret (Some newTargetPath)
      else
        renameSync definitionPath targetPath;;;
        (let settings := getOpt pageYaml "settings" in
         if truthy settings
         then modify (set_apis (insert id
                (VObj [("root", VStr (Path.relative cwd "." targetPath));
                       ("theme", VObj [("openapi", migrateRefDocsSettings settings)])])))
         else ret tt);;;
        recordPermission pageYaml targetPath;;;
        ret (Some targetPath)
  | _ => throw (TypeError "definitionPath.match is not a function")
  end.

(** [if (renamed) renamedFiles[path.normalize(filePath)] = renamed] *)
Definition recordIfRenamed (filePath : string) (renamed : option string) : M unit :=
  match renamed with
  | Some target =>
      if Str.is_empty target then ret tt else recordRename filePath target
  | None => ret tt
  end.

(** The loop over the versions of one page descriptor. *)
Fixpoint migrateVersions (oasDefinitions : value) (filePath : string)
    (versions : list value) : M unit :=
  match versions with
  | [] => ret tt
  | version :: rest =>
      definitionId <- orThrow (nullProperty "definitionId") (get version "definitionId");;
      (if negb (truthy definitionId) then ret tt else
         renamed <- migratePageYaml oasDefinitions definitionId version
                      (Path.join [ Path.dirname filePath;
                                   Path.basenameExt filePath ".page.yaml";
                                   "@" +:+ toString (getOpt version "id");
                                   "index.yaml" ])
                      true;;
         recordIfRenamed filePath renamed);;;
      migrateVersions oasDefinitions filePath rest
  end.

(** [pageYaml.versions && pageYaml.versions.length > 1]; the [length] of
    an object is read only where it is absent. *)
Definition severalVersions (versions : value) : option bool :=
  match versions with
  | VArr items => Some (1 <? length items)
  | VStr s => Some (1 <? String.length s)
  | VObj fields =>
      match lookup "length" fields with
      | None => Some false
      | Some _ => None
      end
  | _ => Some false
  end.

(** The body of the loop of [migrateOpenAPI]. *)
Definition migrateOpenAPIFile (oasDefinitions : value) (filePath : string) : M unit :=
  content <- readFileSync filePath;;
  pageYaml <- orThrow YAMLException (yaml_load content);;
  unlinkSync filePath;;;
  versions <- orThrow (nullProperty "versions") (get pageYaml "versions");;
  several <- orThrow (Error "outside the model: a page descriptor whose versions have a length property")
               (severalVersions versions);;
  if several then
    items <- orThrow (TypeError "pageYaml.versions is not iterable") (iterate versions);;
    migrateVersions oasDefinitions filePath items
  else
    let definitionId :=
      orElse (getOpt pageYaml "definitionId")
             (getOpt (firstOpt versions) "definitionId") in
    if negb (truthy definitionId) then ret tt else
      renamed <- migratePageYaml oasDefinitions definitionId pageYaml
                   (Str.replace ".page.yaml" ".yaml" filePath) false;;
      recordIfRenamed filePath renamed.

Definition migrateOpenAPI (paths : list string) : M unit :=
  content <- readFileSync "siteConfig.yaml";;
  siteConfig <- orThrow YAMLException (yaml_load content);;
  let oasDefinitions := orElse (getOpt siteConfig "oasDefinitions") (VObj []) in
  modify (set_addedRegistryRecord (fun _ => false));;;
  forM_ (listFiles pageYamlRegex paths) (migrateOpenAPIFile oasDefinitions).
End OpenAPI.

(** ** The words of the specification *)

Module Spec.
(** "Identity-equal" primitives: the same primitive, but for not-a-number,
    which is identical to nothing. *)
Inductive identicalPrimitives : value -> value -> Prop :=
| identical_undefined : identicalPrimitives VUndefined VUndefined
| identical_null : identicalPrimitives VNull VNull
| identical_booleans b : identicalPrimitives (VBool b) (VBool b)
| identical_numbers z : identicalPrimitives (VNum (Int z)) (VNum (Int z))
| identical_strings s : identicalPrimitives (VStr s) (VStr s).

(** "Two sequences have the same length and pairwise-equal elements in
    order; two mappings have the same key set with pairwise-equal values
    regardless of key order; two primitives are identity-equal, except that
    two not-a-number values are considered equal to each other." *)
Inductive structurallyEqual : value -> value -> Prop :=
| equal_primitives a b : identicalPrimitives a b -> structurallyEqual a b
| equal_nan : structurallyEqual (VNum NaN) (VNum NaN)
| equal_sequences xs ys :
    Forall2 structurallyEqual xs ys ->
    structurallyEqual (VArr xs) (VArr ys)
| equal_mappings fs gs :
    (forall k, In k (keys fs) <-> In k (keys gs)) ->
    (forall k v w, lookup k fs = Some v -> lookup k gs = Some w ->
                   structurallyEqual v w) ->
    structurallyEqual (VObj fs) (VObj gs).


(** The nodes the sidebar transformer visits: the items of the list, and
    below an item with a truthy [pages] array, the nodes of that array. *)
Inductive visits : list value -> value -> Prop :=
| visits_item items node : In node items -> visits items node
| visits_pages items fields pages node :
    In (VObj fields) items ->
    lookup "pages" fields = Some (VArr pages) ->
    visits pages node ->
    visits items node.

(** A node that is no legacy group: it has no truthy [pages]. *)
Definition noPages (fields : list (string * value)) : Prop :=
  truthy (default VUndefined (lookup "pages" fields)) = false.

(** A segment of a working directory: not empty, no separator in it, and
    neither [.] nor [..]. *)
Definition segmentOk (seg : string) : bool :=
  negb (Str.is_empty seg) && negb (Str.mem "/" seg)
  && negb (String.eqb seg ".") && negb (String.eqb seg "..").

(** The absolute, normalized path [process.cwd()] returns. *)
Definition cwdOf (segs : list string) : string := "/" +:+ Str.join "/" segs.
End Spec.

(** ** A host for the examples *)

Module Fixture.
Definition scalar (s : string) : value :=
  if String.eqb s "true" then VBool true
  else if String.eqb s "false" then VBool false
  else VStr s.

(** One line [key: value]. *)
Definition entryOf (line : string) : option (string * value) :=
  match Str.split ":" line with
  | k :: v :: _ => Some (k, scalar (Str.trim v))
  | _ => None
  end.

Definition linesOf (s : string) : list string :=
  filter (fun l => negb (Str.is_empty l) = true) (Str.split LF s).

Definition itemOf (line : string) : value :=
  match entryOf (Str.drop 2 line) with
  | Some kv => VObj [kv]
  | None => scalar (Str.drop 2 line)
  end.

(** A loader for the YAML of the examples: a flat mapping of [key: value]
    lines, a sequence of [- item] lines, or a plain scalar. *)
Definition load (s : string) : option value :=
  let ls := linesOf s in
  if forallb (fun l => Str.startsWith l "- ") ls
  then Some (VArr (map itemOf ls))
  else match mapM entryOf ls with
       | Some fields => Some (VObj fields)
       | None => Some (scalar (Str.trim s))
       end.

Definition dump (v : value) : string :=
  match v with
  | VObj fields =>
      String.concat EmptyString
        (map (fun kv => fst kv +:+ ": " +:+ toString (snd kv) +:+ Str.nl) fields)
  | VArr items =>
      String.concat EmptyString
        (map (fun x => "- " +:+ toString x +:+ Str.nl) items)
  | _ => toString v +:+ Str.nl
  end.

Definition host : Host :=
  {| cwd := "/srv/site";
     yaml_load := load;
     yaml_dump := dump;
     json_stringify := toString;
     fetchRemoteDefinition := fun _ => None |}.

(** The text of a document given by its lines. *)
Definition doc (lines : list string) : string :=
  String.concat EmptyString (map (fun l => l +:+ Str.nl) lines).

(** Three sidebar files, the second one no YAML object, and a registry
    that renames the page of the third. *)
Definition sidebarsState : state :=
  set_renamedFiles (insert "c/guide.mdx" "./c/guide.md")
    (initial (<["a/sidebars.yaml" := doc ["- page: intro.md"]]>
             (<["b/sidebars.yaml" := "to be written"]>
             (<["c/sidebars.yaml" := doc ["- page: guide.mdx"]]> ∅)))).

(** A host whose loader also knows the documents of a table. *)
Definition hostWith (table : list (string * value)) : Host :=
  {| cwd := "/srv/site";
     yaml_load := fun s =>
       match find (fun kv => String.eqb (fst kv) s) table with
       | Some kv => Some (snd kv)
       | None => load s
       end;
     yaml_dump := dump;
     json_stringify := toString;
     fetchRemoteDefinition := fun _ => None |}.

(** A site with one page descriptor of two versions, both from the
    registry, and what [js-yaml] reads from the two files. *)
Definition siteConfigText : string :=
  doc [ "oasDefinitions:";
        "  petstore-v1: https://api.example.com/registry/petstore/v1/openapi.yaml";
        "  petstore-v2: https://api.example.com/registry/petstore/v2/openapi.yaml" ].

Definition siteConfigValue : value :=
  VObj [("oasDefinitions",
         VObj [("petstore-v1", VStr "https://api.example.com/registry/petstore/v1/openapi.yaml");
               ("petstore-v2", VStr "https://api.example.com/registry/petstore/v2/openapi.yaml")])].

Definition pageText : string :=
  doc [ "title: Petstore";
        "versions:";
        "  - id: v1";
        "    definitionId: petstore-v1";
        "  - id: v2";
        "    definitionId: petstore-v2" ].

Definition firstVersion : value :=
  VObj [("id", VStr "v1"); ("definitionId", VStr "petstore-v1")].
Definition secondVersion : value :=
  VObj [("id", VStr "v2"); ("definitionId", VStr "petstore-v2")].

Definition pageValue : value :=
  VObj [("title", VStr "Petstore"); ("versions", VArr [firstVersion; secondVersion])].

Definition openApiHost : Host :=
  hostWith [(siteConfigText, siteConfigValue); (pageText, pageValue)].

Definition openApiState : state :=
  initial (<["siteConfig.yaml" := siteConfigText]>
          (<["api.page.yaml" := pageText]> ∅)).





(** A registry in which the target of a rename is renamed itself. *)
Definition chainedState : state :=
  set_renamedFiles (insert "c.md" "d/c.md")
    (set_renamedFiles (insert "d/c.md" "e/c.md") (initial ∅)).
End Fixture.

(** ** Views of the definitions, for the proofs *)

(** The pieces of a text in which nothing matched. *)
Definition keeps (s : string) : list piece := map Keep (list_ascii_of_string s).

(** The value of one key of a mapping, [undefined] when it is absent. *)
Definition fieldOf (fields : list (string * value)) (k : string) : value :=
  default VUndefined (lookup k fields).


Definition pushIgnore (fields : list (string * value)) (filePath : string)
    (st : state) : state :=
  if truthy (fieldOf fields "exclude")
  then set_ignore (fun l => l ++ [filePath]) st else st.


(** The matches among the pieces of a scan. *)
Fixpoint hitsOf (ps : list piece) : list hit :=
  match ps with
  | [] => []
  | Keep _ :: ps' => hitsOf ps'
  | Hit h :: ps' => h :: hitsOf ps'
  end.

(** The link rewrite has nothing for a match: the registry holds nothing
    truthy under the path of the link, and the link is no tag link under a
    renamed route. *)
Definition keptLink `{Host} (reg : gmap string string) (filePath : string)
    (h : hit) : bool :=
  let link := group_text 2 h in
  let fileLink := hd EmptyString (Str.split "#" link) in
  let relativeLink :=
    Path.relative cwd "."
      (if Str.startsWith fileLink "/" then Str.drop 1 fileLink
       else Path.resolve cwd [Path.dirname filePath; fileLink]) in
  negb (entryTruthy (registryGet reg relativeLink))
  && negb (underRenamedRoute reg link && Str.includes link "/tag/").

Definition linksSettled `{Host} (reg : gmap string string) (filePath content : string)
    : bool :=
  forallb (keptLink reg filePath) (hitsOf (pieces 3 linkRegex content)).

(** [transformSidebarItems(item.pages, filePath)], which the callback reads
    for an item with a truthy [pages]. *)
Definition childrenOf `{Host} (reg : gmap string string) (filePath : string)
    (item : value) : outcome value :=
  match item with
  | VObj fields =>
      match lookup "pages" fields with
      | Some pages => transformSidebarItems reg filePath pages
      | None => Raise (TypeError "items.map is not a function")
      end
  | _ => Raise (TypeError "items.map is not a function")
  end.

(** [items.map(callback)] on the elements of an array. *)
Fixpoint mapItems `{Host} (reg : gmap string string) (filePath : string)
    (items : list value) : outcome (list value) :=
  match items with
  | [] => Done []
  | item :: rest =>
      match transformSidebarItem reg filePath item (childrenOf reg filePath item) with
      | Done item' =>
          match mapItems reg filePath rest with
          | Done rest' => Done (item' :: rest')
          | Raise e => Raise e
          end
      | Raise e => Raise e
      end
  end.

(** The array loop and the object loop of [dequal]. *)
Fixpoint eachEqual (same : value -> value -> bool) (xs ys : list value) : bool :=
  match xs, ys with
  | x :: xs', y :: ys' => dequalOn same x y && eachEqual same xs' ys'
  | _, _ => true
  end.

Fixpoint eachField (same : value -> value -> bool) (gs fs : list (string * value))
    (count : nat) : bool :=
  match fs with
  | [] => length (keys gs) =? count
  | (k, v) :: fs' =>
      match lookup k gs with
      | None => false
      | Some w => if dequalOn same v w then eachField same gs fs' (S count) else false
      end
  end.

(** Induction on a value, through its items and its fields. *)
Definition value_induction (P : value -> Prop)
    (Hundef : P VUndefined) (Hnull : P VNull) (Hbool : forall b, P (VBool b))
    (Hnum : forall n, P (VNum n)) (Hstr : forall s, P (VStr s))
    (Harr : forall items, Forall P items -> P (VArr items))
    (Hobj : forall fields, Forall (fun kv => P (snd kv)) fields -> P (VObj fields))
    : forall v, P v :=
  fix go (v : value) : P v :=
    match v with
    | VUndefined => Hundef
    | VNull => Hnull
    | VBool b => Hbool b
    | VNum n => Hnum n
    | VStr s => Hstr s
    | VArr items =>
        Harr items
          ((fix each (l : list value) : Forall P l :=
              match l with
              | [] => @List.Forall_nil _ P
              | x :: l' => @List.Forall_cons _ P x l' (go x) (each l')
              end) items)
    | VObj fields =>
        Hobj fields
          ((fix each (l : list (string * value)) : Forall (fun kv => P (snd kv)) l :=
              match l with
              | [] => @List.Forall_nil _ _
              | kv :: l' => @List.Forall_cons _ _ kv l' (go (snd kv)) (each l')
              end) fields)
    end.

(** The files of [pre] in turn: [true] when the loop is still running
    behind the last of them. *)
Fixpoint migrateSidebarsPrefix `{Host} (pre : list string) : M bool :=
  match pre with
  | [] => ret true
  | filePath :: rest =>
      continue <- migrateSidebarsFile filePath;;
      if continue then migrateSidebarsPrefix rest else ret false
  end.


(** * The rest of the script *)

(** ** [getFsInfo] *)

(** An entry of a directory, as [fs.readdirSync(dir, { withFileTypes: true })]
    returns it: a directory with its own entries, or anything else. *)
Inductive dirent : Type :=
| FileEntry (name : string)
| DirEntry (name : string) (entries : list dirent).

(** The directories [readdirDeep] does not enter. *)
Definition skippedDirectory (name : string) : bool :=
  String.eqb name ".git" || String.eqb name "node_modules" || String.eqb name "public".

(** One turn of the loop of [readdirDeep(dir)]: the paths pushed for one
    entry, in the order of the pushes. *)
Fixpoint readEntry (dir : string) (entry : dirent) {struct entry} : list string :=
  match entry with
  | FileEntry name => [dir +:+ "/" +:+ name]
  | DirEntry name entries =>
      if skippedDirectory name then []
      else (fix each (l : list dirent) : list string :=
              match l with
              | [] => []
              | e :: l' => readEntry (dir +:+ "/" +:+ name) e ++ each l'
              end) entries
  end.

(** [readdirDeep(dir)] for a directory with these entries. *)
Definition readdirDeep (dir : string) (entries : list dirent) : list string :=
  flat_map (readEntry dir) entries.

(** [getFsInfo(contentDir).list(pattern)] *)
Definition getFsInfo (contentDir : string) (entries : list dirent) (pattern : regex)
    : list string :=
  listFiles pattern (readdirDeep contentDir entries).

(** ** [migrateConfig] *)

(** A step that may throw, then the next one. *)
Definition andThen {A B} (m : outcome A) (f : A -> outcome B) : outcome B :=
  match m with
  | Done a => f a
  | Raise e => Raise e
  end.

(** [xs ? xs.map(f) : undefined] *)
Definition mapIfTruthy (name : string) (f : value -> value) (xs : value) : outcome value :=
  if truthy xs then
    match xs with
    | VArr items => Done (VArr (map f items))
    | _ => Raise (TypeError (name +:+ ".map is not a function"))
    end
  else Done VUndefined.

(** Whether [i.search] is truthy; [None] is the [TypeError] of reading a
    property of [undefined] or [null].  A string has the method
    [String.prototype.search]. *)
Definition hasSearch (i : value) : option bool :=
  match i with
  | VUndefined | VNull => None
  | VStr _ => Some true
  | VObj fields => Some (truthy (default VUndefined (lookup "search" fields)))
  | _ => Some false
  end.

(** [items.filter(i => !i.search)] *)
Fixpoint withoutSearch (items : list value) : outcome (list value) :=
  match items with
  | [] => Done []
  | i :: rest =>
      match hasSearch i with
      | None => Raise (nullProperty "search")
      | Some found =>
          andThen (withoutSearch rest) (fun rest' =>
            Done (if found then rest' else i :: rest'))
      end
  end.

(** [items.some(i => i.search)]: the items behind the first hit are not read. *)
Fixpoint someSearch (items : list value) : outcome bool :=
  match items with
  | [] => Done false
  | i :: rest =>
      match hasSearch i with
      | None => Raise (nullProperty "search")
      | Some true => Done true
      | Some false => someSearch rest
      end
  end.

(** [migrateNavbar(siteConfig)] *)
Definition migrateNavbar (siteConfig : value) : outcome value :=
  match getOpt siteConfig "nav" with
  | VUndefined | VNull => Done (VObj [("items", VUndefined)])
  | VArr items =>
      andThen (withoutSearch items) (fun kept => Done (VObj [("items", VArr kept)]))
  | _ => Raise (TypeError "siteConfig.nav?.filter is not a function")
  end.

(** [migrateFooter(siteConfig)] *)
Definition migrateFooter (siteConfig : value) : value :=
  let footer := getOpt siteConfig "footer" in
  if negb (truthy footer) then VUndefined
  else VObj [ ("items", orElse (getOpt footer "columns") VUndefined);
              ("copyrightText", getOpt footer "copyrightText") ].

(** [siteConfig.nav?.some(i => i.search) ? undefined : { hide: true }] *)
Definition searchConfig (siteConfig : value) : outcome value :=
  match getOpt siteConfig "nav" with
  | VUndefined | VNull => Done (VObj [("hide", VBool true)])
  | VArr items =>
      andThen (someSearch items) (fun found =>
        Done (if found then VUndefined else VObj [("hide", VBool true)]))
  | _ => Raise (TypeError "siteConfig.nav?.some is not a function")
  end.

(** The number a key spells when it is a canonical decimal numeral. *)
Fixpoint numeral (acc : N) (k : string) : N :=
  match k with
  | EmptyString => acc
  | String c rest => numeral (acc * 10 + N.of_nat (code c - 48)) rest
  end.

(** An array index: a canonical numeral below 2^32 - 1.  JavaScript
    enumerates the properties with such keys first. *)
Definition isArrayIndex (k : string) : bool :=
  match k with
  | EmptyString => false
  | String c rest =>
      Str.all is_digit k && (negb (Ascii.eqb c "0") || Str.is_empty rest)
      && (String.length k <=? 10) && (numeral 0 k <=? 4294967294)%N
  end.

(** [{ link: '/', ...logo }] for the properties of [logo] in enumeration
    order: those under an array index stay first. *)
Definition withLink (fields : list (string * value)) : list (string * value) :=
  filter (fun kv => isArrayIndex (fst kv) = true) fields
  ++ fold_left (fun acc kv => assign (fst kv) (snd kv) acc)
       (filter (fun kv => isArrayIndex (fst kv) = false) fields)
       [("link", VStr "/")].

Definition logoConfig (siteConfig : value) : value :=
  let logo := getOpt siteConfig "logo" in
  if truthy logo then
    match logo with
    | VStr _ => VObj [("image", logo); ("link", VStr "/")]
    | _ => VObj (withLink (spread logo))
    end
  else VUndefined.

(** [tocDepth] *)
Definition tocDepth (siteConfig : value) : value :=
  orElse (orElse (getOpt (getOpt siteConfig "toc") "maxDepth")
                 (getOpt siteConfig "tocMaxDepth")) VUndefined.

(** [tocHide]: [!siteConfig.toc?.enable === false ? undefined : true] *)
Definition tocHide (siteConfig : value) : value :=
  if Bool.eqb (negb (truthy (getOpt (getOpt siteConfig "toc") "enable"))) false
  then VUndefined else VBool true.

(** The [markdown] entry of the configuration. *)
Definition markdownConfig (siteConfig : value) (partialFolders : list string) : value :=
  VObj [ ("partialsFolders",
          if 0 <? length partialFolders then VArr (map VStr partialFolders) else VUndefined);
         ("lastUpdatedBlock",
          if truthy (getOpt siteConfig "disableLastModified")
          then VObj [("hide", VBool true)] else VUndefined);
         ("editPage",
          if truthy (getOpt siteConfig "editPage")
          then VObj [("baseUrl", getOpt (getOpt siteConfig "editPage") "baseUrl")]
          else VUndefined);
         ("toc",
          if negb (strict_eq (tocDepth siteConfig) VUndefined) || truthy (tocHide siteConfig)
          then VObj [("depth", tocDepth siteConfig); ("hide", tocHide siteConfig)]
          else VUndefined) ].

(** The [reunite] entry. *)
Definition reuniteConfig (siteConfig : value) : value :=
  let severity := getOpt (getOpt siteConfig "linkChecker") "severity" in
  if negb (truthy severity) || strict_eq severity (VStr "warning")
  then VObj [("ignoreMarkdocErrors", VBool true); ("ignoreLinkChecker", VBool true)]
  else VUndefined.

(** The [scripts] entry. *)
Definition scriptsConfig (siteConfig : value) : outcome value :=
  let scripts := getOpt siteConfig "scripts" in
  let postBodyScripts := getOpt siteConfig "postBodyScripts" in
  if truthy (orElse scripts postBodyScripts) then
    andThen (mapIfTruthy "siteConfig.scripts" (fun s => VObj [("src", s)]) scripts)
      (fun head =>
    andThen (mapIfTruthy "siteConfig.postBodyScripts" (fun s => VObj [("src", s)])
               postBodyScripts)
      (fun body => Done (VObj [("head", head); ("body", body)])))
  else Done VUndefined.

(** The [navigation] entry. *)
Definition navigationConfig (siteConfig : value) : value :=
  if strict_eq (getOpt siteConfig "showNextButton") (VBool false)
     || strict_eq (getOpt siteConfig "showPrevButton") (VBool false)
  then VObj [ ("nextButton",
               VObj [("hide", VBool (negb (truthy (getOpt siteConfig "showNextButton"))))]);
              ("previousButton",
               VObj [("hide", VBool (negb (truthy (getOpt siteConfig "showPrevButton"))))]) ]
  else VUndefined.

(** The [codeSnippet] entry. *)
Definition codeSnippetConfig (siteConfig : value) : value :=
  let copyCodeSnippet := getOpt siteConfig "copyCodeSnippet" in
  if truthy copyCodeSnippet
  then VObj [("copy", VObj [("hide", VBool (negb (truthy (getOpt copyCodeSnippet "enable"))))])]
  else VUndefined.

(** The object [config] of [migrateConfig], for a [siteConfig] that is
    neither [null] nor [undefined]; [apis] is the module's [apis] object as
    JavaScript enumerates it.  The entries are evaluated in the order of the
    object literal. *)
Definition buildConfig (siteConfig apis : value) (ignore partialFolders : list string)
    : outcome value :=
  andThen (mapIfTruthy "siteConfig.stylesheets"
             (fun l => VObj [("rel", VStr "stylesheet"); ("href", l)])
             (getOpt siteConfig "stylesheets")) (fun links =>
  andThen (scriptsConfig siteConfig) (fun scripts =>
  andThen (migrateNavbar siteConfig) (fun navbar =>
  andThen (searchConfig siteConfig) (fun search =>
  Done (VObj [ ("requiresLogin", VBool true);
               ("reunite", reuniteConfig siteConfig);
               ("apis", apis);
               ("seo", orElse (getOpt siteConfig "seo") VUndefined);
               ("ignore", VArr (map VStr ignore));
               ("links", links);
               ("scripts", scripts);
               ("navbar", navbar);
               ("footer", migrateFooter siteConfig);
               ("search", search);
               ("analytics", getOpt siteConfig "analytics");
               ("codeSnippet", codeSnippetConfig siteConfig);
               ("markdown", markdownConfig siteConfig partialFolders);
               ("logo", logoConfig siteConfig);
               ("navigation", navigationConfig siteConfig) ]))))).

Definition apiCatalogNote : string :=
  "## API Catalog" +:+ Str.nl +:+ Str.nl
  +:+ "Please, migrate API catalog manually: https://redocly.com/docs/realm/get-started/migrate-from-legacy-portal#new-api-catalog-format"
  +:+ Str.nl +:+ Str.nl.

Definition redoclyHeader : string :=
  "# Project requires login by default. Remove the next line if you want it to be public."
  +:+ Str.nl.

Section Config.
Context `{Host}.

(** [migrateConfig()]; the map of the state does not keep the order in
    which the keys of [apis] were written, so the object is handed over as
    JavaScript enumerates it. *)
Definition migrateConfig (apisObject : value) : M unit :=
  content <- readFileSync "siteConfig.yaml";;
  siteConfig <- orThrow YAMLException (yaml_load content);;
  apiCatalog <- orThrow (nullProperty "apiCatalog") (get siteConfig "apiCatalog");;
  (if truthy apiCatalog
   then modify (set_migrationInstructions (fun log => log +:+ apiCatalogNote))
   else ret tt);;;
  st <- get_state;;
  config <- liftOutcome (fun _ =>
              buildConfig siteConfig apisObject (ignore st) (partialFolders st));;
  writeFileSync "redocly.yaml" (redoclyHeader +:+ yaml_dump config);;;
  unlinkSync "siteConfig.yaml".
End Config.

(** [migrateTheme()] *)
Definition themeNote : string :=
  Str.nl +:+ "## Theme" +:+ Str.nl +:+ Str.nl
  +:+ "Migrate theme settings manually: https://redocly.com/docs/realm/get-started/migrate-from-legacy-portal#migrate-theme"
  +:+ Str.nl +:+ Str.nl
  +:+ "Remove the `theme.ts` file after migration." +:+ Str.nl.

Definition migrateTheme : M unit :=
  modify (set_migrationInstructions (fun log => log +:+ themeNote)).

(** ** [migratePackageJson] *)

Definition PACKAGES : list string :=
  [ "@redocly/realm"; "@redocly/reef"; "@redocly/revel"; "@redocly/redoc";
    "@redocly/redoc-reef"; "@redocly/redoc-revel"; "@redocly/revel-reef" ].

(** The loop that asks for the product.  [answers] are the numbers
    [parseInt] reads from the lines typed, in order; [None] when none of them
    ends the loop. *)
Fixpoint pickChoice (answers : list number) : option Z :=
  match answers with
  | [] => None
  | NaN :: rest => pickChoice rest
  | Int choice :: rest =>
      if (choice <? 1)%Z || (Z.of_nat (length PACKAGES) <? choice)%Z
      then pickChoice rest
      else Some choice
  end.

(** [PACKAGES[choice - 1]] *)
Definition pickProduct (answers : list number) : option string :=
  match pickChoice answers with
  | Some choice => PACKAGES !! Z.to_nat (choice - 1)
  | None => None
  end.

(** [v.includes(s)] for a truthy [v]: the method of a string or of an
    array; [None] is the [TypeError] of a value without it. *)
Definition includesText (v : value) (s : string) : option bool :=
  match v with
  | VStr text => Some (Str.includes text s)
  | VArr items => Some (existsb (fun x => strict_eq x (VStr s)) items)
  | _ => None
  end.

Definition previewCommand : string := "npx @redocly/cli preview".

(** The rewrite of [scripts.start]. *)
Definition rewriteStart (scripts : list (string * value))
    : outcome (list (string * value)) :=
  let start := fieldOf scripts "start" in
  if truthy start then
    match includesText start "redocly-portal" with
    | None => Raise (TypeError "packageJson.scripts.start.includes is not a function")
    | Some true =>
        match start with
        | VStr text =>
            Done (assign "start"
                    (VStr (Str.replace "redocly-portal develop" previewCommand text)) scripts)
        | _ => Raise (TypeError "packageJson.scripts.start.replace is not a function")
        end
    | Some false => Done (assign "start" (VStr previewCommand) scripts)
    end
  else Done scripts.

(** [if (scripts[name] && scripts[name].includes('redocly-portal')) delete scripts[name]] *)
Definition dropLegacyScript (name : string) (scripts : list (string * value))
    : outcome (list (string * value)) :=
  let script := fieldOf scripts name in
  if truthy script then
    match includesText script "redocly-portal" with
    | None => Raise (TypeError ("packageJson.scripts." +:+ name +:+ ".includes is not a function"))
    | Some true => Done (remove name scripts)
    | Some false => Done scripts
    end
  else Done scripts.

(** The block under [if (packageJson.scripts)]; only an object has a
    [start], a [build] or a [clean]. *)
Definition rewriteScripts (scripts : value) : outcome value :=
  match scripts with
  | VObj fields =>
      andThen (rewriteStart fields) (fun fields =>
      andThen (dropLegacyScript "build" fields) (fun fields =>
      andThen (dropLegacyScript "clean" fields) (fun fields =>
      Done (VObj fields))))
  | _ => Done scripts
  end.

(** How [migratePackageJson] ends: [process.exit(1)], the object it writes,
    or an exception. *)
Inductive packageOutcome : Type :=
| Exited
| Written (packageJson : value)
| Failed (e : error).

Definition legacyPortal : string := "@redocly/developer-portal".

(** [migratePackageJson] from the parsed [package.json] to the object
    written: [product] is the package picked, [version] what [npm show]
    answered, [hasIndexMdx] is [fs.existsSync('index.mdx')]. *)
Definition rewritePackageJson (packageJson : value) (product version : string)
    (hasIndexMdx : bool) : packageOutcome :=
  match packageJson with
  | VUndefined | VNull => Failed (nullProperty "dependencies")
  | VObj fields =>
      match fieldOf fields "dependencies" with
      | VObj dependencies =>
          if negb (truthy (fieldOf dependencies legacyPortal)) then Exited else
          let dependencies :=
            assign product (VStr version) (remove legacyPortal dependencies) in
          match (if truthy (fieldOf fields "scripts")
                 then rewriteScripts (fieldOf fields "scripts")
                 else Done (fieldOf fields "scripts")) with
          | Raise e => Failed e
          | Done scripts =>
              let fields :=
                if truthy (fieldOf fields "scripts")
                then assign "scripts" scripts fields else fields in
              let dependencies :=
                if hasIndexMdx
                then assign "@redocly/portal-legacy-ui" (VStr "^0.1.0") dependencies
                else dependencies in
              let fields := assign "dependencies" (VObj dependencies) fields in
              Written (VObj (if length dependencies =? 1
                             then remove "resolutions" (remove "overrides" fields)
                             else fields))
          end
      | _ => Exited
      end
  | _ => Exited
  end.

(** ** Words for the further properties *)

(** [[a-z0-9-]] *)
Definition is_slug_char (c : ascii) : bool :=
  is_lower c || is_digit c || Ascii.eqb c "-".

(** A file [name] lies below [entries] through the directories [dirs], none
    of which is skipped. *)
Inductive located : list dirent -> list string -> string -> Prop :=
| located_here entries name :
    In (FileEntry name) entries -> located entries [] name
| located_below entries d children dirs name :
    In (DirEntry d children) entries -> skippedDirectory d = false ->
    located children dirs name -> located entries (d :: dirs) name.

(** The path of [name] below [dir] through [dirs]. *)
Definition pathBelow (dir : string) (dirs : list string) (name : string) : string :=
  fold_left (fun acc d => acc +:+ "/" +:+ d) dirs dir +:+ "/" +:+ name.

(** A node the sidebar migration has nothing to do with: no truthy [pages],
    and no [page], or a [page] that is no wildcard, names no page collection
    and resolves to no entry of the registry. *)
Definition plainNode `{Host} (reg : gmap string string) (filePath : string)
    (node : value) : Prop :=
  match node with
  | VObj fields =>
      Spec.noPages fields /\
      match lookup "page" fields with
      | None | Some VUndefined | Some VNull => True
      | Some (VStr page) =>
          Str.endsWith page "/*" = false /\ Str.endsWith page ".page.yaml" = false /\
          (Str.is_empty page = false ->
           registryGet reg (registryKey filePath page) = Missing)
      | Some _ => False
      end
  | VUndefined | VNull => False
  | _ => True
  end.

(** A sequence, or a value that is not truthy. *)
Definition sequenceOrFalsy (v : value) : Prop :=
  truthy v = false \/ exists items, v = VArr items.

(** Every run of [m] that returns relates the state before to the state after. *)
Definition keepsTo (R : state -> state -> Prop) {A} (m : M A) : Prop :=
  forall st a st', m st = Ok a st' -> R st st'.

(** The accumulators only grow. *)
Definition grows (st st' : state) : Prop :=
  (exists more, ignore st' = ignore st ++ more) /\
  (forall x, In x (partialFolders st) -> In x (partialFolders st')) /\
  (forall k, is_Some (renamedFiles st !! k) -> is_Some (renamedFiles st' !! k)) /\
  (exists more, migrationInstructions st' = migrationInstructions st +:+ more).

(** Nothing but the paths to ignore, the partial folders and the
    permissions changes. *)
Definition sameButNotes (st st' : state) : Prop :=
  renamedFiles st' = renamedFiles st /\ apis st' = apis st /\
  migrationInstructions st' = migrationInstructions st /\
  addedRegistryRecord st' = addedRegistryRecord st /\
  files st' = files st.

(** The same, on a disk that holds the same paths. *)
Definition sameButNotesAndTexts (st st' : state) : Prop :=
  renamedFiles st' = renamedFiles st /\ apis st' = apis st /\
  migrationInstructions st' = migrationInstructions st /\
  addedRegistryRecord st' = addedRegistryRecord st /\
  (forall k, is_Some (files st' !! k) <-> is_Some (files st !! k)).

(** Nothing but the disk changes, and no path leaves it. *)
Definition sameButDisk (st st' : state) : Prop :=
  renamedFiles st' = renamedFiles st /\ fileRbacPermissions st' = fileRbacPermissions st /\
  ignore st' = ignore st /\ partialFolders st' = partialFolders st /\
  apis st' = apis st /\ migrationInstructions st' = migrationInstructions st /\
  addedRegistryRecord st' = addedRegistryRecord st /\
  (forall k, is_Some (files st !! k) -> is_Some (files st' !! k)).

(** ** Examples for the further properties *)

Module Sample.
(** A project directory: the walk skips [.git] and the [public] directory
    below [docs], and lists the file named [public]. *)
Definition tree : list dirent :=
  [ FileEntry "package.json";
    DirEntry ".git" [FileEntry "config"];
    DirEntry "docs"
      [ FileEntry "intro.md";
        DirEntry "public" [FileEntry "logo.md"];
        FileEntry "guide.mdx" ];
    FileEntry "public" ].

(** A legacy group with one page below it. *)
Definition legacyGroup : list (string * value) :=
  [("group", VStr "API"); ("pages", VArr [VObj [("page", VStr "a.md")]])].

(** A sidebar file that holds one legacy group. *)
Definition groupsHost : Host :=
  Fixture.hostWith [("groups", VArr [VObj legacyGroup])].

Definition groupsState : state :=
  initial {[ "docs/sidebars.yaml" := "groups" ]}.

(** A sidebar file that holds two trees. *)
Definition trees : list (string * value) :=
  [("main", VArr [VObj legacyGroup]); ("API Docs", VArr [VObj legacyGroup])].

Definition treesHost : Host := Fixture.hostWith [("trees", VObj trees)].

Definition treesState : state :=
  initial {[ "docs/sidebars.yaml" := "trees" ]}.

(** A sidebar file of plain pages. *)
Definition plainState : state :=
  initial {[ "docs/sidebars.yaml" := Fixture.doc ["- page: intro.md"; "- page: guide.md"] ]}.

(** A Markdown document with a permission, and an MDX document. *)
Definition notesState : state :=
  initial {[ "notes.md" := Fixture.doc ["---"; "permission: admin"; "---"; "# Notes"] ]}.

Definition guide : string := Fixture.doc ["# Guide"; "Text"].

Definition guideState : state := initial {[ "docs/guide.mdx" := guide ]}.

(** A site configuration with a search entry in its navigation bar. *)
Definition siteConfig : value :=
  VObj [ ("nav", VArr [ VObj [("label", VStr "Docs"); ("page", VStr "index.md")];
                        VObj [("search", VBool true)] ]);
         ("stylesheets", VArr [VStr "main.css"]) ].

(** A package that depends on the legacy portal. *)
Definition packageJson : list (string * value) :=
  [ ("name", VStr "portal");
    ("dependencies",
     VObj [("@redocly/developer-portal", VStr "1.0.0"); ("react", VStr "17.0.0")]);
    ("scripts",
     VObj [ ("start", VStr "redocly-portal develop");
            ("build", VStr "redocly-portal build");
            ("test", VStr "jest") ]) ].
End Sample.

(** ** Views of the definitions, for the further proofs *)

(** The run of a class a text starts with. *)
Fixpoint takeWhile (f : ascii -> bool) (s : string) : string :=
  match s with
  | String c s' => if f c then String c (takeWhile f s') else EmptyString
  | EmptyString => EmptyString
  end.

(** Every run of characters outside [a-z0-9] written as one dash. *)
Fixpoint squeeze (inRun : bool) (s : string) : string :=
  match s with
  | EmptyString => EmptyString
  | String a s' =>
      if is_not_slug a
      then (if inRun then squeeze true s' else String "-" (squeeze true s'))
      else String a (squeeze false s')
  end.

(** The text without a dash that is its last character. *)
Fixpoint dropLastDash (s : string) : string :=
  match s with
  | EmptyString => EmptyString
  | String a s' =>
      if Ascii.eqb a "-" && Str.is_empty s' then EmptyString
      else String a (dropLastDash s')
  end.

(** The text without a dash at its start and without one at its end. *)
Definition trimDash (s : string) : string :=
  match s with
  | String a s' => if Ascii.eqb a "-" then dropLastDash s' else dropLastDash s
  | EmptyString => EmptyString
  end.





(** The text a global replace writes for the pieces of a scan. *)
Definition written (f : hit -> string) (ps : list piece) : string :=
  foldr (fun pc acc =>
           match pc with
           | Keep c => String c acc
           | Hit h => f h +:+ acc
           end) EmptyString ps.

(** The frontmatter mapping as [processFrontMatter] leaves it. *)
Definition rewrittenFields (fields : list (string * value)) : list (string * value) :=
  let fields1 :=
    if truthy (fieldOf fields "permission") then remove "permission" fields else fields in
  match fieldOf fields "redirectFrom" with
  | VArr urls => remove "redirectFrom" (assign "redirects" (redirectsOf urls) fields1)
  | _ => fields1
  end.

Definition recordedPermission (fields : list (string * value)) (filePath : string)
    (st : state) : state :=
  if truthy (fieldOf fields "permission")
  then set_fileRbacPermissions (insert filePath (fieldOf fields "permission")) st
  else st.

(** Induction on a directory entry, through its entries. *)
Definition dirent_induction (P : dirent -> Prop)
    (Hfile : forall name, P (FileEntry name))
    (Hdir : forall name entries, Forall P entries -> P (DirEntry name entries))
    : forall e, P e :=
  fix go (e : dirent) : P e :=
    match e with
    | FileEntry name => Hfile name
    | DirEntry name entries =>
        Hdir name entries
          ((fix each (l : list dirent) : Forall P l :=
              match l with
              | [] => @List.Forall_nil _ P
              | x :: l' => @List.Forall_cons _ P x l' (go x) (each l')
              end) entries)
    end.


(** * Properties *)

(** ** Strings *)

Section StringFacts.
Lemma append_nil_r (s : string) : s +:+ EmptyString = s.
Proof. induction s as [|a s IH]; simpl; [reflexivity|now rewrite IH]. Qed.

Lemma append_assoc (a b c : string) : (a +:+ b) +:+ c = a +:+ (b +:+ c).
Proof. induction a as [|x a IH]; simpl; [reflexivity|now rewrite IH]. Qed.

Lemma length_append (a b : string) :
  String.length (a +:+ b) = String.length a + String.length b.
Proof. induction a as [|x a IH]; simpl; [reflexivity|now rewrite IH]. Qed.

Lemma take_length_app (w s : string) : Str.take (String.length w) (w +:+ s) = w.
Proof. induction w as [|x w IH]; simpl; [now destruct s|now rewrite IH]. Qed.

Lemma drop_length_app (w s : string) : Str.drop (String.length w) (w +:+ s) = s.
Proof. induction w as [|x w IH]; simpl; [now destruct s|exact IH]. Qed.

Lemma take_drop (n : nat) (s : string) : Str.take n s +:+ Str.drop n s = s.
Proof.
  revert s; induction n as [|n IH]; intros [|a s]; simpl; try reflexivity.
  now rewrite IH.
Qed.

Lemma length_take (n : nat) (s : string) :
  String.length (Str.take n s) = Nat.min n (String.length s).
Proof.
  revert s; induction n as [|n IH]; intros [|a s]; simpl; try reflexivity.
  now rewrite IH.
Qed.

Lemma consumed_app (w s : string) : consumed (w +:+ s) s = w.
Proof.
  unfold consumed. rewrite length_append.
  replace (String.length w + String.length s - String.length s)
    with (String.length w) by lia.
  apply take_length_app.
Qed.

Lemma consumed_cons (a : ascii) (w s : string) :
  consumed (String a (w +:+ s)) s = String a w.
Proof. exact (consumed_app (String a w) s). Qed.

Lemma startsWith_app (p s : string) : Str.startsWith (p +:+ s) p = true.
Proof.
  unfold Str.startsWith. induction p as [|a p IH]; simpl.
  - now destruct s.
  - destruct (ascii_dec a a); [exact IH|congruence].
Qed.

Lemma includes_cons (a : ascii) (s p : string) :
  Str.includes (String a s) p = false -> Str.includes s p = false.
Proof. simpl. intros E. now apply orb_false_elim in E. Qed.

Lemma includes_head (s p : string) :
  Str.includes s p = false -> Str.startsWith s p = false.
Proof. destruct s; simpl; intros E; now apply orb_false_elim in E. Qed.

(** A text without the pattern is left alone by [replace]. *)
Lemma replace_absent (p r s : string) :
  Str.includes s p = false -> Str.replace p r s = s.
Proof.
  induction s as [|a s IH]; intros E.
  - simpl in *. rewrite orb_false_r in E. now rewrite E.
  - pose proof (includes_head _ _ E) as E1. apply includes_cons in E.
    cbn [Str.replace]. rewrite E1. now rewrite IH.
Qed.
End StringFacts.

(** ** The matcher *)

Section MatcherFacts.
Context {R : Type}.
Implicit Types (k : @cont R) (p : option ascii) (c : captures).

Lemma run_lit p (L s : string) c k :
  run (lit L) p (L +:+ s) c k = k (after p L) s c.
Proof.
  revert p. induction L as [|a L IH]; intros p; simpl; [reflexivity|].
  rewrite Ascii.eqb_refl. apply IH.
Qed.

Lemma run_lit_fail p (L s : string) c k :
  Str.startsWith s L = false -> run (lit L) p s c k = None.
Proof.
  unfold Str.startsWith. revert p s.
  induction L as [|a L IH]; intros p [|b s]; simpl; try discriminate; try reflexivity.
  destruct (ascii_dec a b) as [->|Hne].
  - rewrite Ascii.eqb_refl. apply IH.
  - intros _. destruct (Ascii.eqb_spec b a); [congruence|reflexivity].
Qed.

Lemma star_loop_S body (g : bool) k n p s c :
  star_loop body g k (S n) p s c =
    let again :=
      body p s c (fun p' s' c' =>
        if String.length s' <? String.length s
        then star_loop body g k n p' s' c' else None) in
    if g
    then match again with Some x => Some x | None => k p s c end
    else match k p s c with Some x => Some x | None => again end.
Proof. reflexivity. Qed.

Lemma run_class_cons (f : ascii -> bool) p (b : ascii) s c k :
  run (Cls f) p (String b s) c k = if f b then k (Some b) s c else None.
Proof. reflexivity. Qed.

Lemma shorter (a : ascii) (s : string) :
  (String.length s <? String.length (String a s)) = true.
Proof. apply Nat.ltb_lt. simpl. lia. Qed.

(** A greedy star over a class reads the whole run of the class first. *)
Lemma star_greedy_class (f : ascii -> bool) k (w s : string) p c n x :
  Str.all f w = true -> stops f s = true -> String.length w <= n ->
  k (after p w) s c = Some x ->
  star_loop (run (Cls f)) true k n p (w +:+ s) c = Some x.
Proof.
  revert n p. induction w as [|a w IH]; intros n p Hall Hstop Hn Hk.
  - destruct n as [|n]; simpl; [exact Hk|].
    destruct s as [|b s]; simpl; [exact Hk|].
    simpl in Hstop. apply negb_true_iff in Hstop. now rewrite Hstop.
  - destruct n as [|n]; [simpl in Hn; lia|].
    simpl in Hall. apply andb_true_iff in Hall as [Ha Hall].
    cbn [String.append]. rewrite star_loop_S, run_class_cons, Ha, shorter.
    cbv zeta. rewrite (IH n (Some a)); auto. simpl in Hn; lia.
Qed.

(** A lazy star over a class stops at the first position where the rest
    of the pattern matches. *)
Lemma star_lazy_class (f g : ascii -> bool) k (w s : string) p c n x :
  Str.all f w = true -> Str.all g w = true -> String.length w <= n ->
  (forall a p' t, g a = true -> k p' (String a t) c = None) ->
  k (after p w) s c = Some x ->
  star_loop (run (Cls f)) false k n p (w +:+ s) c = Some x.
Proof.
  revert n p. induction w as [|a w IH]; intros n p Hall Hg Hn Hfail Hk.
  - destruct n as [|n]; simpl; [exact Hk|]. simpl in Hk. now rewrite Hk.
  - destruct n as [|n]; [simpl in Hn; lia|].
    simpl in Hall, Hg.
    apply andb_true_iff in Hall as [Ha Hall].
    apply andb_true_iff in Hg as [Hga Hg].
    cbn [String.append]. rewrite star_loop_S, run_class_cons, Ha, shorter.
    cbv zeta. rewrite (Hfail a p (w +:+ s) Hga).
    apply IH; auto. simpl in Hn; lia.
Qed.

Lemma run_plus_class (f : ascii -> bool) k (a : ascii) (w s : string) p c x :
  Str.all f (String a w) = true -> stops f s = true ->
  k (after p (String a w)) s c = Some x ->
  run (plus (Cls f)) p (String a w +:+ s) c k = Some x.
Proof.
  intros Hall Hstop Hk. simpl in Hall. apply andb_true_iff in Hall as [Ha Hall].
  unfold plus. cbn [String.append]. change (run (Seq ?r1 ?r2) ?p ?s ?c ?k)
    with (run r1 p s c (fun p' s' c' => run r2 p' s' c' k)).
  rewrite run_class_cons, Ha.
  change (run (Star true (Cls f)) (Some a) (w +:+ s) c k)
    with (star_loop (run (Cls f)) true k (String.length (w +:+ s)) (Some a) (w +:+ s) c).
  apply star_greedy_class; auto. rewrite length_append. lia.
Qed.


End MatcherFacts.

(** ** The scan of a global replace *)

Section ScanFacts.
Lemma unkeep (f : hit -> string) (s : string) :
  foldr (fun pc acc => match pc with Keep c => String c acc | Hit h => f h +:+ acc end)
    EmptyString (keeps s) = s.
Proof. induction s as [|a s IH]; simpl; [reflexivity|]. unfold keeps in IH. now rewrite IH. Qed.

Lemma replaceM_keeps (f : hit -> M string) (s : string) (st : state) :
  replaceM f (keeps s) st = Ok s st.
Proof.
  induction s as [|a s IH]; simpl; [reflexivity|].
  unfold bind. unfold keeps in IH. now rewrite IH.
Qed.

(** Nothing matches where the literal the pattern starts with is absent. *)
Lemma scan_without_literal (n : nat) (L : string) (r : regex) (s : string) p :
  Str.includes s L = false ->
  scan n (Seq (lit L) r) p s 0 = keeps s.
Proof.
  revert p. induction s as [|a s IH]; intros p E.
  - cbn [scan]. unfold match_at. cbn [run].
    rewrite run_lit_fail; [reflexivity|]. now apply includes_head.
  - cbn [scan]. unfold match_at. cbn [run].
    rewrite run_lit_fail by now apply includes_head.
    unfold keeps. simpl. f_equal. apply IH. now apply includes_cons in E.
Qed.

(** After a match, the scan passes over the matched text. *)
Lemma scan_skip (n : nat) (r : regex) (w s : string) p :
  scan n r p (w +:+ s) (String.length w) = scan n r (after p w) s 0.
Proof.
  revert p. induction w as [|a w IH]; intros p; simpl; [reflexivity|apply IH].
Qed.
End ScanFacts.

(** ** Texts the rewrites leave alone *)

Section Untouched.
Context `{Host}.

Lemma rewriteAdmonitions_without_marker (s : string) :
  Str.includes s ":::" = false -> rewriteAdmonitions s = s.
Proof.
  intros E. unfold rewriteAdmonitions, replace_with, pieces.
  change admonitionRegex with (Seq (lit ":::") (cat
    [ Grp 0 (plus (Cls is_word));
      Alt (cat [plus (Chr " "); Grp 1 (lazy_plus (Cls is_dot)); Chr LF])
          (cat [Star true (Cls is_space); Chr LF]);
      Grp 2 (lazy_plus (Cls is_any));
      Grp 3 (Alt (lit ":::") Eol) ])).
  rewrite scan_without_literal by exact E. apply unkeep.
Qed.

Lemma rewriteCodeFences_without_fence (s : string) :
  Str.includes s "```" = false -> rewriteCodeFences s = s.
Proof.
  intros E. unfold rewriteCodeFences, replace_with, pieces.
  change codeFenceRegex with (Seq (lit "```") (cat
    [ opt (Grp 0 (plus (Cls is_word)));
      plus (Cls is_space);
      Grp 1 (plus (Cls is_dot));
      Chr LF;
      Grp 2 (lazy_plus (Cls is_any));
      lit "```" ])).
  rewrite scan_without_literal by exact E. apply unkeep.
Qed.

Lemma rewriteEmbeds_without_tag (filePath s : string) (st : state) :
  Str.includes s "<embed" = false -> rewriteEmbeds filePath s st = Ok s st.
Proof.
  intros E. unfold rewriteEmbeds, pieces.
  change embedRegex with (Seq (lit "<embed") (cat
    [ plus (Cls is_space); lit "src="; Chr DQ;
      Grp 0 (Star false (Cls is_dot)); Chr DQ;
      plus (Cls is_space); lit "/>" ])).
  rewrite scan_without_literal by exact E. apply replaceM_keeps.
Qed.

Lemma scan_links_without_bracket (s : string) p :
  Str.mem "[" s = false -> scan 3 linkRegex p s 0 = keeps s.
Proof.
  revert p. induction s as [|a s IH]; intros p E; [reflexivity|].
  simpl in E. apply orb_false_elim in E as [Ea E].
  cbn [scan]. unfold match_at, linkRegex. cbn [cat foldr run]. rewrite Ea.
  unfold keeps. simpl. f_equal. now apply IH.
Qed.

Lemma rewriteLinks_without_bracket (filePath s : string) (st : state) :
  Str.mem "[" s = false -> rewriteLinks filePath s st = Ok s st.
Proof.
  intros E. unfold rewriteLinks, pieces.
  rewrite scan_links_without_bracket by exact E. apply replaceM_keeps.
Qed.

(** The frontmatter pattern is anchored: it matches at the start or not
    at all. *)
Lemma exec_frontMatter_inside (a : ascii) (s : string) :
  exec_from 1 frontMatterRegex (Some a) s = None.
Proof.
  revert a. induction s as [|b s IH]; intros a; cbn [exec_from]; unfold match_at.
  - reflexivity.
  - unfold frontMatterRegex at 1. cbn [cat foldr run]. now rewrite IH.
Qed.

Lemma exec_frontMatter_without_marker (s : string) :
  Str.startsWith s "---" = false -> exec 1 frontMatterRegex s = None.
Proof.
  intros E. unfold exec. destruct s as [|a s]; [reflexivity|].
  cbn [exec_from]. rewrite exec_frontMatter_inside.
  unfold match_at.
  change frontMatterRegex with (Seq Bol (Seq (lit "---") (cat
    [ opt (Chr CR); Chr LF;
      Grp 0 (lazy_plus (Cls is_any));
      opt (Chr CR); Chr LF; lit "---";
      plus (cat [opt (Chr CR); Chr LF]) ]))).
  change (run (Seq Bol ?r) None ?s ?c ?k) with (run r None s c k).
  change (run (Seq (lit ?L) ?r) ?p ?s ?c ?k)
    with (run (lit L) p s c (fun p' s' c' => run r p' s' c' k)).
  now rewrite run_lit_fail.
Qed.

Lemma migrateContent_untouched (filePath content : string) (st : state) :
  Str.includes content ":::" = false ->
  Str.includes content "<embed" = false ->
  Str.includes content "```" = false ->
  Str.startsWith content "---" = false ->
  Str.mem "[" content = false ->
  migrateContent filePath content st = Ok content st.
Proof.
  intros Ha He Hc Hf Hl.
  unfold migrateContent, transformMarkup, bind.
  rewrite rewriteAdmonitions_without_marker by exact Ha.
  rewrite rewriteEmbeds_without_tag by exact He.
  unfold ret. rewrite rewriteCodeFences_without_fence by exact Hc.
  unfold processFrontMatter. rewrite exec_frontMatter_without_marker by exact Hf.
  unfold ret, spliceFrontMatter. cbn [changed].
  now apply rewriteLinks_without_bracket.
Qed.
End Untouched.

(** ** Objects *)

Section ObjectFacts.
Implicit Types (fs : list (string * value)) (k : string) (v : value).

Lemma lookup_remove_eq k fs : lookup k (remove k fs) = None.
Proof.
  unfold remove. induction fs as [|[k' v'] fs IH]; [reflexivity|].
  rewrite filter_cons. simpl. case_decide as E; [|exact IH].
  simpl. apply negb_true_iff in E. now rewrite E.
Qed.

Lemma lookup_remove_ne k k' fs : k <> k' -> lookup k' (remove k fs) = lookup k' fs.
Proof.
  intros Hne. unfold remove. induction fs as [|[k0 v0] fs IH]; [reflexivity|].
  rewrite filter_cons. simpl. case_decide as E; simpl.
  - now rewrite IH.
  - apply not_true_is_false, negb_false_iff, String.eqb_eq in E. subst k0.
    destruct (String.eqb_spec k k'); [congruence|exact IH].
Qed.

Lemma lookup_assign_eq k v fs : lookup k (assign k v fs) = Some v.
Proof.
  induction fs as [|[k0 v0] fs IH]; simpl.
  - now rewrite String.eqb_refl.
  - destruct (String.eqb_spec k0 k) as [->|Hne]; simpl.
    + now rewrite String.eqb_refl.
    + destruct (String.eqb_spec k0 k); [congruence|exact IH].
Qed.

Lemma lookup_assign_ne k k' v fs : k <> k' -> lookup k' (assign k v fs) = lookup k' fs.
Proof.
  intros Hne. induction fs as [|[k0 v0] fs IH]; simpl.
  - destruct (String.eqb_spec k k'); [congruence|reflexivity].
  - destruct (String.eqb_spec k0 k) as [->|Hne0]; simpl.
    + destruct (String.eqb_spec k k'); [congruence|reflexivity].
    + now rewrite IH.
Qed.
End ObjectFacts.

(** ** The frontmatter rewrite *)

Section FrontMatterFacts.
Context `{Host}.


End FrontMatterFacts.

(** ** What a match returns *)

Section MatchFacts.
(** A result of the matcher is a result of its continuation. *)
Lemma star_loop_calls {R} (body : option ascii -> string -> captures -> @cont R -> option R)
    (g : bool) (k : cont) :
  (forall p s c k' x, body p s c k' = Some x -> exists p' s' c', k' p' s' c' = Some x) ->
  forall n p s c x, star_loop body g k n p s c = Some x ->
  exists p' s' c', k p' s' c' = Some x.
Proof.
  intros Hbody. induction n as [|n IH]; intros p s c x E.
  - simpl in E. eauto.
  - rewrite star_loop_S in E. cbv zeta in E.
    destruct g.
    + destruct (body p s c _) eqn:Eb.
      * injection E as ->. apply Hbody in Eb as (p' & s' & c' & Eb).
        destruct (String.length s' <? String.length s); [eauto|discriminate].
      * eauto.
    + destruct (k p s c) eqn:Ek.
      * injection E as ->. eauto.
      * apply Hbody in E as (p' & s' & c' & Eb).
        destruct (String.length s' <? String.length s); [eauto|discriminate].
Qed.

Lemma run_calls {R} (r : regex) :
  forall p s c (k : @cont R) x, run r p s c k = Some x ->
  exists p' s' c', k p' s' c' = Some x.
Proof.
  induction r as [|a|f|r1 IH1 r2 IH2|r1 IH1 r2 IH2|g r IH|i r IH| | |];
    intros p s c k x E; cbn [run] in E.
  - eauto.
  - destruct s as [|b s]; [discriminate|]. destruct (Ascii.eqb b a); [eauto|discriminate].
  - destruct s as [|b s]; [discriminate|]. destruct (f b); [eauto|discriminate].
  - apply IH1 in E as (p' & s' & c' & E). now apply IH2 in E.
  - destruct (run r1 p s c k) eqn:E1.
    + injection E as ->. now apply IH1 in E1.
    + now apply IH2 in E.
  - now apply (star_loop_calls (run r) g k IH) in E.
  - apply IH in E as (p' & s' & c' & E). eauto.
  - destruct p; [discriminate|eauto].
  - destruct (is_line_end p); [eauto|discriminate].
  - destruct (Str.is_empty s); [eauto|discriminate].
Qed.

(** The matched text is a prefix of the input. *)
Lemma match_at_prefix (n : nat) (r : regex) p (s : string) (h : hit) :
  match_at n r p s = Some h -> exists m, whole h = Str.take m s.
Proof.
  unfold match_at. intros E. apply run_calls in E as (p' & s' & c' & E).
  injection E as <-. unfold consumed. cbn [whole]. eauto.
Qed.

Lemma take_drop_length (m : nat) (s : string) :
  Str.take m s +:+ Str.drop (String.length (Str.take m s)) s = s.
Proof.
  revert s. induction m as [|m IH]; intros [|a s]; simpl; try reflexivity.
  now rewrite IH.
Qed.

(** The frontmatter block is found at the start of the text, and the
    text is the block followed by what [slice] keeps. *)
Lemma exec_frontMatter_start (s pre : string) (h : hit) :
  exec 1 frontMatterRegex s = Some (pre, h) ->
  pre = EmptyString /\ s = whole h +:+ Str.drop (String.length (whole h)) s.
Proof.
  unfold exec. destruct s as [|a s]; cbn [exec_from].
  - destruct (match_at 1 frontMatterRegex None EmptyString) eqn:E; [|discriminate].
    intros [= <- <-]. split; [reflexivity|].
    apply match_at_prefix in E as [m ->]. now rewrite take_drop_length.
  - destruct (match_at 1 frontMatterRegex None (String a s)) eqn:E.
    + intros [= <- <-]. split; [reflexivity|].
      apply match_at_prefix in E as [m ->]. now rewrite take_drop_length.
    + now rewrite exec_frontMatter_inside.
Qed.
End MatchFacts.

(** ** The frontmatter processor and the splice *)

Section FrontMatterTheorems.
Context `{Host}.



Lemma processFrontMatter_changed content filePath st r st' :
  processFrontMatter content filePath st = Ok r st' ->
  changed r = true ->
  exists h,
    exec 1 frontMatterRegex content = Some (EmptyString, h) /\
    len r = Some (String.length (whole h)) /\
    content = whole h +:+ Str.drop (String.length (whole h)) content.
Proof.
  unfold processFrontMatter.
  destruct (exec 1 frontMatterRegex content) as [[pre h]|] eqn:Hexec.
  - destruct (exec_frontMatter_start _ _ _ Hexec) as [-> Hsplit].
    unfold bind, orThrow, ret.
    destruct (yaml_load _) as [fm|]; [|discriminate].
    destruct (rewriteFrontMatter fm filePath st) as [[fm' c] st1|]; [|discriminate].
    intros [= <- <-] _. exists h. cbn [len]. auto.
  - unfold ret. intros [= <- <-]. discriminate.
Qed.

(** C7.  When the frontmatter processor reports a change and returns a
    mapping without keys, the text handed on is the text behind the matched
    frontmatter block, with no delimiter lines put in its place: the
    migrated document is the link rewriter's output on that body, and the
    body itself when it holds no link.  A mapping whose only key is a truthy
    [permission] is such a case: the rewrite returns the empty mapping,
    reports the change and records the permission under the path. *)
Theorem empty_frontmatter_is_dropped filePath content st newContent st1 r st2 :
  transformMarkup filePath content st = Ok newContent st1 ->
  processFrontMatter newContent filePath st1 = Ok r st2 ->
  changed r = true ->
  frontmatterKeyCount (frontmatter r) = 0 ->
  (exists block body,
     exec 1 frontMatterRegex newContent = Some (EmptyString, block) /\
     newContent = whole block +:+ body /\
     migrateContent filePath content st = rewriteLinks filePath body st2 /\
     (Str.mem "[" body = false ->
      migrateContent filePath content st = Ok body st2))
  /\ (forall v st0, truthy v = true ->
        rewriteFrontMatter (VObj [("permission", v)]) filePath st0
          = Ok (VObj [], true)
               (set_fileRbacPermissions (insert filePath v) st0)).
Proof.
  intros Hmark Hfm Hch Hkeys. split.
  - destruct (processFrontMatter_changed _ _ _ _ _ Hfm Hch) as (h & Hexec & Hlen & Hsplit).
    exists h, (Str.drop (String.length (whole h)) newContent).
    split; [exact Hexec|]. split; [exact Hsplit|].
    assert (Hmig : migrateContent filePath content st
                   = rewriteLinks filePath
                       (Str.drop (String.length (whole h)) newContent) st2).
    { unfold migrateContent, bind. rewrite Hmark, Hfm.
      unfold spliceFrontMatter, sliceFrom. now rewrite Hch, Hkeys, Hlen. }
    split; [exact Hmig|].
    intros Hno. rewrite Hmig. now apply rewriteLinks_without_bracket.
  - intros v st0 Hv.
    unfold rewriteFrontMatter, bind, orThrow, ret, modify.
    change (get (VObj [("permission", v)]) "permission") with (Some v).
    cbv beta iota. rewrite Hv. reflexivity.
Qed.
End FrontMatterTheorems.



Lemma empty_frontmatter_is_dropped_witness :
  (exists block body,
     exec 1 frontMatterRegex
       (Fixture.doc ["---"; "permission: admin"; "---"; ""; "# Title"; "Body"])
       = Some (EmptyString, block) /\
     Fixture.doc ["---"; "permission: admin"; "---"; ""; "# Title"; "Body"]
       = whole block +:+ body /\
     migrateContent (H := Fixture.host) "./notes.md"
       (Fixture.doc ["---"; "permission: admin"; "---"; ""; "# Title"; "Body"])
       (initial ∅)
       = rewriteLinks (H := Fixture.host) "./notes.md" body
           (set_fileRbacPermissions (insert "./notes.md" (VStr "admin")) (initial ∅)) /\
     (Str.mem "[" body = false ->
      migrateContent (H := Fixture.host) "./notes.md"
        (Fixture.doc ["---"; "permission: admin"; "---"; ""; "# Title"; "Body"])
        (initial ∅)
        = Ok body (set_fileRbacPermissions (insert "./notes.md" (VStr "admin")) (initial ∅))))
  /\ (forall v st0, truthy v = true ->
        rewriteFrontMatter (VObj [("permission", v)]) "./notes.md" st0
          = Ok (VObj [], true)
               (set_fileRbacPermissions (insert "./notes.md" v) st0)).
Proof.
  exact (empty_frontmatter_is_dropped (H := Fixture.host) "./notes.md"
           (Fixture.doc ["---"; "permission: admin"; "---"; ""; "# Title"; "Body"])
           (initial ∅)
           (Fixture.doc ["---"; "permission: admin"; "---"; ""; "# Title"; "Body"])
           (initial ∅)
           {| frontmatter := VObj []; changed := true; len := Some 27 |}
           (set_fileRbacPermissions (insert "./notes.md" (VStr "admin")) (initial ∅))
           eq_refl eq_refl eq_refl eq_refl).
Defined.

(** ** The admonition rewrite *)

Section AdmonitionFacts.
Lemma word_is_not_space (a : ascii) : is_word a = true -> is_space a = false.
Proof. destruct a as [[] [] [] [] [] [] [] []]; vm_compute; congruence. Qed.




Lemma all_not_mem (x : ascii) (s : string) :
  Str.mem x s = false -> Str.all (fun b => negb (Ascii.eqb b x)) s = true.
Proof.
  induction s as [|a s IH]; simpl; [reflexivity|].
  intros E. apply orb_false_elim in E as [-> E]. now rewrite IH.
Qed.




End AdmonitionFacts.

(** *** The scan up to a match *)

Section ScanHelpers.
Lemma startsWith_head_ne (a x : ascii) (s L : string) :
  Ascii.eqb a x = false -> Str.startsWith (String a s) (String x L) = false.
Proof.
  intros E. unfold Str.startsWith. cbn [String.prefix].
  destruct (ascii_dec x a) as [->|]; [|reflexivity].
  now rewrite Ascii.eqb_refl in E.
Qed.

Lemma mem_not_includes (x : ascii) (s L : string) :
  Str.mem x s = false -> Str.includes s (String x L) = false.
Proof.
  induction s as [|a s IH]; [reflexivity|].
  cbn [Str.mem Str.includes]. intros E. apply orb_false_elim in E as [Ea E].
  now rewrite startsWith_head_ne, IH.
Qed.

(** The scan keeps a text without the first character of the pattern and
    goes on behind it. *)
Lemma scan_prefix_without_char (n : nat) (x : ascii) (L : string) (r : regex)
    (pre s : string) p :
  Str.mem x pre = false ->
  scan n (Seq (lit (String x L)) r) p (pre +:+ s) 0
    = keeps pre ++ scan n (Seq (lit (String x L)) r) (after p pre) s 0.
Proof.
  revert p. induction pre as [|a pre IH]; intros p E; [reflexivity|].
  cbn [Str.mem] in E. apply orb_false_elim in E as [Ea E].
  cbn [String.append scan]. unfold match_at.
  change (run (Seq (lit ?l) ?r') ?p ?s' ?c ?k)
    with (run (lit l) p s' c (fun p' s'' c' => run r' p' s'' c' k)).
  rewrite run_lit_fail by now apply startsWith_head_ne.
  unfold keeps. cbn [list_ascii_of_string map app after]. f_equal. now apply IH.
Qed.

(** A match, then the scan behind the matched text. *)
Lemma scan_hit (n : nat) (r : regex) (a : ascii) (w rest : string) p g :
  match_at n r p (String a w +:+ rest) = Some {| whole := String a w; groups := g |} ->
  scan n r p (String a w +:+ rest) 0
    = Hit {| whole := String a w; groups := g |}
        :: scan n r (after (Some a) w) rest 0.
Proof.
  intros E. cbn [String.append] in *. cbn [scan]. rewrite E.
  cbn [whole String.length]. f_equal. apply scan_skip.
Qed.

End ScanHelpers.

(** *** What a match has read *)

Section MatcherInversion.
Context {R : Type}.
Implicit Types (k : @cont R) (p : option ascii) (c : captures).







End MatcherInversion.

Section ScanInversion.





End ScanInversion.

(** *** The blocks the pattern matches *)

Section AdmonitionForms.
Context {R : Type}.
Implicit Types (k : @cont R) (p : option ascii) (c : captures).





End AdmonitionForms.

Section AdmonitionStrings.








End AdmonitionStrings.

Section AdmonitionBlocks.
Context {R : Type}.
Implicit Types (k : @cont R) (p : option ascii) (c : captures).




End AdmonitionBlocks.

Section AdmonitionMatches.


End AdmonitionMatches.

Section AdmonitionTheorem.




End AdmonitionTheorem.

(** A block without title: the callback writes the [undefined] it is
    handed into the name. *)
Lemma untitled_admonition_is_named_undefined :
  rewriteAdmonitions (":::warning" +:+ Str.nl +:+ "Body" +:+ Str.nl +:+ ":::")
  = "{% admonition type=" +:+ Str.dq +:+ "warning" +:+ Str.dq +:+ " name="
      +:+ Str.dq +:+ "undefined" +:+ Str.dq +:+ " %}" +:+ Str.nl
      +:+ "Body" +:+ Str.nl +:+ "{% /admonition %}".
Proof. vm_compute. reflexivity. Qed.


(** ** Paths under a working directory *)

Section PathFacts.
Import Spec.

Lemma split_nonempty (c : ascii) (s : string) : Str.split c s <> [].
Proof.
  induction s as [|a s IH]; simpl; [discriminate|].
  destruct (Ascii.eqb a c); [discriminate|].
  destruct (Str.split c s); [congruence|discriminate].
Qed.

Lemma split_app (c : ascii) (x t : string) :
  Str.split c (x +:+ String c t) = Str.split c x ++ Str.split c t.
Proof.
  induction x as [|a x IH]; cbn [String.append Str.split].
  - now rewrite Ascii.eqb_refl.
  - destruct (Ascii.eqb a c); [now rewrite IH|].
    rewrite IH. pose proof (split_nonempty c x) as Hne.
    destruct (Str.split c x); [congruence|reflexivity].
Qed.

Lemma split_plain (c : ascii) (s : string) :
  Str.mem c s = false -> Str.split c s = [s].
Proof.
  induction s as [|a s IH]; [reflexivity|].
  cbn [Str.mem Str.split]. intros E. apply orb_false_elim in E as [-> E].
  now rewrite IH.
Qed.

Lemma segmentOk_plain (seg : string) :
  segmentOk seg = true -> Str.mem "/" seg = false.
Proof.
  unfold segmentOk. intros E.
  apply andb_true_iff in E as [E _]. apply andb_true_iff in E as [E _].
  apply andb_true_iff in E as [_ E]. now apply negb_true_iff in E.
Qed.

(** Splitting a joined list of segments gives the segments back (the
    empty list is written as the empty string). *)
Lemma split_join (segs : list string) :
  forallb segmentOk segs = true ->
  Str.split "/" (Str.join "/" segs) = match segs with [] => [EmptyString] | _ => segs end.
Proof.
  induction segs as [|x segs IH]; [reflexivity|].
  cbn [forallb]. intros E. apply andb_true_iff in E as [Hx E].
  destruct segs as [|y segs].
  - cbn. now apply split_plain, segmentOk_plain.
  - change (Str.join "/" (x :: y :: segs))
      with (x +:+ String "/" (Str.join "/" (y :: segs))).
    rewrite split_app, (split_plain _ x) by now apply segmentOk_plain.
    now rewrite IH.
Qed.

(** Segments of a working directory are pushed as they are. *)
Lemma normalize_push (b : bool) (segs acc rest : list string) :
  forallb segmentOk segs = true ->
  Path.normalizeSegments b acc (segs ++ rest)
    = Path.normalizeSegments b (rev segs ++ acc) rest.
Proof.
  revert acc. induction segs as [|x segs IH]; intros acc E; [reflexivity|].
  cbn [forallb] in E. apply andb_true_iff in E as [Hx E].
  unfold segmentOk in Hx.
  apply andb_true_iff in Hx as [Hx H2]. apply andb_true_iff in Hx as [Hx H1].
  apply andb_true_iff in Hx as [H0 _].
  apply negb_true_iff in H0, H1, H2.
  cbn [app Path.normalizeSegments]. rewrite H0, H1, H2. cbn [orb].
  rewrite IH by exact E. cbn [rev]. now rewrite <- app_assoc.
Qed.

Lemma normalize_split_join (b : bool) (segs acc rest : list string) :
  forallb segmentOk segs = true ->
  Path.normalizeSegments b acc (Str.split "/" (Str.join "/" segs) ++ rest)
    = Path.normalizeSegments b (rev segs ++ acc) rest.
Proof.
  intros E. rewrite split_join by exact E.
  destruct segs as [|x segs]; [reflexivity|]. now apply normalize_push.
Qed.

(** [normalizeString] of a path below the working directory. *)
Lemma normalizeString_cwdOf (segs : list string) (tail : string) :
  forallb segmentOk segs = true ->
  Path.normalizeString (cwdOf segs +:+ "/" +:+ tail) false
    = Str.join "/" (Path.normalizeSegments false (rev segs) (Str.split "/" tail)).
Proof.
  intros E. unfold Path.normalizeString, cwdOf.
  change (("/" +:+ ?x) +:+ "/" +:+ tail) with (String "/" (x +:+ String "/" tail)).
  cbn [Str.split]. rewrite Ascii.eqb_refl, split_app.
  cbn [Path.normalizeSegments Str.is_empty orb].
  rewrite normalize_split_join by exact E. now rewrite app_nil_r.
Qed.

Lemma filter_split_join (segs : list string) :
  forallb segmentOk segs = true ->
  filter (fun a => negb (Str.is_empty a) = true) (Str.split "/" (Str.join "/" segs)) = segs.
Proof.
  intros E. rewrite split_join by exact E.
  destruct segs as [|x segs]; [reflexivity|].
  induction (x :: segs) as [|y l IH]; [reflexivity|].
  cbn [forallb] in E. apply andb_true_iff in E as [Hy E].
  rewrite filter_cons. unfold segmentOk in Hy.
  apply andb_true_iff in Hy as [Hy _]. apply andb_true_iff in Hy as [Hy _].
  apply andb_true_iff in Hy as [Hy _].
  case_decide; [|congruence]. now rewrite IH.
Qed.

Lemma stripCommon_app (segs a b : list string) :
  Path.stripCommon (segs ++ a) (segs ++ b) = Path.stripCommon a b.
Proof.
  induction segs as [|x segs IH]; [reflexivity|].
  cbn [app Path.stripCommon]. now rewrite String.eqb_refl.
Qed.

Lemma stripCommon_same (l : list string) : Path.stripCommon l l = ([], []).
Proof.
  rewrite <- (app_nil_r l) at 1. rewrite <- (app_nil_r l) at 2.
  now rewrite stripCommon_app.
Qed.

(** [relative] is decided by the resolved segments alone. *)
Lemma relative_by_segments (cwd from to : string) :
  Path.relative cwd from to
    = let '(up, down) := Path.stripCommon (Path.resolvedSegments cwd from)
                           (Path.resolvedSegments cwd to) in
      Str.join "/" (map (fun _ => "..") up ++ down).
Proof.
  unfold Path.relative.
  destruct (String.eqb_spec from to) as [->|_].
  - now rewrite stripCommon_same.
  - destruct (String.eqb_spec (Path.resolve cwd [from]) (Path.resolve cwd [to])) as [E|_];
      [|reflexivity].
    unfold Path.resolvedSegments. rewrite E. now rewrite stripCommon_same.
Qed.
End PathFacts.

Section LinkExample.
Import Spec.
Context `{Host}.
Variable segs : list string.
Hypothesis cwd_is : cwd = cwdOf segs.
Hypothesis segs_ok : forallb segmentOk segs = true.

Lemma cwdOf_not_empty (l : list string) : Str.is_empty (cwdOf l) = false.
Proof. reflexivity. Qed.

Lemma cwdOf_absolute (l : list string) : Path.isAbsolute (cwdOf l) = true.
Proof. exact (startsWith_app "/" (Str.join "/" l)). Qed.

Lemma forallb_ok_app (extra : list string) :
  forallb segmentOk extra = true -> forallb segmentOk (segs ++ extra) = true.
Proof. intros E. now rewrite forallb_app, segs_ok, E. Qed.

(** The segments of a path given relative to the working directory. *)
Lemma resolvedSegments_relative (p : string) (extra : list string) :
  Path.isAbsolute p = false -> Str.is_empty p = false ->
  Path.normalizeSegments false (rev segs) (Str.split "/" (p +:+ "/")) = segs ++ extra ->
  forallb segmentOk extra = true ->
  Path.resolvedSegments cwd p = segs ++ extra.
Proof.
  intros Hrel Hne HN Hok. unfold Path.resolvedSegments, Path.resolve.
  cbn [rev app Path.resolveLoop].
  rewrite Hne, Hrel, cwd_is, cwdOf_not_empty, cwdOf_absolute.
  change (p +:+ Path.sep +:+ EmptyString) with (p +:+ "/").
  rewrite normalizeString_cwdOf by exact segs_ok. rewrite HN.
  change (Path.sep +:+ ?x) with (String "/" x).
  cbn [Str.split]. rewrite Ascii.eqb_refl, filter_cons.
  case_decide as E; [discriminate E|].
  apply filter_split_join, forallb_ok_app, Hok.
Qed.

(** The segments of an absolute, normalized path. *)
Lemma resolvedSegments_absolute (l : list string) :
  forallb segmentOk l = true -> Path.resolvedSegments cwd (cwdOf l) = l.
Proof.
  intros Hok. unfold Path.resolvedSegments, Path.resolve.
  cbn [rev app Path.resolveLoop]. rewrite cwdOf_not_empty, cwdOf_absolute.
  change (cwdOf l +:+ Path.sep +:+ EmptyString) with (cwdOf l +:+ "/" +:+ EmptyString).
  rewrite normalizeString_cwdOf by exact Hok.
  change (Str.split "/" EmptyString) with [EmptyString].
  cbn [Path.normalizeSegments Str.is_empty orb]. rewrite rev_involutive.
  change (Path.sep +:+ ?x) with (String "/" x).
  cbn [Str.split]. rewrite Ascii.eqb_refl, filter_cons.
  case_decide as E; [discriminate E|].
  now apply filter_split_join.
Qed.

(** [path.resolve(dir, link)] for a directory and a link given relative
    to the working directory. *)
Lemma resolve_relative (dir link : string) (extra : list string) :
  Path.isAbsolute dir = false -> Str.is_empty dir = false ->
  Path.isAbsolute link = false -> Str.is_empty link = false ->
  Path.normalizeSegments false (rev segs)
    (Str.split "/" (dir +:+ "/" +:+ link +:+ "/")) = segs ++ extra ->
  Path.resolve cwd [dir; link] = cwdOf (segs ++ extra).
Proof.
  intros Hd Hdn Hl Hln HN. unfold Path.resolve.
  cbn [rev app Path.resolveLoop].
  rewrite Hln, Hl, Hdn, Hd, cwd_is, cwdOf_not_empty, cwdOf_absolute.
  change (dir +:+ Path.sep +:+ link +:+ Path.sep +:+ EmptyString)
    with (dir +:+ "/" +:+ link +:+ "/").
  rewrite normalizeString_cwdOf by exact segs_ok. now rewrite HN.
Qed.

Lemma rev_rev_snoc (extra : list string) :
  rev (rev extra ++ rev segs) = segs ++ extra.
Proof. now rewrite rev_app_distr, !rev_involutive. Qed.

Lemma example_key :
  Path.relative cwd "." (Path.resolve cwd [Path.dirname "a/b.md"; "../c.md"]) = "c.md".
Proof.
  change (Path.dirname "a/b.md") with "a".
  rewrite (resolve_relative "a" "../c.md" ["c.md"]); try reflexivity.
  2:{ cbn. exact (rev_rev_snoc ["c.md"]). }
  rewrite relative_by_segments.
  rewrite (resolvedSegments_relative "." []); try reflexivity.
  2:{ cbn. exact (rev_rev_snoc []). }
  rewrite (resolvedSegments_absolute (segs ++ ["c.md"])) by now apply forallb_ok_app.
  now rewrite stripCommon_app.
Qed.

Lemma example_target :
  Path.relative cwd (Path.dirname "a/b.md") "d/c.md" = "../d/c.md".
Proof.
  change (Path.dirname "a/b.md") with "a".
  rewrite relative_by_segments.
  rewrite (resolvedSegments_relative "a" ["a"]); try reflexivity.
  2:{ cbn. exact (rev_rev_snoc ["a"]). }
  rewrite (resolvedSegments_relative "d/c.md" ["d"; "c.md"]); try reflexivity.
  2:{ cbn. exact (rev_rev_snoc ["d"; "c.md"]). }
  now rewrite stripCommon_app.
Qed.

Lemma linkReplacer_example (st : state) :
  renamedFiles st !! "c.md" = Some "d/c.md" ->
  linkReplacer "a/b.md"
    {| whole := "[the guide](../c.md#sec)";
       groups := [Some "[the guide]("; Some "../c.md#sec"; Some ")"] |} st
  = Ok "[the guide](../d/c.md#sec)" st.
Proof.
  intros Hreg. unfold linkReplacer.
  change (group_text 2 _) with "../c.md#sec".
  change (group_text 1 _) with "[the guide](".
  change (group_text 3 _) with ")".
  change (Str.split "#" "../c.md#sec") with ["../c.md"; "sec"].
  cbn [hd]. change (Str.startsWith "../c.md" "/") with false. cbv iota.
  rewrite example_key. unfold bind, get_state, registryGet.
  rewrite Hreg. cbn [entryTruthy Str.is_empty negb]. rewrite example_target.
  reflexivity.
Qed.

(** C3.  In the document [a/b.md], under any working directory, with a
    registry that maps [c.md] to [d/c.md], the link rewriter turns the
    destination [../c.md#sec] into [../d/c.md#sec] and leaves the rest of
    the text and the state as they are; so does the whole migration of the
    document. *)
Theorem link_is_rewritten (st : state) :
  renamedFiles st !! "c.md" = Some "d/c.md" ->
  rewriteLinks "a/b.md" "See [the guide](../c.md#sec)." st
    = Ok "See [the guide](../d/c.md#sec)." st
  /\ migrateContent "a/b.md" "See [the guide](../c.md#sec)." st
    = Ok "See [the guide](../d/c.md#sec)." st.
Proof.
  intros Hreg.
  assert (Hlinks : rewriteLinks "a/b.md" "See [the guide](../c.md#sec)." st
                   = Ok "See [the guide](../d/c.md#sec)." st).
  { unfold rewriteLinks.
    replace (pieces 3 linkRegex "See [the guide](../c.md#sec).")
      with (keeps "See " ++
            [Hit {| whole := "[the guide](../c.md#sec)";
                    groups := [Some "[the guide]("; Some "../c.md#sec"; Some ")"] |}]
            ++ keeps ".") by (vm_compute; reflexivity).
    cbn [keeps list_ascii_of_string map app replaceM].
    unfold bind, ret. now rewrite (linkReplacer_example st Hreg). }
  split; [exact Hlinks|].
  unfold migrateContent, transformMarkup, bind.
  rewrite rewriteAdmonitions_without_marker by reflexivity.
  rewrite rewriteEmbeds_without_tag by reflexivity.
  unfold ret. rewrite rewriteCodeFences_without_fence by reflexivity.
  unfold processFrontMatter. rewrite exec_frontMatter_without_marker by reflexivity.
  exact Hlinks.
Qed.
End LinkExample.

Lemma link_is_rewritten_witness :
  rewriteLinks (H := Fixture.host) "a/b.md" "See [the guide](../c.md#sec)."
    (set_renamedFiles (insert "c.md" "d/c.md") (initial ∅))
    = Ok "See [the guide](../d/c.md#sec)."
         (set_renamedFiles (insert "c.md" "d/c.md") (initial ∅))
  /\ migrateContent (H := Fixture.host) "a/b.md" "See [the guide](../c.md#sec)."
       (set_renamedFiles (insert "c.md" "d/c.md") (initial ∅))
    = Ok "See [the guide](../d/c.md#sec)."
         (set_renamedFiles (insert "c.md" "d/c.md") (initial ∅)).
Proof.
  exact (link_is_rewritten (H := Fixture.host) ["srv"; "site"] eq_refl eq_refl
           (set_renamedFiles (insert "c.md" "d/c.md") (initial ∅)) eq_refl).
Defined.

(** ** Suffixes *)

Section SuffixFacts.
Lemma endsWith_spec (s p : string) :
  Str.endsWith s p = true <-> exists pre, s = pre +:+ p.
Proof.
  unfold Str.endsWith. split.
  - intros E. apply andb_true_iff in E as [_ E]. apply String.eqb_eq in E.
    exists (Str.take (String.length s - String.length p) s).
    transitivity (Str.take (String.length s - String.length p) s
                    +:+ Str.drop (String.length s - String.length p) s);
      [symmetry; apply take_drop|now rewrite E].
  - intros [pre ->]. rewrite length_append.
    replace (String.length pre + String.length p - String.length p)
      with (String.length pre) by lia.
    rewrite drop_length_app, String.eqb_refl, andb_true_r.
    apply Nat.leb_le. lia.
Qed.

Lemma includes_app (pre p : string) : Str.includes (pre +:+ p) p = true.
Proof.
  induction pre as [|a pre IH].
  - cbn [String.append]. destruct p as [|b p]; [reflexivity|].
    cbn [Str.includes]. pose proof (startsWith_app (String b p) EmptyString) as E.
    rewrite append_nil_r in E. now rewrite E.
  - cbn [String.append Str.includes]. rewrite IH. apply orb_true_r.
Qed.

Lemma endsWith_includes (s p : string) :
  Str.includes s p = false -> Str.endsWith s p = false.
Proof.
  intros E. destruct (Str.endsWith s p) eqn:Es; [|reflexivity].
  apply endsWith_spec in Es as [pre ->]. now rewrite includes_app in E.
Qed.

Lemma endsWith_longer (s a b : string) :
  Str.endsWith s (a +:+ b) = true -> Str.endsWith s b = true.
Proof.
  intros E. apply endsWith_spec in E as [pre ->]. apply endsWith_spec.
  exists (pre +:+ a). now rewrite append_assoc.
Qed.

Lemma snoc_inj (x y : string) (a b : ascii) :
  x +:+ String a EmptyString = y +:+ String b EmptyString -> a = b.
Proof.
  revert y. induction x as [|c x IH]; intros [|d y]; cbn [String.append]; intros E.
  - now injection E.
  - injection E as _ E. now destruct y.
  - injection E as _ E. now destruct x.
  - injection E as _ E. eauto.
Qed.

(** A path that ends in [.page.yaml] does not end in the wildcard. *)
Lemma pageYaml_is_no_wildcard (s : string) :
  Str.endsWith s ".page.yaml" = true -> Str.endsWith s "/*" = false.
Proof.
  intros E. destruct (Str.endsWith s "/*") eqn:Ew; [|reflexivity].
  apply endsWith_spec in E as [pre E], Ew as [pre' Ew]. subst s.
  change ".page.yaml" with (".page.yam" +:+ String "l" EmptyString) in Ew.
  change "/*" with ("/" +:+ String "*" EmptyString) in Ew.
  rewrite <- !append_assoc in Ew. apply snoc_inj in Ew. discriminate.
Qed.
End SuffixFacts.

(** ** The sidebar transformer *)

Section SidebarFacts.
Context `{Host}.
Variables (reg : gmap string string) (filePath : string).

Lemma transformSidebarItems_array (items : list value) :
  transformSidebarItems reg filePath (VArr items)
    = match mapItems reg filePath items with
      | Done items' => Done (VArr items')
      | Raise e => Raise e
      end.
Proof.
  cbn [transformSidebarItems].
  match goal with |- match ?f items with _ => _ end = _ =>
    assert (E : forall l, f l = mapItems reg filePath l) end.
  { induction l as [|item l IH]; [reflexivity|].
    cbn [mapItems]. rewrite <- IH.
    assert (Ec : forall n, match n with
                | VObj fields =>
                    (fix pagesOf (fs : list (string * value)) : outcome value :=
                       match fs with
                       | [] => Raise (TypeError "items.map is not a function")
                       | (k, v) :: fs' =>
                           if String.eqb k "pages"
                           then transformSidebarItems reg filePath v
                           else pagesOf fs'
                       end) fields
                | _ => Raise (TypeError "items.map is not a function")
                end = childrenOf reg filePath n).
    { intros [| | | | | |fields]; try reflexivity.
      unfold childrenOf. induction fields as [|[k v] fs IHf]; [reflexivity|].
      cbn [lookup]. destruct (String.eqb k "pages"); [reflexivity|exact IHf]. }
    now rewrite <- Ec. }
  now rewrite E.
Qed.
End SidebarFacts.

Section SidebarTheorems.
Import Spec.
Context `{Host}.
Variables (reg : gmap string string) (filePath : string).

Lemma mapItems_raises (items : list value) (node : value) :
  In node items ->
  (exists e, transformSidebarItem reg filePath node (childrenOf reg filePath node) = Raise e) ->
  exists e, mapItems reg filePath items = Raise e.
Proof.
  intros Hin [e He]. induction items as [|item items IH]; [destruct Hin|].
  cbn [mapItems]. destruct Hin as [->|Hin].
  - rewrite He. eauto.
  - destruct (transformSidebarItem reg filePath item _); [|eauto].
    destruct (IH Hin) as [e' ->]. eauto.
Qed.

(** An exception at a visited node leaves the whole transformation. *)
Lemma visits_raises (items : list value) (node : value) :
  visits items node ->
  (forall children, exists e, transformSidebarItem reg filePath node children = Raise e) ->
  exists e, mapItems reg filePath items = Raise e.
Proof.
  intros Hv Hnode. induction Hv as [items node Hin|items fields pages node Hin Hpages Hv IH].
  - apply (mapItems_raises items node Hin). apply Hnode.
  - destruct (IH Hnode) as [e He].
    apply (mapItems_raises items (VObj fields) Hin).
    exists e. cbn [childrenOf transformSidebarItem]. rewrite Hpages.
    cbn [default from_option id truthy]. now rewrite transformSidebarItems_array, He.
Qed.

(** X22.  At a node without a truthy [pages] whose [page] ends in
    [.page.yaml] or [.page.yaml/*] and whose resolved path (the wildcard
    taken off) has no entry in the registry, the callback throws: the error
    naming the path, or the [TypeError] of [path.relative] when the path is
    the name of a property of [Object.prototype].  The exception leaves
    [transformSidebarItems] from every visited node, and the run with
    it. *)
Theorem missing_collection_is_fatal (items : list value)
    (fields : list (string * value)) (page : string) :
  visits items (VObj fields) ->
  noPages fields ->
  lookup "page" fields = Some (VStr page) ->
  Str.endsWith page ".page.yaml" = true \/ Str.endsWith page ".page.yaml/*" = true ->
  reg !! registryKey filePath (Str.replace "/*" EmptyString page) = None ->
  (forall children,
     transformSidebarItem reg filePath (VObj fields) children
     = Raise (if inherited (registryKey filePath (Str.replace "/*" EmptyString page))
              then TypeError "The to argument must be of type string"
              else Error ("No renamed file found for "
                          +:+ registryKey filePath (Str.replace "/*" EmptyString page))))
  /\ (exists e, transformSidebarItems reg filePath (VArr items) = Raise e)
  /\ (forall st content rest,
        renamedFiles st = reg ->
        files st !! Path.normalize filePath = Some content ->
        yaml_load content = Some (VArr items) ->
        exists e, migrateSidebarsLoop (filePath :: rest) st = Throw e).
Proof.
  intros Hv Hnp Hpage Hend Hreg.
  assert (Hnode : forall children,
     transformSidebarItem reg filePath (VObj fields) children
     = Raise (if inherited (registryKey filePath (Str.replace "/*" EmptyString page))
              then TypeError "The to argument must be of type string"
              else Error ("No renamed file found for "
                          +:+ registryKey filePath (Str.replace "/*" EmptyString page)))).
  { intros children. cbn [transformSidebarItem]. unfold noPages in Hnp.
    rewrite Hnp, Hpage. cbn [default from_option id].
    assert (Hrp : forall build, renamedPage reg filePath page build
              = Raise (if inherited (registryKey filePath (Str.replace "/*" EmptyString page))
                       then TypeError "The to argument must be of type string"
                       else Error ("No renamed file found for "
                              +:+ registryKey filePath (Str.replace "/*" EmptyString page)))).
    { intros build. unfold renamedPage, registryGet. rewrite Hreg.
      now destruct (inherited _). }
    destruct Hend as [Hy|Hw].
    - now rewrite (pageYaml_is_no_wildcard _ Hy), Hy.
    - rewrite (endsWith_longer page ".page.yaml" "/*" Hw), Hw. apply Hrp. }
  split; [exact Hnode|].
  assert (Hall : exists e, transformSidebarItems reg filePath (VArr items) = Raise e).
  { destruct (visits_raises items (VObj fields) Hv) as [e He].
    - intros children. rewrite Hnode. eauto.
    - exists e. now rewrite transformSidebarItems_array, He. }
  split; [exact Hall|].
  intros st content rest Hst Hfile Hload. destruct Hall as [e He]. exists e.
  cbn [migrateSidebarsLoop]. unfold bind at 1.
  unfold migrateSidebarsFile, bind, readFileSync, orThrow, ret.
  rewrite Hfile, Hload. unfold transformSidebar, liftOutcome.
  now rewrite Hst, He.
Qed.

(** The transformation of a sequence is the callback at each of its nodes,
    in order. *)
Lemma mapItems_Forall2 (items items' : list value) :
  mapItems reg filePath items = Done items' ->
  Forall2 (fun item item' =>
             transformSidebarItem reg filePath item (childrenOf reg filePath item)
             = Done item') items items'.
Proof.
  revert items'. induction items as [|item items IH]; intros items'; cbn [mapItems].
  - intros [= <-]. constructor.
  - destruct (transformSidebarItem reg filePath item _) as [item'|] eqn:E; [|discriminate].
    destruct (mapItems reg filePath items) as [rest|]; [|discriminate].
    intros [= <-]. constructor; [exact E|now apply IH].
Qed.

(** C4 (as amended).  At a node without a truthy [pages] whose [page] is
    a non-empty string without [/*]: when the resolved path has a
    non-empty target in the registry, the callback returns the node with
    [page] set to that target, relative to the directory of the sidebar
    file; when it has no entry, is no name of a property of
    [Object.prototype], and [page] does not end in [.page.yaml], the
    callback returns the node as it is.  The transformed sequence holds,
    place by place, what the callback returns for the nodes of the
    sequence. *)
Theorem page_follows_registry (fields : list (string * value)) (page : string)
    (children : outcome value) :
  noPages fields ->
  lookup "page" fields = Some (VStr page) ->
  Str.is_empty page = false ->
  Str.includes page "/*" = false ->
  (forall target,
     reg !! registryKey filePath page = Some target ->
     Str.is_empty target = false ->
     exists fields',
       transformSidebarItem reg filePath (VObj fields) children = Done (VObj fields') /\
       lookup "page" fields' = Some (VStr (relativeToFile filePath target)))
  /\ (reg !! registryKey filePath page = None ->
      inherited (registryKey filePath page) = false ->
      Str.endsWith page ".page.yaml" = false ->
      transformSidebarItem reg filePath (VObj fields) children = Done (VObj fields))
  /\ (forall items items',
        transformSidebarItems reg filePath (VArr items) = Done (VArr items') ->
        Forall2 (fun item item' =>
                   transformSidebarItem reg filePath item (childrenOf reg filePath item)
                   = Done item') items items').
Proof.
  intros Hnp Hpage Hne Hstar. unfold noPages in Hnp.
  pose proof (endsWith_includes _ _ Hstar) as Hw.
  split; [|split]; cycle 2.
  { intros items items' E. rewrite transformSidebarItems_array in E.
    destruct (mapItems reg filePath items) as [l|] eqn:Hmap; [|discriminate].
    injection E as <-. now apply mapItems_Forall2. }
  - intros target Hreg Ht. cbn [transformSidebarItem].
    rewrite Hnp, Hpage. cbn [default from_option id]. rewrite Hw.
    destruct (Str.endsWith page ".page.yaml").
    + unfold renamedPage. rewrite (replace_absent _ _ _ Hstar).
      unfold registryGet. rewrite Hreg. cbn [entryTruthy]. rewrite Ht.
      cbn [negb]. eexists. split; [reflexivity|]. apply lookup_assign_eq.
    + rewrite Hne. cbn [negb]. unfold registryGet. rewrite Hreg.
      cbn [entryTruthy]. rewrite Ht. cbn [negb].
      eexists. split; [reflexivity|]. apply lookup_assign_eq.
  - intros Hreg Hin Hy. cbn [transformSidebarItem].
    rewrite Hnp, Hpage. cbn [default from_option id]. rewrite Hw, Hy, Hne. cbn [negb].
    unfold registryGet. now rewrite Hreg, Hin.
Qed.
End SidebarTheorems.

Lemma missing_collection_is_fatal_witness :
  exists e,
    migrateSidebarsLoop (H := Fixture.host) ["./docs/sidebars.yaml"]
      (set_files (insert "docs/sidebars.yaml" (Fixture.doc ["- page: api.page.yaml/*"]))
         (initial ∅))
    = Throw e.
Proof.
  exact (proj2 (proj2
    (missing_collection_is_fatal (H := Fixture.host) ∅ "./docs/sidebars.yaml"
       [VObj [("page", VStr "api.page.yaml/*")]]
       [("page", VStr "api.page.yaml/*")] "api.page.yaml/*"
       (Spec.visits_item [VObj [("page", VStr "api.page.yaml/*")]]
          (VObj [("page", VStr "api.page.yaml/*")]) (or_introl eq_refl))
       eq_refl eq_refl (or_intror eq_refl) eq_refl))
    (set_files (insert "docs/sidebars.yaml" (Fixture.doc ["- page: api.page.yaml/*"]))
       (initial ∅))
    (Fixture.doc ["- page: api.page.yaml/*"]) [] eq_refl eq_refl eq_refl).
Defined.

(** C5.  A node that names a page collection without an entry in the
    registry and also has [pages]: the branch of the groups returns before
    the lookup that the branches behind it make, so nothing is thrown and
    the node is written as a group, its [page] as it was. *)
Lemma group_with_missing_collection_passes :
  transformSidebarItems (H := Fixture.host) ∅ "./docs/sidebars.yaml"
    (VArr [VObj [("group", VStr "API"); ("page", VStr "api.page.yaml"); ("pages", VArr [])]])
  = Done (VArr [VObj [("group", VStr "API"); ("page", VStr "api.page.yaml");
                      ("pages", VUndefined); ("items", VArr [])]]).
Proof. vm_compute. reflexivity. Qed.

Lemma page_follows_registry_witness :
  (exists fields',
     transformSidebarItem (H := Fixture.host) {[ "docs/guide.mdx" := "./docs/guide.md" ]}
       "./docs/sidebars.yaml"
       (VObj [("label", VStr "Guide"); ("page", VStr "guide.mdx")])
       (Raise (TypeError "items.map is not a function"))
     = Done (VObj fields') /\
     lookup "page" fields' = Some (VStr "guide.md"))
  /\ transformSidebarItem (H := Fixture.host) {[ "docs/guide.mdx" := "./docs/guide.md" ]}
       "./docs/sidebars.yaml"
       (VObj [("label", VStr "Intro"); ("page", VStr "intro.md")])
       (Raise (TypeError "items.map is not a function"))
     = Done (VObj [("label", VStr "Intro"); ("page", VStr "intro.md")]).
Proof.
  split.
  - exact (proj1 (page_follows_registry (H := Fixture.host)
             {[ "docs/guide.mdx" := "./docs/guide.md" ]} "./docs/sidebars.yaml"
             [("label", VStr "Guide"); ("page", VStr "guide.mdx")] "guide.mdx"
             (Raise (TypeError "items.map is not a function"))
             eq_refl eq_refl eq_refl eq_refl)
           "./docs/guide.md" eq_refl eq_refl).
  - exact (proj1 (proj2 (page_follows_registry (H := Fixture.host)
             {[ "docs/guide.mdx" := "./docs/guide.md" ]} "./docs/sidebars.yaml"
             [("label", VStr "Intro"); ("page", VStr "intro.md")] "intro.md"
             (Raise (TypeError "items.map is not a function"))
             eq_refl eq_refl eq_refl eq_refl))
           eq_refl eq_refl eq_refl).
Defined.

(** C4, as the claim states it, fails: a node whose [page] is a wildcard
    over a plain directory, absent from the registry, is not left as it is
    but becomes a directory node; and a node whose [page] names a page
    collection absent from the registry is not left as it is either: the
    transformation throws. *)
Lemma wildcard_page_is_not_left :
  registryGet {[ "docs/guide.mdx" := "./docs/guide.md" ]}
    (registryKey (H := Fixture.host) "./docs/sidebars.yaml" "guides/*") = Missing
  /\ transformSidebarItems (H := Fixture.host) {[ "docs/guide.mdx" := "./docs/guide.md" ]}
       "./docs/sidebars.yaml"
       (VArr [VObj [("page", VStr "guides/*")]])
     = Done (VArr [VObj [("page", VUndefined); ("directory", VStr "guides")]])
  /\ registryGet {[ "docs/guide.mdx" := "./docs/guide.md" ]}
       (registryKey (H := Fixture.host) "./docs/sidebars.yaml" "api.page.yaml") = Missing
  /\ transformSidebarItems (H := Fixture.host) {[ "docs/guide.mdx" := "./docs/guide.md" ]}
       "./docs/sidebars.yaml"
       (VArr [VObj [("page", VStr "api.page.yaml")]])
     = Raise (Error "No renamed file found for docs/api.page.yaml").
Proof. repeat split; vm_compute; reflexivity. Qed.

(** ** The structural equality check *)

Section DequalFacts.
Import Spec.

Lemma wf_array (items : list value) : wf (VArr items) <-> Forall wf items.
Proof.
  cbn [wf]. induction items as [|x l IH]; [split; constructor|].
  split.
  - intros [Hx Hl]. constructor; [exact Hx|now apply IH].
  - intros Hall. inversion Hall; subst. split; [assumption|now apply IH].
Qed.

Lemma wf_object (fields : list (string * value)) :
  wf (VObj fields) <-> List.NoDup (keys fields) /\ Forall (fun kv => wf (snd kv)) fields.
Proof.
  cbn [wf]. apply and_iff_compat_l.
  induction fields as [|[k v] l IH]; [split; constructor|].
  split.
  - intros [Hx Hl]. constructor; [exact Hx|now apply IH].
  - intros Hall. inversion Hall; subst. split; [assumption|now apply IH].
Qed.

Lemma lookup_In (k : string) (v : value) (fs : list (string * value)) :
  lookup k fs = Some v -> In (k, v) fs.
Proof.
  induction fs as [|[k' v'] fs IH]; [discriminate|]. cbn [lookup].
  destruct (String.eqb_spec k' k) as [->|_].
  - intros [= ->]. now left.
  - intros E. right. now apply IH.
Qed.

Lemma lookup_keys (k : string) (fs : list (string * value)) :
  In k (keys fs) <-> exists v, lookup k fs = Some v.
Proof.
  induction fs as [|[k' v'] fs IH]; cbn [keys map lookup fst In].
  - split; [tauto|now intros [v E]].
  - destruct (String.eqb_spec k' k) as [->|Hne].
    + split; eauto.
    + rewrite <- IH. unfold keys. tauto.
Qed.

Lemma In_lookup (k : string) (v : value) (fs : list (string * value)) :
  List.NoDup (keys fs) -> In (k, v) fs -> lookup k fs = Some v.
Proof.
  induction fs as [|[k' v'] fs IH]; [intros _ []|].
  cbn [keys map fst lookup]. intros Hnd [E|Hin].
  - injection E as -> ->. now rewrite String.eqb_refl.
  - inversion Hnd as [|? ? Hnotin Hnd']; subst.
    destruct (String.eqb_spec k' k) as [->|_]; [|now apply IH].
    exfalso. apply Hnotin. apply (in_map fst) in Hin. exact Hin.
Qed.

Variable same : value -> value -> bool.

Lemma dequalOn_array (xs ys : list value) :
  dequalOn same (VArr xs) (VArr ys)
  = same (VArr xs) (VArr ys) || ((length xs =? length ys) && eachEqual same xs ys).
Proof.
  cbn [dequalOn identical strict_eq is_object andb orb].
  destruct (same (VArr xs) (VArr ys)); [reflexivity|]. cbn [orb]. f_equal.
  revert ys. induction xs as [|x xs IH]; intros [|y ys]; try reflexivity.
  cbn [eachEqual]. now rewrite <- IH.
Qed.

Lemma dequalOn_object (fs gs : list (string * value)) :
  dequalOn same (VObj fs) (VObj gs)
  = same (VObj fs) (VObj gs) || (sameConstructor same fs gs && eachField same gs fs 0).
Proof.
  cbn [dequalOn identical strict_eq is_object andb orb].
  destruct (same (VObj fs) (VObj gs)); [reflexivity|]. cbn [orb]. f_equal.
  generalize 0.
  induction fs as [|[k v] fs IH]; intros n; [reflexivity|].
  cbn [eachField]. destruct (lookup k gs) as [w|]; [|reflexivity].
  destruct (dequalOn same v w); [apply IH|reflexivity].
Qed.

(** What the object loop checks. *)
Lemma eachField_spec (gs fs : list (string * value)) (count : nat) :
  eachField same gs fs count = true <->
  Forall (fun kv => exists w, lookup (fst kv) gs = Some w
                              /\ dequalOn same (snd kv) w = true) fs
  /\ length (keys gs) = count + length fs.
Proof.
  revert count. induction fs as [|[k v] fs IH]; intros count; cbn [eachField].
  - rewrite Nat.eqb_eq. cbn [length]. rewrite Nat.add_0_r. split.
    + intros E. split; [constructor|exact E].
    + now intros [_ E].
  - destruct (lookup k gs) as [w|] eqn:Hk.
    + destruct (dequalOn same v w) eqn:Hd.
      * rewrite IH. cbn [length]. rewrite Nat.add_succ_r. cbn [Nat.add].
        split.
        -- intros [Hall Hlen]. split; [|exact Hlen].
           constructor; [|exact Hall]. cbn [fst snd]. eauto.
        -- intros [Hall Hlen]. split; [|exact Hlen]. now inversion Hall.
      * split; [discriminate|].
        intros [Hall _]. inversion Hall as [|? ? [w' [Hw Hd']] _]; subst.
        cbn [fst snd] in *. congruence.
    + split; [discriminate|].
      intros [Hall _]. inversion Hall as [|? ? [w' [Hw _]] _]; subst.
      cbn [fst snd] in *. congruence.
Qed.

Lemma strict_eq_primitive (a b : value) :
  strict_eq a b = true -> is_object a = false /\ is_object b = false.
Proof. destruct a, b; cbn; try discriminate; auto. Qed.

(** [===] on primitives is the identity of the specification. *)
Lemma strict_eq_identical (a b : value) :
  strict_eq a b = true <-> identicalPrimitives a b.
Proof.
  split.
  - destruct a as [| |x|[|x]|x| |], b as [| |y|[|y]|y| |]; cbn; try discriminate; intros E.
    + constructor.
    + constructor.
    + apply Bool.eqb_prop in E as ->. constructor.
    + apply Z.eqb_eq in E as ->. constructor.
    + apply String.eqb_eq in E as ->. constructor.
  - intros []; cbn; auto using Bool.eqb_reflx, Z.eqb_refl, String.eqb_refl.
Qed.

Lemma dequalOn_primitive (a b : value) :
  is_object a = false -> dequalOn same a b = strict_eq a b || (is_nan a && is_nan b).
Proof.
  destruct a; try discriminate; intros _; cbn [dequalOn]; unfold identical;
    cbn [is_object andb]; rewrite orb_false_r; destruct (strict_eq _ b); reflexivity.
Qed.

Lemma structurallyEqual_primitive (a b : value) :
  is_object a = false ->
  structurallyEqual a b <-> strict_eq a b = true \/ (is_nan a = true /\ is_nan b = true).
Proof.
  intros Ha. split.
  - intros E. inversion E; subst; try discriminate;
      [left; now apply strict_eq_identical|right; split; reflexivity].
  - intros [E|[Ea Eb]].
    + apply equal_primitives. now apply strict_eq_identical.
    + destruct a as [| | |[|]| | |], b as [| | |[|]| | |]; try discriminate.
      apply equal_nan.
Qed.

(** The relation of the specification holds between a value and itself. *)
Lemma structurallyEqual_reflexive (a : value) : structurallyEqual a a.
Proof.
  induction a as [| | b0 | [|z] | s | xs IH | fs IH] using value_induction;
    try (apply equal_primitives; constructor); try apply equal_nan.
  - apply equal_sequences. induction IH; constructor; assumption.
  - apply equal_mappings; [tauto|].
    intros k v w Hv Hw. assert (w = v) by congruence. subst w.
    rewrite List.Forall_forall in IH. exact (IH _ (lookup_In _ _ _ Hv)).
Qed.

Hypothesis same_sound : forall a b, same a b = true -> a = b.

(** The constructors of two equal mappings, one of them plain. *)
Lemma sameConstructor_equal (fs gs : list (string * value)) :
  plainConstructor fs = true \/ plainConstructor gs = true ->
  structurallyEqual (VObj fs) (VObj gs) ->
  sameConstructor same fs gs = true.
Proof.
  intros Hplain E. inversion E as [? ? Hp| | |fs' gs' Hkeys Hvals]; subst; [inversion Hp|].
  unfold sameConstructor, plainConstructor in *.
  destruct (lookup "constructor" fs) as [v|] eqn:Hv,
           (lookup "constructor" gs) as [w|] eqn:Hw.
  - specialize (Hvals _ _ _ Hv Hw). unfold identical.
    assert (Hs : strict_eq v w = true); [|now rewrite Hs].
    destruct Hplain as [Hp|Hp]; apply andb_true_iff in Hp as [Ho Hn];
      apply negb_true_iff in Ho, Hn.
    + apply (structurallyEqual_primitive v w Ho) in Hvals as [E'|[E' _]]; congruence.
    + inversion Hvals as [? ? Hid| | |]; subst; try discriminate.
      now apply strict_eq_identical.
  - exfalso. assert (Hk : In "constructor" (keys gs)).
    { apply Hkeys, lookup_keys. eauto. }
    apply lookup_keys in Hk as [w Hw']. congruence.
  - exfalso. assert (Hk : In "constructor" (keys fs)).
    { apply Hkeys, lookup_keys. eauto. }
    apply lookup_keys in Hk as [v Hv']. congruence.
  - reflexivity.
Qed.

Lemma plain_array (items : list value) : plain (VArr items) <-> Forall plain items.
Proof.
  cbn [plain]. induction items as [|x l IH]; [split; constructor|].
  split.
  - intros [Hx Hl]. constructor; [exact Hx|now apply IH].
  - intros Hall. inversion Hall; subst. split; [assumption|now apply IH].
Qed.

Lemma plain_object (fields : list (string * value)) :
  plain (VObj fields)
  <-> plainConstructor fields = true /\ Forall (fun kv => plain (snd kv)) fields.
Proof.
  cbn [plain]. apply and_iff_compat_l.
  induction fields as [|[k v] l IH]; [split; constructor|].
  split.
  - intros [Hx Hl]. constructor; [exact Hx|now apply IH].
  - intros Hall. inversion Hall; subst. split; [assumption|now apply IH].
Qed.

(** An array or an object against a value of another kind. *)
Ltac other_kind :=
  cbn [dequalOn identical strict_eq is_object is_nan andb orb];
  first [ discriminate
        | let E := fresh "E" in
          destruct (same _ _) eqn:E; [apply same_sound in E; discriminate E|discriminate] ].

(** What [dequal] answers true for is equal in the specification's sense. *)
Lemma dequalOn_sound (a : value) :
  forall b, wf a -> dequalOn same a b = true -> structurallyEqual a b.
Proof.
  induction a as [| | b0 | n | s | xs IH | fs IH] using value_induction;
    intros b Ha;
    try (rewrite dequalOn_primitive, orb_true_iff, andb_true_iff by reflexivity;
         now apply structurallyEqual_primitive).
  - (* sequences *)
    destruct b as [| | | | |ys|]; try other_kind.
    rewrite dequalOn_array, orb_true_iff, andb_true_iff, Nat.eqb_eq.
    intros [E|[Hlen Heach]].
    { apply same_sound in E as <-. apply structurallyEqual_reflexive. }
    apply equal_sequences. apply wf_array in Ha.
    revert ys Hlen Heach. induction xs as [|x xs IHxs]; intros [|y ys] Hlen Heach;
      try discriminate; [constructor|].
    apply Forall_cons in IH as [IHx IH], Ha as [Hx Ha].
    cbn [eachEqual] in Heach. apply andb_true_iff in Heach as [Hd Heach].
    constructor; [now apply IHx|].
    apply IHxs; [exact IH|exact Ha|cbn [length] in Hlen; lia|exact Heach].
  - (* mappings *)
    destruct b as [| | | | | |gs]; try other_kind.
    rewrite dequalOn_object, orb_true_iff, andb_true_iff, eachField_spec.
    cbn [Nat.add].
    intros [E|[_ [Hall Hlen]]].
    { apply same_sound in E as <-. apply structurallyEqual_reflexive. }
    apply wf_object in Ha as [Hndf Hwff].
    rewrite List.Forall_forall in IH, Hwff, Hall.
    assert (Hincl : incl (keys fs) (keys gs)).
    { intros k Hk. apply lookup_keys in Hk as [v Hv]. apply lookup_In in Hv.
      destruct (Hall _ Hv) as [w [Hw _]]. apply lookup_keys. eauto. }
    apply equal_mappings.
    + intros k. split; [apply Hincl|].
      apply (List.NoDup_length_incl Hndf); [|exact Hincl].
      unfold keys in *. rewrite !length_map in *. lia.
    + intros k v w Hv Hw. apply lookup_In in Hv.
      destruct (Hall _ Hv) as [w' [Hw' Hd]]. cbn [fst snd] in *.
      assert (w' = w) by congruence. subst w'.
      exact (IH _ Hv w (Hwff _ Hv) Hd).
Qed.

(** Two values equal in the specification's sense, one of them plain, are
    what [dequal] answers true for. *)
Lemma dequalOn_complete (a : value) :
  forall b, wf a -> wf b -> plain a \/ plain b ->
            structurallyEqual a b -> dequalOn same a b = true.
Proof.
  induction a as [| | b0 | n | s | xs IH | fs IH] using value_induction;
    intros b Ha Hb Hplain;
    try (rewrite dequalOn_primitive, orb_true_iff, andb_true_iff by reflexivity;
         now apply structurallyEqual_primitive).
  - (* sequences *)
    intros E. inversion E as [? ? Hp| |xs' ys Hall|]; subst; [inversion Hp|].
    rewrite dequalOn_array. apply orb_true_iff. right.
    apply wf_array in Ha, Hb.
    assert (Hpl : Forall plain xs \/ Forall plain ys).
    { destruct Hplain as [Hp|Hp]; [left|right]; now apply plain_array. }
    clear Hplain E.
    assert (Hlen : length xs = length ys) by (eapply Forall2_length; eassumption).
    rewrite Hlen, Nat.eqb_refl. cbn [andb]. clear Hlen.
    revert ys Hall Hb Hpl. induction xs as [|x xs IHxs]; intros ys Hall Hb Hpl;
      inversion Hall as [|? y ? ys' Hxy Hrest]; subst; [reflexivity|].
    apply Forall_cons in IH as [IHx IH], Ha as [Hx Ha], Hb as [Hy Hb].
    cbn [eachEqual]. rewrite (IHx y Hx Hy), (IHxs IH Ha ys' Hrest Hb); try reflexivity.
    + destruct Hpl as [Hp|Hp]; apply Forall_cons in Hp as [_ Hp]; auto.
    + destruct Hpl as [Hp|Hp]; apply Forall_cons in Hp as [Hp _]; auto.
    + exact Hxy.
  - (* mappings *)
    intros E. pose proof E as E0.
    inversion E as [? ? Hp| | |fs' gs Hkeys Hvals]; subst; [inversion Hp|].
    rewrite dequalOn_object. apply orb_true_iff. right.
    assert (Hpl : (plainConstructor fs = true /\ Forall (fun kv => plain (snd kv)) fs)
                  \/ (plainConstructor gs = true /\ Forall (fun kv => plain (snd kv)) gs)).
    { destruct Hplain as [Hp|Hp]; [left|right]; now apply plain_object. }
    rewrite sameConstructor_equal; [|tauto|exact E0]. cbn [andb].
    apply eachField_spec. cbn [Nat.add].
    apply wf_object in Ha as [Hndf Hwff], Hb as [Hndg Hwfg].
    rewrite List.Forall_forall in IH, Hwff, Hwfg.
    split.
    + apply List.Forall_forall. intros [k v] Hin. cbn [fst snd].
      assert (Hk : In k (keys gs)) by (apply Hkeys; apply (in_map fst) in Hin; exact Hin).
      apply lookup_keys in Hk as [w Hw]. exists w. split; [exact Hw|].
      apply (IH _ Hin w); [exact (Hwff _ Hin)| | |].
      * apply lookup_In in Hw. exact (Hwfg _ Hw).
      * destruct Hpl as [[_ Hp]|[_ Hp]]; rewrite List.Forall_forall in Hp.
        -- left. exact (Hp _ Hin).
        -- right. exact (Hp _ (lookup_In _ _ _ Hw)).
      * apply (Hvals k); [now apply In_lookup|exact Hw].
    + replace (length fs) with (length (keys fs)) by apply length_map.
      apply Nat.le_antisymm.
      * apply (List.NoDup_incl_length Hndg). intros k Hk. now apply Hkeys.
      * apply (List.NoDup_incl_length Hndf). intros k Hk. now apply Hkeys.
Qed.

(** A truthy value is not [undefined]. *)
Lemma dequalOn_undefined (v : value) :
  truthy v = true -> dequalOn same v VUndefined = false.
Proof. destruct v as [| |b|[|z]|s| |]; try discriminate; reflexivity. Qed.

(** The array loop answers false where one pair of elements differs. *)
Lemma eachEqual_differs (P : value -> value -> Prop) (xs ys : list value) (x : value) :
  Forall2 P xs ys -> In x xs -> (forall y, P x y -> dequalOn same x y = false) ->
  eachEqual same xs ys = false.
Proof.
  intros Hall Hin Hx. induction Hall as [|x0 y0 xs ys Hxy Hall IH]; [destruct Hin|].
  cbn [eachEqual]. destruct Hin as [->|Hin].
  - now rewrite (Hx y0 Hxy).
  - rewrite (IH Hin). apply andb_false_r.
Qed.
End DequalFacts.

Lemma Forall2_diagonal {A} (P : A -> A -> Prop) (xs : list A) (x : A) :
  Forall2 P xs xs -> In x xs -> P x x.
Proof.
  induction xs as [|x0 xs IH]; intros Hall Hin; [destruct Hin|].
  inversion Hall; subst. destruct Hin as [->|Hin]; auto.
Qed.

(** The equality of trees. *)
Lemma value_eqb_refl (a : value) : value_eqb a a = true.
Proof.
  induction a as [| | b0 | [|z] | s | xs IH | fs IH] using value_induction;
    cbn [value_eqb]; try reflexivity.
  - now destruct b0.
  - apply Z.eqb_refl.
  - apply String.eqb_refl.
  - induction IH as [|x xs Hx _ IHxs]; [reflexivity|]. now rewrite Hx, IHxs.
  - induction IH as [|[k v] fs Hv _ IHfs]; [reflexivity|]. cbn [snd] in Hv.
    now rewrite String.eqb_refl, Hv, IHfs.
Qed.

Lemma value_eqb_sound (a : value) : forall b, value_eqb a b = true -> a = b.
Proof.
  induction a as [| | b0 | [|z] | s | xs IH | fs IH] using value_induction;
    intros [| |b1|[|z1]|s1|ys|gs]; cbn [value_eqb]; try discriminate; try reflexivity.
  - intros E. apply Bool.eqb_prop in E. now subst.
  - intros E. apply Z.eqb_eq in E. now subst.
  - intros E. apply String.eqb_eq in E. now subst.
  - intros E. f_equal. revert ys E.
    induction IH as [|x xs Hx _ IHxs]; intros [|y ys] E; try discriminate; [reflexivity|].
    apply andb_true_iff in E as [Exy E]. f_equal; [now apply Hx|now apply IHxs].
  - intros E. f_equal. revert gs E.
    induction IH as [|[k v] fs Hv _ IHfs]; intros [|[k' w] gs] E; try discriminate;
      [reflexivity|].
    apply andb_true_iff in E as [E Erest]. apply andb_true_iff in E as [Ek Evw].
    apply String.eqb_eq in Ek. cbn [snd] in Hv. f_equal; [|now apply IHfs].
    f_equal; [exact Ek|now apply Hv].
Qed.

(** A sequence or a mapping handed over twice is one object. *)
Lemma unchanged_itself (a : value) : is_object a = true -> unchanged a a = true.
Proof.
  intros Ha. unfold unchanged.
  destruct a; try discriminate; cbn [dequalOn identical strict_eq is_object andb orb];
    now rewrite value_eqb_refl.
Qed.

(** X19.  Whatever objects of the heap the two values share: on values
    without a repeated key, one of which holds nothing but a primitive other
    than not-a-number under a key [constructor], [dequal] returns true
    exactly when the two values are equal in the specification's sense:
    sequences of one length with equal elements in order, mappings with one
    key set and equal values under each key, whatever the order of the keys,
    and primitives that are identical or both not-a-number. *)
Theorem dequal_is_structural_equality (same : value -> value -> bool) (a b : value) :
  (forall x y, same x y = true -> x = y) ->
  wf a -> wf b -> plain a \/ plain b ->
  (dequalOn same a b = true <-> Spec.structurallyEqual a b).
Proof.
  intros Hsame Ha Hb Hplain. split.
  - now apply dequalOn_sound.
  - now apply dequalOn_complete.
Qed.

Lemma dequal_is_structural_equality_witness :
  dequal (VObj [("a", VNum NaN); ("b", VArr [VStr "x"; VNull])])
         (VObj [("b", VArr [VStr "x"; VNull]); ("a", VNum NaN)]) = true
  <-> Spec.structurallyEqual
        (VObj [("a", VNum NaN); ("b", VArr [VStr "x"; VNull])])
        (VObj [("b", VArr [VStr "x"; VNull]); ("a", VNum NaN)]).
Proof.
  apply (dequal_is_structural_equality apart); [discriminate|..];
    try left; cbn; (split; [|tauto]);
    repeat constructor; cbn; intuition discriminate.
Defined.

(** C9.  Two mappings built separately that hold a sequence, or
    not-a-number, under a key [constructor] are equal in the specification's
    sense, and [dequal] answers false: the test of the constructors reads
    the key and compares the two values under it with [===], before the
    loop over the keys that compares the values under every other key in
    depth. *)
Lemma constructor_key_breaks_equality :
  wf (VObj [("constructor", VArr [VNum (Int 1)])])
  /\ Spec.structurallyEqual (VObj [("constructor", VArr [VNum (Int 1)])])
                            (VObj [("constructor", VArr [VNum (Int 1)])])
  /\ dequal (VObj [("constructor", VArr [VNum (Int 1)])])
            (VObj [("constructor", VArr [VNum (Int 1)])]) = false
  /\ Spec.structurallyEqual (VObj [("constructor", VNum NaN)])
                            (VObj [("constructor", VNum NaN)])
  /\ dequal (VObj [("constructor", VNum NaN)]) (VObj [("constructor", VNum NaN)]) = false.
Proof.
  split; [|split; [|split; [|split]]];
    try apply structurallyEqual_reflexive; try reflexivity.
  cbn. repeat constructor. intros [].
Qed.

(** ** The loop of [migrateSidebars] *)

Section SidebarsLoop.
Context `{Host}.

Lemma migrateSidebarsLoop_app (pre rest : list string) (st : state) :
  migrateSidebarsLoop (pre ++ rest) st
    = match migrateSidebarsPrefix pre st with
      | Ok true st1 => migrateSidebarsLoop rest st1
      | Ok false st1 => Ok tt st1
      | Throw e => Throw e
      end.
Proof.
  revert st. induction pre as [|f pre IH]; intros st; [reflexivity|].
  cbn [app migrateSidebarsLoop migrateSidebarsPrefix]. unfold bind.
  destruct (migrateSidebarsFile f st) as [[|] st1|e]; [apply IH|reflexivity|reflexivity].
Qed.

(** C10.  When the loop reaches a sidebar file whose YAML document is no
    object (a scalar, [null], or nothing), it returns there: the run of
    [migrateSidebars] ends in the state it had on reaching that file,
    whatever files follow in the listing. *)
Theorem sidebars_stop_at_non_object (pre post : list string) (filePath : string)
    (st st1 : state) (content : string) (data : value) :
  migrateSidebarsPrefix pre st = Ok true st1 ->
  files st1 !! Path.normalize filePath = Some content ->
  yaml_load content = Some data ->
  is_object data = false ->
  migrateSidebarsLoop (pre ++ filePath :: post) st = Ok tt st1.
Proof.
  intros Hpre Hfile Hload Hobj.
  rewrite migrateSidebarsLoop_app, Hpre.
  cbn [migrateSidebarsLoop]. unfold bind at 1.
  unfold migrateSidebarsFile, bind, readFileSync, orThrow, ret.
  rewrite Hfile, Hload. now destruct data.
Qed.
End SidebarsLoop.

Lemma sidebars_stop_at_non_object_witness :
  migrateSidebarsLoop (H := Fixture.host)
    (["./a/sidebars.yaml"] ++ "./b/sidebars.yaml" :: ["./c/sidebars.yaml"])
    Fixture.sidebarsState
  = Ok tt Fixture.sidebarsState.
Proof.
  exact (sidebars_stop_at_non_object (H := Fixture.host)
           ["./a/sidebars.yaml"] ["./c/sidebars.yaml"] "./b/sidebars.yaml"
           Fixture.sidebarsState Fixture.sidebarsState
           "to be written" (VStr "to be written")
           eq_refl eq_refl eq_refl eq_refl).
Defined.

(** ** The writes to the rename registry *)

Section Registry.
(** C2 (as amended).  Recording a mapping never throws: the write is an
    assignment under the normalized original path.  A second write for the
    same original path replaces the target of the first, and the other
    entries stay as they are. *)
Theorem registry_write_overwrites (filePath first second : string) (st : state) :
  (recordRename filePath first;;; recordRename filePath second) st
    = Ok tt (set_renamedFiles (insert (Path.normalize filePath) second) st)
  /\ (forall target,
        exists st', recordRename filePath target st = Ok tt st' /\
          renamedFiles st' !! Path.normalize filePath = Some target /\
          forall k, k <> Path.normalize filePath ->
                    renamedFiles st' !! k = renamedFiles st !! k).
Proof.
  split.
  - unfold recordRename, bind, modify, set_renamedFiles. cbn.
    now rewrite insert_insert_eq.
  - intros target. eexists. split; [reflexivity|]. cbn. split.
    + apply lookup_insert_eq.
    + intros k Hk. now apply lookup_insert_ne.
Qed.
End Registry.

(** C2, as the claim states it, fails: the two versions of one page
    descriptor are two relocations recorded under the same original path; the
    second raises nothing and replaces the target of the first. *)
Lemma second_version_overwrites_first :
  (exists st1,
     migrateVersions (H := Fixture.openApiHost)
       (getOpt Fixture.siteConfigValue "oasDefinitions")
       "./api.page.yaml" [Fixture.firstVersion] Fixture.openApiState = Ok tt st1 /\
     renamedFiles st1 !! "api.page.yaml" = Some "api/@v1/openapi.yaml" /\
     exists st2,
       migrateVersions (H := Fixture.openApiHost)
         (getOpt Fixture.siteConfigValue "oasDefinitions")
         "./api.page.yaml" [Fixture.secondVersion] st1 = Ok tt st2 /\
       renamedFiles st2 !! "api.page.yaml" = Some "api/@v2/openapi.yaml")
  /\ (exists st',
        migrateOpenAPI (H := Fixture.openApiHost)
          ["./siteConfig.yaml"; "./api.page.yaml"] Fixture.openApiState = Ok tt st' /\
        renamedFiles st' = {[ "api.page.yaml" := "api/@v2/openapi.yaml" ]}).
Proof.
  split.
  - eexists. split; [vm_compute; reflexivity|]. split; [vm_compute; reflexivity|].
    eexists. split; vm_compute; reflexivity.
  - eexists. split; vm_compute; reflexivity.
Qed.

(** ** A second pass *)

Section SecondPassFacts.
Context `{Host}.

Lemma take_self (k : nat) (s : string) :
  Str.take (String.length (Str.take k s)) s = Str.take k s.
Proof.
  revert s. induction k as [|k IH]; intros [|a s]; try reflexivity.
  cbn [Str.take String.length]. now rewrite IH.
Qed.

(** Writing every match back gives the text scanned. *)
Lemma written_whole (n : nat) (r : regex) (s : string) :
  forall p skip, written whole (scan n r p s skip) = Str.drop skip s.
Proof.
  induction s as [|a s IH]; intros p [|skip]; cbn [scan Str.drop].
  - destruct (match_at n r p EmptyString) as [h|] eqn:Hm; [|reflexivity].
    destruct (match_at_prefix _ _ _ _ _ Hm) as [m Hw].
    destruct (String.length (whole h)); cbn [written foldr]; rewrite Hw;
      now destruct m.
  - reflexivity.
  - destruct (match_at n r p (String a s)) as [h|] eqn:Hm.
    + destruct (match_at_prefix _ _ _ _ _ Hm) as [m Hw].
      destruct (String.length (whole h)) as [|k] eqn:Hlen.
      * cbn [written foldr]. fold (written whole (scan n r (Some a) s 0)).
        rewrite IH. cbn [Str.drop].
        destruct (whole h); [reflexivity|discriminate Hlen].
      * cbn [written foldr]. fold (written whole (scan n r (Some a) s k)).
        rewrite IH. rewrite Hw in Hlen |- *.
        rewrite <- (take_self m (String a s)), Hlen. cbn [Str.take String.append].
        now rewrite take_drop.
    + cbn [written foldr]. fold (written whole (scan n r (Some a) s 0)).
      now rewrite IH.
  - apply IH.
Qed.







End SecondPassFacts.

Section SecondPass.
Context `{Host}.

End SecondPass.



(** The three patterns and the registry decide whether a second pass is a
    no-op.  A title that holds a marker makes the directive written for it
    a block for the next pass; a link rewritten to a path the registry
    renames is rewritten again, and so is a tag link whose rewrite is a tag
    link; the source of an embed that holds an embed tag makes the partial
    tag an embed for the next pass. *)
Lemma admonition_title_is_rewritten_twice :
  rewriteAdmonitions (Fixture.doc [":::note see :::also here"; "Body"; ":::"])
  = Fixture.doc ["{% admonition type=" +:+ Str.dq +:+ "note" +:+ Str.dq +:+ " name="
                   +:+ Str.dq +:+ "see :::also here" +:+ Str.dq +:+ " %}";
                 "Body"; "{% /admonition %}"]
  /\ test 4 admonitionRegex
       (rewriteAdmonitions (Fixture.doc [":::note see :::also here"; "Body"; ":::"]))
     = true
  /\ rewriteAdmonitions
       (rewriteAdmonitions (Fixture.doc [":::note see :::also here"; "Body"; ":::"]))
     <> rewriteAdmonitions (Fixture.doc [":::note see :::also here"; "Body"; ":::"]).
Proof.
  split; [vm_compute; reflexivity|]. split; [vm_compute; reflexivity|].
  vm_compute. discriminate.
Qed.

Lemma renamed_target_is_rewritten_twice :
  rewriteLinks (H := Fixture.host) "a/b.md" "[x](../c.md)" Fixture.chainedState
    = Ok "[x](../d/c.md)" Fixture.chainedState
  /\ linksSettled (H := Fixture.host) (renamedFiles Fixture.chainedState) "a/b.md"
       "[x](../d/c.md)" = false
  /\ rewriteLinks (H := Fixture.host) "a/b.md" "[x](../d/c.md)" Fixture.chainedState
    = Ok "[x](../e/c.md)" Fixture.chainedState.
Proof. repeat split; vm_compute; reflexivity. Qed.

Lemma tag_link_is_rewritten_twice :
  rewriteLinks (H := Fixture.host) "a/b.md" "[x](/api/tag/Tag/list)"
    (set_renamedFiles (insert "api.page.yaml" "api/openapi.yaml") (initial ∅))
  = Ok "[x](/api/tag/list)"
       (set_renamedFiles (insert "api.page.yaml" "api/openapi.yaml") (initial ∅))
  /\ rewriteLinks (H := Fixture.host) "a/b.md" "[x](/api/tag/list)"
       (set_renamedFiles (insert "api.page.yaml" "api/openapi.yaml") (initial ∅))
     = Ok "[x](/api/list)"
          (set_renamedFiles (insert "api.page.yaml" "api/openapi.yaml") (initial ∅)).
Proof. split; vm_compute; reflexivity. Qed.

Lemma embed_source_is_rewritten_twice :
  exists once st1 twice st2,
    rewriteEmbeds (H := Fixture.host) "a/b.md"
      ("<embed src=" +:+ Str.dq +:+ "<embed src=" +:+ Str.dq +:+ "a" +:+ Str.dq
         +:+ " /> and " +:+ Str.dq +:+ " />") (initial ∅) = Ok once st1
    /\ test 1 embedRegex once = true
    /\ rewriteEmbeds (H := Fixture.host) "a/b.md" once st1 = Ok twice st2
    /\ twice <> once.
Proof.
  eexists _, _, _, _. split; [vm_compute; reflexivity|].
  split; [vm_compute; reflexivity|]. split; [vm_compute; reflexivity|].
  vm_compute. discriminate.
Qed.

(** A frontmatter block that is dropped uncovers the text behind it: when
    that text starts with a block of its own, the next pass rewrites it. *)
Lemma dropped_block_uncovers_a_block :
  exists st1 st2,
    migrateContent (H := Fixture.host) "a/b.md"
      (Fixture.doc ["---"; "permission: admin"; "---";
                    "---"; "permission: editor"; "---"; "Body"]) (initial ∅)
    = Ok (Fixture.doc ["---"; "permission: editor"; "---"; "Body"]) st1
    /\ migrateContent (H := Fixture.host) "a/b.md"
         (Fixture.doc ["---"; "permission: editor"; "---"; "Body"]) st1
       = Ok (Fixture.doc ["Body"]) st2.
Proof. eexists _, _. split; vm_compute; reflexivity. Qed.

(** The pattern of the titled code fence also takes the first line of a
    plain fence for a title: its [\s+] reads the line feed behind the
    language tag. *)
Lemma plain_code_fence_gets_a_title :
  rewriteCodeFences (Fixture.doc ["```js"; "const a = 1;"; "const b = 2;"; "```"])
  = Fixture.doc ["```js {% title=" +:+ Str.dq +:+ "const a = 1;" +:+ Str.dq +:+ " %}";
                 "const b = 2;"; "```"].
Proof. vm_compute. reflexivity. Qed.

(** Behind the file that stops the loop, the third sidebar file of the
    example stays as it was, although the loop would rewrite it. *)
Lemma third_sidebar_alone_is_rewritten :
  exists st',
    migrateSidebarsLoop (H := Fixture.host) ["./c/sidebars.yaml"] Fixture.sidebarsState
      = Ok tt st' /\
    files st' !! "c/sidebars.yaml" <> files Fixture.sidebarsState !! "c/sidebars.yaml".
Proof. eexists. split; [vm_compute; reflexivity|]. vm_compute. discriminate. Qed.

(** * Further properties *)

(** ** [slug] and [slugRoute] *)

Section SlugFacts.
Lemma takeWhile_dropWhile (f : ascii -> bool) (s : string) :
  takeWhile f s +:+ Path.dropWhile f s = s.
Proof.
  induction s as [|a s IH]; simpl; [reflexivity|].
  destruct (f a); simpl; [now rewrite IH|reflexivity].
Qed.

Lemma all_takeWhile (f : ascii -> bool) (s : string) : Str.all f (takeWhile f s) = true.
Proof.
  induction s as [|a s IH]; simpl; [reflexivity|].
  destruct (f a) eqn:E; simpl; [now rewrite E|reflexivity].
Qed.

Lemma stops_dropWhile (f : ascii -> bool) (s : string) : stops f (Path.dropWhile f s) = true.
Proof.
  induction s as [|a s IH]; simpl; [reflexivity|].
  destruct (f a) eqn:E; simpl; [exact IH|now rewrite E].
Qed.

(** What [x+] matches at a position for a class [x]: the whole run. *)
Lemma match_plus_class (f : ascii -> bool) p (a : ascii) (s : string) :
  match_at 0 (plus (Cls f)) p (String a s)
  = if f a then Some {| whole := String a (takeWhile f s); groups := [] |} else None.
Proof.
  destruct (f a) eqn:Ha.
  - unfold match_at.
    rewrite <- (takeWhile_dropWhile f s) at 1.
    change (String a (takeWhile f s +:+ Path.dropWhile f s))
      with (String a (takeWhile f s) +:+ Path.dropWhile f s).
    apply run_plus_class.
    + simpl. now rewrite Ha, all_takeWhile.
    + apply stops_dropWhile.
    + f_equal. f_equal.
      rewrite <- (takeWhile_dropWhile f s) at 1.
      apply consumed_cons.
  - unfold match_at, plus. cbn [run]. now rewrite Ha.
Qed.

Lemma match_plus_class_nil (f : ascii -> bool) p :
  match_at 0 (plus (Cls f)) p EmptyString = None.
Proof. reflexivity. Qed.

Lemma length_takeWhile_cons (f : ascii -> bool) (a : ascii) (s : string) :
  String.length (String a (takeWhile f s)) = S (String.length (takeWhile f s)).
Proof. reflexivity. Qed.

Lemma squeeze_scan (s : string) :
  (forall p, written (fun _ => "-") (scan 0 slugRunRegex p s 0) = squeeze false s)
  /\ (forall p, written (fun _ => "-")
                  (scan 0 slugRunRegex p s (String.length (takeWhile is_not_slug s)))
                = squeeze true s).
Proof.
  unfold slugRunRegex.
  induction s as [|a s [IH0 IH1]]; [split; reflexivity|].
  assert (E0 : forall p, written (fun _ => "-") (scan 0 (plus (Cls is_not_slug)) p (String a s) 0)
                     = squeeze false (String a s)).
  { intros p. cbn [scan]. rewrite match_plus_class.
    destruct (is_not_slug a) eqn:Ha.
    - cbn [whole]. rewrite length_takeWhile_cons.
      cbn [written foldr squeeze]. rewrite Ha.
      change (foldr _ EmptyString ?l) with (written (fun _ => "-") l).
      now rewrite IH1.
    - cbn [written foldr squeeze]. rewrite Ha.
      change (foldr _ EmptyString ?l) with (written (fun _ => "-") l).
      now rewrite IH0. }
  split; [exact E0|].
  intros p. cbn [takeWhile squeeze].
  destruct (is_not_slug a) eqn:Ha.
  - cbn [String.length scan]. apply IH1.
  - cbn [String.length]. rewrite E0. cbn [squeeze]. now rewrite Ha.
Qed.

Lemma edge_scan_inside (x : ascii) (s : string) :
  written (fun _ => EmptyString) (scan 0 slugEdgeRegex (Some x) s 0) = dropLastDash s.
Proof.
  revert x. induction s as [|a s IH]; intros x; [reflexivity|].
  cbn [scan]. unfold match_at, slugEdgeRegex, cat. cbn [foldr run].
  destruct (Ascii.eqb a "-") eqn:Ha.
  - destruct s as [|b s].
    + cbn [Str.is_empty]. cbn. now rewrite Ha.
    + cbn [Str.is_empty]. cbn [written foldr dropLastDash]. rewrite Ha.
      cbn [Str.is_empty andb].
      change (foldr _ EmptyString ?l) with (written (fun _ => EmptyString) l).
      now rewrite IH.
  - cbn [written foldr dropLastDash]. rewrite Ha. cbn [andb].
    change (foldr _ EmptyString ?l) with (written (fun _ => EmptyString) l).
    now rewrite IH.
Qed.

Lemma consumed_one (a : ascii) (s : string) :
  consumed (String a s) s = String a EmptyString.
Proof. apply (consumed_cons a EmptyString s). Qed.

Lemma edge_scan (s : string) :
  replace_with 0 slugEdgeRegex (fun _ => EmptyString) s = trimDash s.
Proof.
  unfold replace_with, pieces.
  change (foldr _ EmptyString ?l) with (written (fun _ => EmptyString) l).
  destruct s as [|a s]; [reflexivity|].
  cbn [scan]. unfold match_at, slugEdgeRegex, cat. cbn [foldr run].
  destruct (Ascii.eqb a "-") eqn:Ha.
  - rewrite consumed_one. cbn [whole String.length written foldr String.append trimDash].
    rewrite Ha.
    change (foldr _ EmptyString ?l) with (written (fun _ => EmptyString) l).
    apply edge_scan_inside.
  - cbn [written foldr trimDash]. rewrite Ha.
    change (foldr _ EmptyString ?l) with (written (fun _ => EmptyString) l).
    rewrite edge_scan_inside. cbn [dropLastDash]. now rewrite Ha.
Qed.

Lemma slug_view (str : string) :
  slug str = trimDash (squeeze false (Str.toLowerCase str)).
Proof.
  unfold slug. rewrite edge_scan. f_equal.
  unfold replace_with, pieces. apply (proj1 (squeeze_scan _)).
Qed.
End SlugFacts.

Section SlugShape.
Lemma prefix_nil (s : string) : String.prefix EmptyString s = true.
Proof. now destruct s. Qed.

Lemma string_prefix_cons (a b : ascii) (L s : string) :
  String.prefix (String a L) (String b s) = Ascii.eqb b a && String.prefix L s.
Proof.
  cbn [String.prefix]. destruct (ascii_dec a b) as [<-|Hne].
  - now rewrite Ascii.eqb_refl.
  - destruct (Ascii.eqb_spec b a); [congruence|reflexivity].
Qed.

Lemma startsWith_dash (a : ascii) (s : string) :
  Str.startsWith (String a s) "-" = Ascii.eqb a "-".
Proof.
  unfold Str.startsWith. now rewrite string_prefix_cons, prefix_nil, andb_true_r.
Qed.

Lemma startsWith_dash_nil : Str.startsWith EmptyString "-" = false.
Proof. reflexivity. Qed.

Lemma endsWith_dash_cons (a : ascii) (s : string) :
  Str.endsWith (String a s) "-"
  = if Str.is_empty s then Ascii.eqb a "-" else Str.endsWith s "-".
Proof.
  destruct s as [|b s]; unfold Str.endsWith; simpl.
  - now destruct (Ascii.eqb a "-").
  - now rewrite Nat.sub_0_r.
Qed.

Lemma includes_dashes_cons (a : ascii) (s : string) :
  Str.includes (String a s) "--"
  = (Ascii.eqb a "-" && Str.startsWith s "-") || Str.includes s "--".
Proof.
  cbn [Str.includes]. f_equal. unfold Str.startsWith. apply string_prefix_cons.
Qed.

Lemma slug_char_cases (a : ascii) :
  is_slug_char a = true ->
  (Ascii.eqb a "-" = true /\ is_not_slug a = true)
  \/ (Ascii.eqb a "-" = false /\ is_not_slug a = false).
Proof.
  unfold is_slug_char, is_not_slug. intros E.
  destruct (Ascii.eqb a "-") eqn:Ha.
  - left. apply Ascii.eqb_eq in Ha. subst a. split; reflexivity.
  - right. rewrite orb_false_r in E. now rewrite E.
Qed.

Lemma not_slug_is_not_dash (a : ascii) : is_not_slug a = false -> Ascii.eqb a "-" = false.
Proof.
  intros E. destruct (Ascii.eqb a "-") eqn:Ha; [|reflexivity].
  apply Ascii.eqb_eq in Ha. subst a. discriminate.
Qed.

Lemma squeeze_chars (b : bool) (s : string) : Str.all is_slug_char (squeeze b s) = true.
Proof.
  revert b. induction s as [|a s IH]; intros b; [reflexivity|].
  cbn [squeeze]. destruct (is_not_slug a) eqn:Ha.
  - destruct b; [apply IH|]. cbn [Str.all]. now rewrite IH.
  - cbn [Str.all]. rewrite IH, andb_true_r.
    unfold is_slug_char. unfold is_not_slug in Ha.
    apply negb_false_iff in Ha. now rewrite Ha.
Qed.

Lemma squeeze_inside_starts (s : string) : Str.startsWith (squeeze true s) "-" = false.
Proof.
  induction s as [|a s IH]; [reflexivity|].
  cbn [squeeze]. destruct (is_not_slug a) eqn:Ha; [exact IH|].
  rewrite startsWith_dash. now apply not_slug_is_not_dash.
Qed.

Lemma squeeze_no_dashes (b : bool) (s : string) : Str.includes (squeeze b s) "--" = false.
Proof.
  revert b. induction s as [|a s IH]; intros b; [reflexivity|].
  cbn [squeeze]. destruct (is_not_slug a) eqn:Ha.
  - destruct b; [apply IH|].
    rewrite includes_dashes_cons, squeeze_inside_starts, IH. reflexivity.
  - rewrite includes_dashes_cons, IH, (not_slug_is_not_dash a Ha). reflexivity.
Qed.

Lemma dropLastDash_chars (P : ascii -> bool) (s : string) :
  Str.all P s = true -> Str.all P (dropLastDash s) = true.
Proof.
  induction s as [|a s IH]; [reflexivity|].
  cbn [Str.all dropLastDash]. intros E. apply andb_true_iff in E as [Ea Es].
  destruct (Ascii.eqb a "-" && Str.is_empty s); [reflexivity|].
  cbn [Str.all]. now rewrite Ea, IH.
Qed.

Lemma trimDash_chars (P : ascii -> bool) (s : string) :
  Str.all P s = true -> Str.all P (trimDash s) = true.
Proof.
  destruct s as [|a s]; [reflexivity|]. intros E.
  unfold trimDash. destruct (Ascii.eqb a "-").
  - apply dropLastDash_chars. cbn [Str.all] in E. now apply andb_true_iff in E as [_ E].
  - now apply dropLastDash_chars.
Qed.

Lemma dropLastDash_starts (s : string) :
  Str.startsWith s "-" = false -> Str.startsWith (dropLastDash s) "-" = false.
Proof.
  destruct s as [|a s]; [reflexivity|].
  rewrite startsWith_dash. intros Ha. cbn [dropLastDash]. rewrite Ha. cbn [andb].
  now rewrite startsWith_dash.
Qed.

Lemma dropLastDash_nil (s : string) :
  dropLastDash s = EmptyString -> s = EmptyString \/ s = "-".
Proof.
  destruct s as [|a s]; [now left|].
  cbn [dropLastDash]. destruct (Ascii.eqb a "-") eqn:Ha; [|discriminate].
  destruct s; [|discriminate]. intros _. right.
  apply Ascii.eqb_eq in Ha. now subst a.
Qed.

Lemma dropLastDash_no_dashes (s : string) :
  Str.includes s "--" = false -> Str.includes (dropLastDash s) "--" = false.
Proof.
  induction s as [|a s IH]; [reflexivity|].
  rewrite includes_dashes_cons. intros E. apply orb_false_iff in E as [E1 E2].
  cbn [dropLastDash]. destruct (Ascii.eqb a "-" && Str.is_empty s); [reflexivity|].
  rewrite includes_dashes_cons, (IH E2), orb_false_r.
  destruct (Ascii.eqb a "-"); [|reflexivity].
  cbn [andb] in *. now apply dropLastDash_starts.
Qed.

Lemma dropLastDash_ends (s : string) :
  Str.includes s "--" = false -> Str.endsWith (dropLastDash s) "-" = false.
Proof.
  induction s as [|a s IH]; [reflexivity|].
  rewrite includes_dashes_cons. intros E. apply orb_false_iff in E as [E1 E2].
  cbn [dropLastDash]. destruct (Ascii.eqb a "-" && Str.is_empty s) eqn:Hlast; [reflexivity|].
  rewrite endsWith_dash_cons.
  destruct (dropLastDash s) as [|b d] eqn:Hd.
  - cbn [Str.is_empty].
    destruct (dropLastDash_nil s Hd) as [->| ->].
    + cbn [Str.is_empty] in Hlast. now rewrite andb_true_r in Hlast.
    + rewrite startsWith_dash in E1. cbn in E1. now rewrite andb_true_r in E1.
  - cbn [Str.is_empty]. now apply IH.
Qed.

Lemma trimDash_shape (s : string) :
  Str.includes s "--" = false ->
  Str.startsWith (trimDash s) "-" = false
  /\ Str.endsWith (trimDash s) "-" = false
  /\ Str.includes (trimDash s) "--" = false.
Proof.
  destruct s as [|a s]; [repeat split; reflexivity|].
  intros E. pose proof E as E'.
  rewrite includes_dashes_cons in E'. apply orb_false_iff in E' as [E1 E2].
  unfold trimDash. destruct (Ascii.eqb a "-") eqn:Ha.
  - cbn [andb] in E1. repeat split.
    + now apply dropLastDash_starts.
    + now apply dropLastDash_ends.
    + now apply dropLastDash_no_dashes.
  - repeat split.
    + apply dropLastDash_starts. now rewrite startsWith_dash.
    + now apply dropLastDash_ends.
    + now apply dropLastDash_no_dashes.
Qed.

Lemma lower_slug_char (a : ascii) : is_slug_char a = true -> lower a = a.
Proof.
  destruct a as [[] [] [] [] [] [] [] []]; intros E; try reflexivity; discriminate E.
Qed.

Lemma toLowerCase_slug_chars (s : string) :
  Str.all is_slug_char s = true -> Str.toLowerCase s = s.
Proof.
  induction s as [|a s IH]; [reflexivity|].
  cbn [Str.all Str.toLowerCase]. intros E. apply andb_true_iff in E as [Ea Es].
  now rewrite (lower_slug_char a Ea), IH.
Qed.

Lemma squeeze_tidy (s : string) :
  Str.all is_slug_char s = true -> Str.includes s "--" = false ->
  squeeze false s = s /\ (Str.startsWith s "-" = false -> squeeze true s = s).
Proof.
  induction s as [|a s IH]; [split; reflexivity|].
  cbn [Str.all]. intros E. apply andb_true_iff in E as [Ea Es].
  rewrite includes_dashes_cons. intros D. apply orb_false_iff in D as [D1 D2].
  destruct (IH Es D2) as [IH0 IH1].
  cbn [squeeze]. rewrite startsWith_dash.
  destruct (slug_char_cases a Ea) as [[Hd Hn]|[Hd Hn]]; rewrite Hn, Hd in *.
  - cbn [andb] in D1. split; [|discriminate].
    apply Ascii.eqb_eq in Hd. subst a. now rewrite (IH1 D1).
  - split; [|intros _]; now rewrite IH0.
Qed.

Lemma dropLastDash_tidy (s : string) :
  Str.endsWith s "-" = false -> dropLastDash s = s.
Proof.
  induction s as [|a s IH]; [reflexivity|].
  rewrite endsWith_dash_cons. cbn [dropLastDash].
  destruct s as [|b s]; cbn [Str.is_empty].
  - intros ->. reflexivity.
  - rewrite andb_false_r. intros E. now rewrite (IH E).
Qed.

Lemma trimDash_tidy (s : string) :
  Str.startsWith s "-" = false -> Str.endsWith s "-" = false -> trimDash s = s.
Proof.
  destruct s as [|a s]; [reflexivity|].
  rewrite startsWith_dash. intros Ha He. unfold trimDash. rewrite Ha.
  now apply dropLastDash_tidy.
Qed.

(** X1.  Whatever the text, its slug holds only lower-case letters, digits
    and dashes, neither starts nor ends with a dash, and has no two dashes
    in a row. *)
Theorem slug_shape (str : string) :
  Str.all is_slug_char (slug str) = true
  /\ Str.startsWith (slug str) "-" = false
  /\ Str.endsWith (slug str) "-" = false
  /\ Str.includes (slug str) "--" = false.
Proof.
  rewrite slug_view.
  split; [apply trimDash_chars, squeeze_chars|].
  apply trimDash_shape, squeeze_no_dashes.
Qed.

Lemma slug_tidy (t : string) :
  Str.all is_slug_char t = true ->
  Str.startsWith t "-" = false -> Str.endsWith t "-" = false ->
  Str.includes t "--" = false ->
  slug t = t.
Proof.
  intros Hc Hs He Hd. rewrite slug_view, (toLowerCase_slug_chars t Hc).
  rewrite (proj1 (squeeze_tidy t Hc Hd)). now apply trimDash_tidy.
Qed.

Lemma slug_view_shape (str : string) :
  Str.all is_slug_char (trimDash (squeeze false (Str.toLowerCase str))) = true
  /\ Str.startsWith (trimDash (squeeze false (Str.toLowerCase str))) "-" = false
  /\ Str.endsWith (trimDash (squeeze false (Str.toLowerCase str))) "-" = false
  /\ Str.includes (trimDash (squeeze false (Str.toLowerCase str))) "--" = false.
Proof.
  split; [apply trimDash_chars, squeeze_chars|].
  apply trimDash_shape, squeeze_no_dashes.
Qed.

(** X2.  A slug is its own slug. *)
Theorem slug_idempotent (str : string) : slug (slug str) = slug str.
Proof.
  rewrite (slug_view str).
  destruct (slug_view_shape str) as (Hc & Hs & He & Hd).
  now apply slug_tidy.
Qed.

Lemma all_not_mem_char (P : ascii -> bool) (x : ascii) (s : string) :
  P x = false -> Str.all P s = true -> Str.mem x s = false.
Proof.
  intros Hx. induction s as [|a s IH]; [reflexivity|].
  cbn [Str.all Str.mem]. intros E. apply andb_true_iff in E as [Ea Es].
  rewrite (IH Es), orb_false_r.
  destruct (Ascii.eqb_spec a x) as [->|]; [congruence|reflexivity].
Qed.

Lemma join_cons (sep x y : string) (l : list string) :
  String.concat sep (x :: y :: l) = x +:+ sep +:+ String.concat sep (y :: l).
Proof. reflexivity. Qed.

Lemma split_join_plain (c : ascii) (l : list string) :
  l <> [] ->
  List.Forall (fun x => Str.mem c x = false) l ->
  Str.split c (Str.join (String c EmptyString) l) = l.
Proof.
  intros Hne Hall. induction Hall as [|x l Hx Hl IH]; [congruence|].
  destruct l as [|y l].
  - cbn. now apply split_plain.
  - unfold Str.join in *. rewrite join_cons.
    change (String c EmptyString +:+ ?t) with (String c t).
    rewrite split_app, (split_plain c x Hx), IH by discriminate. reflexivity.
Qed.

(** X3.  The segments of a slugged route are the slugs of the segments of
    the route, in order: [slugRoute] keeps the number of segments, and an
    empty segment stays empty. *)
Theorem slugRoute_segments (str : string) :
  Str.split "/" (slugRoute str) = map slug (Str.split "/" str)
  /\ length (Str.split "/" (slugRoute str)) = length (Str.split "/" str).
Proof.
  assert (E : Str.split "/" (slugRoute str) = map slug (Str.split "/" str)).
  { unfold slugRoute. apply split_join_plain.
    - pose proof (split_nonempty "/" str). destruct (Str.split "/" str); [congruence|discriminate].
    - apply List.Forall_forall. intros x Hx. apply in_map_iff in Hx as (y & <- & _).
      apply (all_not_mem_char is_slug_char); [reflexivity|].
      rewrite slug_view. apply (proj1 (slug_view_shape y)). }
  split; [exact E|]. rewrite E. apply length_map.
Qed.
End SlugShape.

(** The slugs of two names, and of a route. *)
Lemma slug_examples :
  slug "API v2.0 (beta)" = "api-v2-0-beta"
  /\ slug "--Get  Started--" = "get-started"
  /\ slugRoute "/Docs/My API/x.page" = "/docs/my-api/x-page".
Proof. repeat split; vm_compute; reflexivity. Qed.

(** ** [getFsInfo] *)

Section FsInfoFacts.
Lemma readEntry_dir (dir name : string) (entries : list dirent) :
  readEntry dir (DirEntry name entries)
  = if skippedDirectory name then [] else readdirDeep (dir +:+ "/" +:+ name) entries.
Proof.
  cbn [readEntry]. destruct (skippedDirectory name); [reflexivity|].
  unfold readdirDeep. induction entries as [|e l IH]; [reflexivity|].
  cbn [flat_map]. now rewrite IH.
Qed.

Lemma readEntry_located (e : dirent) :
  forall dir p,
    In p (readEntry dir e) <->
    exists dirs name, located [e] dirs name /\ p = pathBelow dir dirs name.
Proof.
  induction e as [name|name entries IH] using dirent_induction; intros dir p.
  - cbn [readEntry In]. split.
    + intros [<-|[]]. exists [], name. split; [|reflexivity].
      apply located_here. now left.
    + intros (dirs & name' & Hl & ->). left.
      inversion Hl as [? ? Hin|? d children dirs' ? Hin Hs Hl']; subst.
      * destruct Hin as [E|[]]. now inversion E.
      * destruct Hin as [E|[]]. discriminate E.
  - rewrite readEntry_dir. split.
    + destruct (skippedDirectory name) eqn:Hs; [intros []|].
      unfold readdirDeep. rewrite in_flat_map. intros (e & He & Hp).
      rewrite List.Forall_forall in IH.
      apply (IH e He) in Hp as (dirs & name' & Hl & ->).
      exists (name :: dirs), name'. split; [|reflexivity].
      apply (located_below _ name entries); [now left|exact Hs|].
      inversion Hl as [? ? Hin|? d children dirs' ? Hin Hs' Hl']; subst.
      * destruct Hin as [->|[]]. now apply located_here.
      * destruct Hin as [->|[]]. now apply (located_below _ d children).
    + intros (dirs & name' & Hl & ->).
      inversion Hl as [? ? Hin|? d children dirs' ? Hin Hs Hl']; subst.
      * destruct Hin as [E|[]]. discriminate E.
      * destruct Hin as [E|[]]. inversion E; subst d children. rewrite Hs.
        unfold readdirDeep. rewrite in_flat_map.
        rewrite List.Forall_forall in IH.
        inversion Hl' as [? ? Hin'|? d' children' dirs'' ? Hin' Hs' Hl'']; subst.
        -- exists (FileEntry name'). split; [exact Hin'|].
           apply (IH _ Hin'). exists [], name'. split; [|reflexivity].
           apply located_here. now left.
        -- exists (DirEntry d' children'). split; [exact Hin'|].
           apply (IH _ Hin'). exists (d' :: dirs''), name'. split; [|reflexivity].
           apply (located_below _ d' children'); [now left|exact Hs'|exact Hl''].
Qed.

(** X4.  The walk lists a path exactly when it is the path, below the
    directory walked, of an entry that is no directory and lies under no
    directory named [.git], [node_modules] or [public]: the directory, then
    the names on the way, each behind a slash. *)
Theorem readdirDeep_lists_located (dir : string) (entries : list dirent) (p : string) :
  In p (readdirDeep dir entries) <->
  exists dirs name, located entries dirs name /\ p = pathBelow dir dirs name.
Proof.
  unfold readdirDeep. rewrite in_flat_map. split.
  - intros (e & He & Hp). apply readEntry_located in Hp as (dirs & name & Hl & ->).
    exists dirs, name. split; [|reflexivity].
    inversion Hl as [? ? Hin|? d children dirs' ? Hin Hs Hl']; subst.
    + destruct Hin as [->|[]]. now apply located_here.
    + destruct Hin as [->|[]]. now apply (located_below _ d children).
  - intros (dirs & name & Hl & ->).
    inversion Hl as [? ? Hin|? d children dirs' ? Hin Hs Hl']; subst.
    + exists (FileEntry name). split; [exact Hin|].
      apply readEntry_located. exists [], name. split; [|reflexivity].
      apply located_here. now left.
    + exists (DirEntry d children). split; [exact Hin|].
      apply readEntry_located. exists (d :: dirs'), name. split; [|reflexivity].
      apply (located_below _ d children); [now left|exact Hs|exact Hl'].
Qed.
End FsInfoFacts.

(** The walk of the example: nothing below [.git] or below the directory
    [public], and the file named [public] is listed. *)
Lemma readdirDeep_example :
  readdirDeep "." Sample.tree
  = ["./package.json"; "./docs/intro.md"; "./docs/guide.mdx"; "./public"]
  /\ getFsInfo "." Sample.tree mdRegex = ["./docs/intro.md"].
Proof. split; vm_compute; reflexivity. Qed.

Section SuffixPatterns.
Lemma startsWith_split (s L : string) :
  Str.startsWith s L = true -> s = L +:+ Str.drop (String.length L) s.
Proof.
  unfold Str.startsWith. revert s. induction L as [|a L IH]; intros s E; [reflexivity|].
  destruct s as [|b s]; [discriminate E|].
  rewrite string_prefix_cons in E. apply andb_true_iff in E as [Eb E].
  apply Ascii.eqb_eq in Eb. subst b. cbn [String.length Str.drop String.append].
  f_equal. now apply IH.
Qed.

Lemma drop_length_self (L : string) : Str.drop (String.length L) L = EmptyString.
Proof. induction L as [|a L IH]; [reflexivity|exact IH]. Qed.

(** [/L$/] matches at a position exactly when the rest of the text is [L]. *)
Lemma match_suffix (L s : string) p :
  match_at 0 (cat [lit L; Eol]) p s
  = if String.eqb s L then Some {| whole := L; groups := [] |} else None.
Proof.
  unfold match_at, cat. cbn [foldr].
  change (run (Seq ?r1 ?r2) ?p ?s ?c ?k)
    with (run r1 p s c (fun p' s' c' => run r2 p' s' c' k)).
  destruct (Str.startsWith s L) eqn:Hs.
  - rewrite (startsWith_split s L Hs) at 1. rewrite run_lit.
    cbn [run]. destruct (Str.drop (String.length L) s) as [|b rest] eqn:Hd.
    + cbn [Str.is_empty]. rewrite (startsWith_split s L Hs), Hd, append_nil_r.
      rewrite String.eqb_refl. f_equal. f_equal.
      replace L with (L +:+ EmptyString) at 1 by apply append_nil_r.
      apply consumed_app.
    + cbn [Str.is_empty].
      destruct (String.eqb_spec s L) as [->|]; [|reflexivity].
      rewrite drop_length_self in Hd. discriminate Hd.
  - rewrite run_lit_fail by exact Hs.
    destruct (String.eqb_spec s L) as [->|]; [|reflexivity].
    replace L with (L +:+ EmptyString) in Hs at 1 by apply append_nil_r.
    now rewrite startsWith_app in Hs.
Qed.

Lemma endsWith_cons (a : ascii) (s L : string) :
  String a s <> L -> Str.endsWith (String a s) L = Str.endsWith s L.
Proof.
  intros Hne. unfold Str.endsWith. cbn [String.length].
  destruct (Nat.leb_spec (String.length L) (String.length s)) as [Hle|Hgt].
  - replace (String.length L <=? S (String.length s)) with true
      by (symmetry; apply Nat.leb_le; lia).
    replace (S (String.length s) - String.length L)
      with (S (String.length s - String.length L)) by lia.
    reflexivity.
  - rewrite andb_false_l.
    destruct (Nat.leb_spec (String.length L) (S (String.length s))) as [Hle|Hgt'];
      [|reflexivity].
    replace (S (String.length s) - String.length L) with 0 by lia.
    cbn [andb Str.drop]. now apply String.eqb_neq.
Qed.

Lemma endsWith_self (L : string) : Str.endsWith L L = true.
Proof.
  unfold Str.endsWith. rewrite Nat.leb_refl, Nat.sub_diag. cbn [andb Str.drop].
  apply String.eqb_refl.
Qed.

Lemma endsWith_nil (L : string) : Str.endsWith EmptyString L = Str.is_empty L.
Proof. now destruct L. Qed.

(** [/L$/.test(s)] is [s.endsWith(L)] *)
Lemma test_suffix (L s : string) :
  test 0 (cat [lit L; Eol]) s = Str.endsWith s L.
Proof.
  unfold test, exec. generalize (@None ascii) as p.
  induction s as [|a s IH]; intros p.
  - cbn [exec_from]. rewrite match_suffix, endsWith_nil.
    destruct L; reflexivity.
  - cbn [exec_from]. rewrite match_suffix.
    destruct (String.eqb_spec (String a s) L) as [<-|Hne].
    + now rewrite endsWith_self.
    + rewrite (endsWith_cons a s L Hne), <- (IH (Some a)).
      now destruct (exec_from 0 (cat [lit L; Eol]) (Some a) s) as [[? ?]|].
Qed.

Lemma listFiles_suffix (L : string) (paths : list string) :
  listFiles (cat [lit L; Eol]) paths
  = filter (fun file => Str.endsWith file L = true) paths.
Proof.
  unfold listFiles. apply list_filter_iff. intros file. now rewrite test_suffix.
Qed.

(** X5.  For each of the four patterns the script lists files with,
    [fsInfo.list] returns the paths that end with the text of the pattern
    ([.md], [.mdx], [sidebars.yaml], [.page.yaml]), in the order of the
    walk. *)
Theorem list_selects_by_suffix (paths : list string) :
  listFiles mdRegex paths = filter (fun file => Str.endsWith file ".md" = true) paths
  /\ listFiles mdxRegex paths = filter (fun file => Str.endsWith file ".mdx" = true) paths
  /\ listFiles sidebarsRegex paths
     = filter (fun file => Str.endsWith file "sidebars.yaml" = true) paths
  /\ listFiles pageYamlRegex paths
     = filter (fun file => Str.endsWith file ".page.yaml" = true) paths.
Proof. repeat split; apply listFiles_suffix. Qed.
End SuffixPatterns.
(** ** [processFrontMatter] *)

Section FrontMatterExtras.
Context `{Host}.

Lemma rewriteFrontMatter_result fields filePath st fm changed st' :
  rewriteFrontMatter (VObj fields) filePath st = Ok (fm, changed) st' ->
  fm = VObj (rewrittenFields fields)
  /\ changed = truthy (fieldOf fields "permission") || truthy (fieldOf fields "redirectFrom")
  /\ st' = pushIgnore fields filePath (recordedPermission fields filePath st).
Proof.
  unfold rewriteFrontMatter, bind, orThrow, ret, modify, throw, pushIgnore,
    recordedPermission, rewrittenFields.
  cbn [get]. fold (fieldOf fields "permission").
  destruct (truthy (fieldOf fields "permission")) eqn:Hp; cbn [fst snd deleteProp get].
  - set (fields1 := remove "permission" fields).
    assert (Hrf : fieldOf fields1 "redirectFrom" = fieldOf fields "redirectFrom")
      by (unfold fieldOf, fields1; now rewrite lookup_remove_ne).
    assert (Hex : fieldOf fields1 "exclude" = fieldOf fields "exclude")
      by (unfold fieldOf, fields1; now rewrite lookup_remove_ne).
    fold (fieldOf fields1 "redirectFrom"). rewrite Hrf.
    destruct (truthy (fieldOf fields "redirectFrom")) eqn:Hr.
    + destruct (fieldOf fields "redirectFrom") eqn:Hv; try discriminate.
      cbn [fst snd assignProp deleteProp get].
      set (fields2 := remove "redirectFrom" (assign "redirects" _ fields1)).
      assert (Hex2 : fieldOf fields2 "exclude" = fieldOf fields "exclude").
      { unfold fieldOf, fields2. rewrite lookup_remove_ne by discriminate.
        rewrite lookup_assign_ne by discriminate. exact Hex. }
      fold (fieldOf fields2 "exclude"). rewrite Hex2.
      destruct (truthy (fieldOf fields "exclude")); intros [= <- <- <-]; auto.
    + cbn [fst snd get]. fold (fieldOf fields1 "exclude"). rewrite Hex.
      destruct (truthy (fieldOf fields "exclude")); intros [= <- <- <-];
        destruct (fieldOf fields "redirectFrom"); try discriminate; auto.
  - fold (fieldOf fields "redirectFrom").
    destruct (truthy (fieldOf fields "redirectFrom")) eqn:Hr.
    + destruct (fieldOf fields "redirectFrom") eqn:Hv; try discriminate.
      cbn [fst snd assignProp deleteProp get].
      set (fields2 := remove "redirectFrom" (assign "redirects" _ fields)).
      assert (Hex2 : fieldOf fields2 "exclude" = fieldOf fields "exclude").
      { unfold fieldOf, fields2. rewrite lookup_remove_ne by discriminate.
        now rewrite lookup_assign_ne by discriminate. }
      fold (fieldOf fields2 "exclude"). rewrite Hex2.
      destruct (truthy (fieldOf fields "exclude")); intros [= <- <- <-]; auto.
    + cbn [fst snd get]. fold (fieldOf fields "exclude").
      destruct (truthy (fieldOf fields "exclude")); intros [= <- <- <-];
        destruct (fieldOf fields "redirectFrom"); try discriminate; auto.
Qed.






(** X7.  When the frontmatter processor returns for a file (its path is not
    the text [__proto__]), every key of the mapping other than
    [permission], [redirectFrom] and [redirects] has the value it had.  A
    truthy [permission] is deleted from the mapping and recorded for the
    file; a falsy one stays and nothing is recorded.  The registry of
    renames, the files, the API descriptions, the folders of partials and
    the instructions are as they were. *)
Theorem frontmatter_keys_are_kept fields filePath st fm changed st' :
  filePath <> "__proto__" ->
  rewriteFrontMatter (VObj fields) filePath st = Ok (fm, changed) st' ->
  exists fields',
    fm = VObj fields' /\
    (forall k, k <> "permission" -> k <> "redirectFrom" -> k <> "redirects" ->
               lookup k fields' = lookup k fields) /\
    (truthy (fieldOf fields "permission") = true ->
       lookup "permission" fields' = None /\
       fileRbacPermissions st' !! filePath = Some (fieldOf fields "permission")) /\
    (truthy (fieldOf fields "permission") = false ->
       lookup "permission" fields' = lookup "permission" fields /\
       fileRbacPermissions st' = fileRbacPermissions st) /\
    renamedFiles st' = renamedFiles st /\ files st' = files st /\ apis st' = apis st /\
    partialFolders st' = partialFolders st /\
    migrationInstructions st' = migrationInstructions st.
Proof.
  intros _ Hrw.
  destruct (rewriteFrontMatter_result _ _ _ _ _ _ Hrw) as (-> & -> & ->).
  exists (rewrittenFields fields). split; [reflexivity|].
  assert (Hkeep : forall k, k <> "redirectFrom" -> k <> "redirects" ->
            lookup k (rewrittenFields fields)
            = lookup k (if truthy (fieldOf fields "permission")
                        then remove "permission" fields else fields)).
  { intros k H2 H3. unfold rewrittenFields.
    destruct (fieldOf fields "redirectFrom"); try reflexivity.
    rewrite lookup_remove_ne by congruence. now rewrite lookup_assign_ne by congruence. }
  split; [|split; [|split]].
  - intros k H1 H2 H3. rewrite Hkeep by assumption.
    destruct (truthy (fieldOf fields "permission")); [|reflexivity].
    now rewrite lookup_remove_ne by congruence.
  - intros Hp. rewrite Hkeep by discriminate. rewrite Hp. split; [apply lookup_remove_eq|].
    unfold pushIgnore, recordedPermission. rewrite Hp.
    destruct (truthy (fieldOf fields "exclude")); cbn; apply lookup_insert_eq.
  - intros Hp. rewrite Hkeep by discriminate. rewrite Hp. split; [reflexivity|].
    unfold pushIgnore, recordedPermission. rewrite Hp.
    now destruct (truthy (fieldOf fields "exclude")).
  - unfold pushIgnore, recordedPermission.
    destruct (truthy (fieldOf fields "exclude")), (truthy (fieldOf fields "permission"));
      repeat split; reflexivity.
Qed.

Lemma rewriteFrontMatter_not_a_sequence fields filePath st :
  truthy (fieldOf fields "redirectFrom") = true ->
  (forall urls, fieldOf fields "redirectFrom" <> VArr urls) ->
  rewriteFrontMatter (VObj fields) filePath st
  = Throw (TypeError "frontmatter.redirectFrom.reduce is not a function").
Proof.
  intros Hr Hna.
  unfold rewriteFrontMatter, bind, orThrow, ret, modify, throw.
  cbn [get]. fold (fieldOf fields "permission").
  destruct (truthy (fieldOf fields "permission")); cbn [fst snd deleteProp get].
  - set (fields1 := remove "permission" fields).
    assert (Hrf : fieldOf fields1 "redirectFrom" = fieldOf fields "redirectFrom")
      by (unfold fieldOf, fields1; now rewrite lookup_remove_ne).
    fold (fieldOf fields1 "redirectFrom"). rewrite Hrf, Hr.
    destruct (fieldOf fields "redirectFrom") as [| | | | |urls|]; try reflexivity.
    now destruct (Hna urls).
  - fold (fieldOf fields "redirectFrom"). rewrite Hr.
    destruct (fieldOf fields "redirectFrom") as [| | | | |urls|]; try reflexivity.
    now destruct (Hna urls).
Qed.

(** X9.  A frontmatter block whose YAML is empty or null makes the processor
    throw the type error of reading [permission] of null; a block whose
    [redirectFrom] is truthy and no sequence makes it throw the type error
    of calling [reduce] on it. *)
Theorem frontmatter_type_errors content filePath st pre h fm :
  exec 1 frontMatterRegex content = Some (pre, h) ->
  yaml_load (Str.replaceAll TAB "  " (group_text 1 h)) = Some fm ->
  (fm = VNull \/ fm = VUndefined ->
     processFrontMatter content filePath st = Throw (nullProperty "permission"))
  /\ (forall fields,
        fm = VObj fields ->
        truthy (fieldOf fields "redirectFrom") = true ->
        (forall urls, fieldOf fields "redirectFrom" <> VArr urls) ->
        processFrontMatter content filePath st
          = Throw (TypeError "frontmatter.redirectFrom.reduce is not a function")).
Proof.
  intros Hexec Hload.
  assert (E : processFrontMatter content filePath st
              = match rewriteFrontMatter fm filePath st with
                | Ok rewritten st' =>
                    Ok {| frontmatter := fst rewritten; changed := snd rewritten;
                          len := Some (String.length (whole h)) |} st'
                | Throw e => Throw e
                end).
  { unfold processFrontMatter. rewrite Hexec. unfold bind, orThrow, ret.
    now rewrite Hload. }
  rewrite E. split.
  - intros [->| ->]; reflexivity.
  - intros fields -> Hr Hna. now rewrite rewriteFrontMatter_not_a_sequence.
Qed.

(** X6.  A frontmatter block is looked for at the start of the text only:
    a text that does not start with three dashes has no frontmatter, no
    change and no block length, and nothing is recorded; and a block length
    that is reported is at most the length of the text. *)
Theorem frontmatter_only_at_start content filePath st :
  (Str.startsWith content "---" = false ->
   processFrontMatter content filePath st
   = Ok {| frontmatter := VNull; changed := false; len := None |} st)
  /\ (forall r st' n,
        processFrontMatter content filePath st = Ok r st' -> len r = Some n ->
        Str.startsWith content "---" = true /\ n <= String.length content).
Proof.
  split.
  - intros Hs. unfold processFrontMatter.
    now rewrite (exec_frontMatter_without_marker content Hs).
  - intros r st' n. unfold processFrontMatter.
    destruct (exec 1 frontMatterRegex content) as [[pre h]|] eqn:Hexec.
    + destruct (exec_frontMatter_start _ _ _ Hexec) as [-> Hsplit].
      unfold bind, orThrow, ret.
      destruct (yaml_load _) as [fm|]; [|discriminate].
      destruct (rewriteFrontMatter fm filePath st) as [[fm' c] st1|]; [|discriminate].
      intros [= <- <-]. cbn [len]. intros [= <-]. split.
      * destruct (Str.startsWith content "---") eqn:Hs; [reflexivity|].
        rewrite (exec_frontMatter_without_marker content Hs) in Hexec. discriminate.
      * apply (f_equal String.length) in Hsplit. rewrite length_append in Hsplit. lia.
    + unfold ret. intros [= <- <-]. discriminate.
Qed.
End FrontMatterExtras.


Lemma frontmatter_keys_are_kept_witness :
  exists fields',
    VObj [("title", VStr "Notes")] = VObj fields' /\
    lookup "title" fields' = Some (VStr "Notes") /\
    lookup "permission" fields' = None /\
    fileRbacPermissions
      (set_fileRbacPermissions (insert "notes.md" (VStr "admin")) (initial ∅))
      !! "notes.md" = Some (VStr "admin").
Proof.
  destruct (frontmatter_keys_are_kept
              [("title", VStr "Notes"); ("permission", VStr "admin")]
              "notes.md" (initial ∅) (VObj [("title", VStr "Notes")]) true
              (set_fileRbacPermissions (insert "notes.md" (VStr "admin")) (initial ∅))
              ltac:(discriminate) eq_refl)
    as (fields' & Hfm & Hkeep & Htruthy & _).
  exists fields'. split; [exact Hfm|]. split.
  - rewrite (Hkeep "title"); [reflexivity | discriminate ..].
  - exact (Htruthy eq_refl).
Defined.

Lemma frontmatter_type_errors_witness :
  processFrontMatter (H := Fixture.host)
    (Fixture.doc ["---"; "redirectFrom: /old"; "---"; "Body"]) "notes.md" (initial ∅)
  = Throw (TypeError "frontmatter.redirectFrom.reduce is not a function").
Proof.
  refine (proj2 (frontmatter_type_errors (H := Fixture.host)
                   (Fixture.doc ["---"; "redirectFrom: /old"; "---"; "Body"])
                   "notes.md" (initial ∅) EmptyString
                   {| whole := Fixture.doc ["---"; "redirectFrom: /old"; "---"];
                      groups := [Some "redirectFrom: /old"] |}
                   (VObj [("redirectFrom", VStr "/old")]) eq_refl eq_refl)
            [("redirectFrom", VStr "/old")] eq_refl eq_refl _).
  intros urls E. discriminate E.
Defined.

Lemma frontmatter_only_at_start_witness :
  processFrontMatter (H := Fixture.host)
    (Fixture.doc ["# Notes"; "---"; "permission: admin"; "---"]) "notes.md" (initial ∅)
  = Ok {| frontmatter := VNull; changed := false; len := None |} (initial ∅).
Proof.
  exact (proj1 (frontmatter_only_at_start (H := Fixture.host)
                  (Fixture.doc ["# Notes"; "---"; "permission: admin"; "---"])
                  "notes.md" (initial ∅)) eq_refl).
Defined.

(** ** [dequal] *)

Section DequalEquivalence.
Import Spec.

Lemma strict_eq_eq (a b : value) : strict_eq a b = true -> a = b.
Proof.
  destruct a as [| |x|[|x]|x| |], b as [| |y|[|y]|y| |]; cbn; try discriminate; try reflexivity.
  - intros E. apply Bool.eqb_prop in E. now subst.
  - intros E. apply Z.eqb_eq in E. now subst.
  - intros E. apply String.eqb_eq in E. now subst.
Qed.

Lemma strict_eq_refl_primitive (a : value) :
  is_object a = false -> is_nan a = false -> strict_eq a a = true.
Proof.
  destruct a as [| |x|[|x]|x| |]; cbn; try discriminate; try reflexivity; intros _ _.
  - now destruct x.
  - apply Z.eqb_refl.
  - apply String.eqb_refl.
Qed.

(** The relation of the specification is symmetric and transitive. *)
Lemma structurallyEqual_symmetric (a : value) :
  forall b, structurallyEqual a b -> structurallyEqual b a.
Proof.
  induction a as [| | b0 | n | s | xs IH | fs IH] using value_induction;
    intros b E; inversion E as [? ? Hp| |xs' ys Hall|fs' gs Hkeys Hvals]; subst;
    try (inversion Hp; subst; apply equal_primitives; constructor);
    try apply equal_nan.
  - apply equal_sequences. clear E.
    induction Hall as [|x y xs ys Hxy Hall IHall]; constructor.
    + apply Forall_cons in IH as [IHx _]. now apply IHx.
    + apply Forall_cons in IH as [_ IH]. now apply IHall.
  - apply equal_mappings.
    + intros k. symmetry. apply Hkeys.
    + intros k w v Hw Hv. rewrite List.Forall_forall in IH.
      apply (IH _ (lookup_In _ _ _ Hv)). exact (Hvals k v w Hv Hw).
Qed.

Lemma structurallyEqual_transitive (a : value) :
  forall b c, structurallyEqual a b -> structurallyEqual b c -> structurallyEqual a c.
Proof.
  induction a as [| | b0 | n | s | xs IH | fs IH] using value_induction;
    intros b c Eab Ebc;
    inversion Eab as [? ? Hp| |xs' ys Hall|fs' gs Hkeys Hvals]; subst;
    try (inversion Hp; subst; exact Ebc); try exact Ebc.
  - inversion Ebc as [? ? Hp| |ys' zs Hall'|]; subst; [inversion Hp|].
    apply equal_sequences. clear Eab Ebc.
    revert zs Hall'. induction Hall as [|x y xs ys Hxy Hall IHall]; intros zs Hall';
      inversion Hall' as [|? z ? zs' Hyz Hrest]; subst; constructor.
    + apply Forall_cons in IH as [IHx _]. exact (IHx y z Hxy Hyz).
    + apply Forall_cons in IH as [_ IH]. now apply IHall.
  - inversion Ebc as [? ? Hp| | |gs' hs Hkeys' Hvals']; subst; [inversion Hp|].
    apply equal_mappings.
    + intros k. rewrite Hkeys. apply Hkeys'.
    + intros k v u Hv Hu. rewrite List.Forall_forall in IH.
      assert (Hk : In k (keys gs)).
      { apply Hkeys, lookup_keys. exists v. exact Hv. }
      apply lookup_keys in Hk as [w Hw].
      exact (IH _ (lookup_In _ _ _ Hv) w u (Hvals k v w Hv Hw) (Hvals' k w u Hw Hu)).
Qed.

(** Whatever objects of the heap the values share: on values that
    hold no key twice and nothing but a primitive other than not-a-number
    under a key [constructor], [dequal] is an equivalence: every value
    equals itself ([NaN] included), the answer does not depend on the order
    of the two arguments, and two values equal to a third one are equal. *)
Theorem dequal_is_an_equivalence (same : value -> value -> bool) (a b c : value) :
  (forall x y, same x y = true -> x = y) ->
  wf a -> wf b -> wf c -> plain a -> plain b -> plain c ->
  dequalOn same a a = true
  /\ dequalOn same a b = dequalOn same b a
  /\ (dequalOn same a b = true -> dequalOn same b c = true -> dequalOn same a c = true).
Proof.
  intros Hsame Ha Hb Hc Pa Pb Pc. split; [|split].
  - apply dequalOn_complete; auto using structurallyEqual_reflexive.
  - destruct (dequalOn same a b) eqn:Eab, (dequalOn same b a) eqn:Eba; try reflexivity.
    + apply dequalOn_sound in Eab; [|assumption..].
      apply structurallyEqual_symmetric in Eab.
      apply (dequalOn_complete same) in Eab; auto. congruence.
    + apply dequalOn_sound in Eba; [|assumption..].
      apply structurallyEqual_symmetric in Eba.
      apply (dequalOn_complete same) in Eba; auto. congruence.
  - intros Eab Ebc.
    apply dequalOn_sound in Eab, Ebc; [|assumption..].
    apply dequalOn_complete; auto.
    exact (structurallyEqual_transitive a b c Eab Ebc).
Qed.
End DequalEquivalence.

Lemma dequal_is_an_equivalence_witness :
  dequal (VObj [("a", VNum NaN); ("b", VArr [VStr "x"])])
         (VObj [("a", VNum NaN); ("b", VArr [VStr "x"])]) = true
  /\ dequal (VObj [("a", VNum NaN); ("b", VArr [VStr "x"])])
            (VObj [("b", VArr [VStr "x"]); ("a", VNum NaN)])
     = dequal (VObj [("b", VArr [VStr "x"]); ("a", VNum NaN)])
              (VObj [("a", VNum NaN); ("b", VArr [VStr "x"])])
  /\ (dequal (VObj [("a", VNum NaN); ("b", VArr [VStr "x"])])
             (VObj [("b", VArr [VStr "x"]); ("a", VNum NaN)]) = true ->
      dequal (VObj [("b", VArr [VStr "x"]); ("a", VNum NaN)])
             (VObj [("a", VNum NaN); ("b", VArr [VStr "x"])]) = true ->
      dequal (VObj [("a", VNum NaN); ("b", VArr [VStr "x"])])
             (VObj [("a", VNum NaN); ("b", VArr [VStr "x"])]) = true).
Proof.
  apply (dequal_is_an_equivalence apart
           (VObj [("a", VNum NaN); ("b", VArr [VStr "x"])])
           (VObj [("b", VArr [VStr "x"]); ("a", VNum NaN)])
           (VObj [("a", VNum NaN); ("b", VArr [VStr "x"])])); [discriminate|..];
    cbn; (split; [|tauto]); repeat constructor; cbn; intuition discriminate.
Defined.

(** ** [transformSidebarItems] and [migrateSidebars], further *)

Section SidebarExtras.
Import Spec.
Context `{Host}.
Variables (reg : gmap string string) (filePath : string).

(** A legacy group and what the transformer makes of it differ, whatever
    objects they share. *)
Lemma legacy_group_is_changed (same : value -> value -> bool)
    (fields : list (string * value)) (pages children : value) :
  (forall x y, same x y = true -> x = y) ->
  lookup "pages" fields = Some pages -> truthy pages = true ->
  dequalOn same (VObj fields)
    (VObj (assign "items" children (assign "pages" VUndefined fields)))
  = false.
Proof.
  intros Hsame Hpages Htruthy.
  assert (Hnew : lookup "pages" (assign "items" children (assign "pages" VUndefined fields))
                 = Some VUndefined).
  { rewrite lookup_assign_ne by discriminate. apply lookup_assign_eq. }
  rewrite dequalOn_object. apply orb_false_iff. split.
  - destruct (same _ _) eqn:E; [|reflexivity].
    apply Hsame in E. injection E as E. rewrite <- E, Hpages in Hnew.
    injection Hnew as ->. discriminate Htruthy.
  - apply andb_false_iff. right.
    destruct (eachField same _ fields 0) eqn:E; [|reflexivity].
    apply eachField_spec in E as [Hall _]. rewrite List.Forall_forall in Hall.
    destruct (Hall _ (lookup_In _ _ _ Hpages)) as [w [Hw Hd]]. cbn [fst snd] in *.
    rewrite Hnew in Hw. injection Hw as <-.
    now rewrite (dequalOn_undefined same pages Htruthy) in Hd.
Qed.

(** X13.  A node with a truthy [pages] whose entries are transformed gets
    them as its [items]; its [pages] is set to undefined, every other key
    keeps its value, and the node no longer equals the one read. *)
Theorem legacy_group_becomes_items (fields : list (string * value)) (pages items' : value) :
  lookup "pages" fields = Some pages -> truthy pages = true ->
  transformSidebarItems reg filePath pages = Done items' ->
  exists fields',
    transformSidebarItem reg filePath (VObj fields) (childrenOf reg filePath (VObj fields))
      = Done (VObj fields') /\
    lookup "pages" fields' = Some VUndefined /\
    lookup "items" fields' = Some items' /\
    (forall k, k <> "pages" -> k <> "items" -> lookup k fields' = lookup k fields) /\
    dequal (VObj fields) (VObj fields') = false.
Proof.
  intros Hpages Htruthy Hchildren.
  exists (assign "items" items' (assign "pages" VUndefined fields)).
  split; [|split; [|split; [|split]]].
  - cbn [transformSidebarItem childrenOf]. rewrite Hpages.
    cbn [default from_option id]. now rewrite Htruthy, Hchildren.
  - rewrite lookup_assign_ne by discriminate. apply lookup_assign_eq.
  - apply lookup_assign_eq.
  - intros k H1 H2. rewrite lookup_assign_ne by congruence.
    now rewrite lookup_assign_ne by congruence.
  - apply (legacy_group_is_changed apart fields pages items'); [discriminate|assumption..].
Qed.

(** A sequence with a legacy group among its nodes and what the transformer
    makes of it differ, whatever objects they share. *)
Lemma sidebar_with_group_is_changed (same : value -> value -> bool)
    (items : list value) (fields : list (string * value)) (newData : value) :
  (forall x y, same x y = true -> x = y) ->
  In (VObj fields) items ->
  truthy (fieldOf fields "pages") = true ->
  transformSidebarItems reg filePath (VArr items) = Done newData ->
  dequalOn same (VArr items) newData = false.
Proof.
  intros Hsame Hin Htruthy Hnew.
  rewrite transformSidebarItems_array in Hnew.
  destruct (mapItems reg filePath items) as [items'|] eqn:Hmap; [|discriminate].
  injection Hnew as <-.
  unfold fieldOf in Htruthy.
  destruct (lookup "pages" fields) as [pages|] eqn:Hpages; [|discriminate Htruthy].
  cbn [default from_option id] in Htruthy.
  assert (Hitem : forall y,
            transformSidebarItem reg filePath (VObj fields)
              (childrenOf reg filePath (VObj fields)) = Done y ->
            dequalOn same (VObj fields) y = false).
  { intros y Hy. cbn [transformSidebarItem childrenOf] in Hy. rewrite Hpages in Hy.
    cbn [default from_option id] in Hy. rewrite Htruthy in Hy.
    destruct (transformSidebarItems reg filePath pages) as [children|] eqn:Hc; [|discriminate].
    injection Hy as <-. now apply legacy_group_is_changed with (pages := pages). }
  pose proof (mapItems_Forall2 _ _ _ _ Hmap) as Hall.
  rewrite dequalOn_array. apply orb_false_iff. split.
  - destruct (same _ _) eqn:E; [|reflexivity].
    apply Hsame in E. injection E as <-.
    pose proof (Hitem _ (Forall2_diagonal _ _ _ Hall Hin)) as Hd.
    assert (Ht : dequalOn same (VObj fields) (VObj fields) = false) by exact Hd.
    clear Hd. exfalso.
    cbn [transformSidebarItem childrenOf] in Hall.
    pose proof (Forall2_diagonal _ _ _ Hall Hin) as Hy. cbn beta in Hy.
    cbn [transformSidebarItem childrenOf] in Hy. rewrite Hpages in Hy.
    cbn [default from_option id] in Hy. rewrite Htruthy in Hy.
    destruct (transformSidebarItems reg filePath pages) as [children|]; [|discriminate].
    injection Hy as Hy.
    assert (Hp : lookup "pages" (assign "items" children (assign "pages" VUndefined fields))
                 = Some VUndefined).
    { rewrite lookup_assign_ne by discriminate. apply lookup_assign_eq. }
    rewrite Hy, Hpages in Hp. injection Hp as ->. discriminate Htruthy.
  - apply andb_false_iff. right.
    exact (eachEqual_differs same _ items items' (VObj fields) Hall Hin Hitem).
Qed.

(** X16.  A sidebar that is a sequence with a legacy group among its nodes
    differs from its transformation, so the file is written again, with the
    dump of the transformed sequence. *)
Theorem sidebar_with_group_is_rewritten (st : state) (content : string)
    (items : list value) (fields : list (string * value)) (newData : value) :
  renamedFiles st = reg ->
  files st !! Path.normalize filePath = Some content ->
  yaml_load content = Some (VArr items) ->
  In (VObj fields) items ->
  truthy (fieldOf fields "pages") = true ->
  transformSidebarItems reg filePath (VArr items) = Done newData ->
  dequal (VArr items) newData = false
  /\ migrateSidebarsFile filePath st
     = Ok true (set_files (insert (Path.normalize filePath) (yaml_dump newData)) st).
Proof.
  intros Hreg Hfile Hload Hin Htruthy Hnew.
  split.
  - apply (sidebar_with_group_is_changed apart items fields); [discriminate|assumption..].
  - unfold migrateSidebarsFile, bind, readFileSync, orThrow, ret.
    rewrite Hfile, Hload. unfold transformSidebar, liftOutcome.
    rewrite Hreg, Hnew. unfold unchanged.
    rewrite (sidebar_with_group_is_changed value_eqb items fields newData
               value_eqb_sound Hin Htruthy Hnew).
    reflexivity.
Qed.
Lemma plainNode_stays (node : value) :
  plainNode reg filePath node ->
  forall children, transformSidebarItem reg filePath node children = Done node.
Proof.
  destruct node as [| | | | | |fields]; cbn [plainNode]; try tauto; try reflexivity.
  intros [Hnp Hpage] children. cbn [transformSidebarItem].
  unfold noPages in Hnp. rewrite Hnp.
  destruct (lookup "page" fields) as [[| | | |page| |]|]; cbn [default from_option id];
    try tauto; try reflexivity.
  destruct Hpage as (Hw & Hy & Hreg). rewrite Hw, Hy.
  destruct (Str.is_empty page); cbn [negb]; [reflexivity|].
  now rewrite Hreg.
Qed.

Lemma mapItems_plain (items : list value) :
  Forall (plainNode reg filePath) items -> mapItems reg filePath items = Done items.
Proof.
  induction 1 as [|item items Hitem _ IH]; [reflexivity|].
  cbn [mapItems]. now rewrite (plainNode_stays item Hitem), IH.
Qed.

(** X15.  A sidebar that is a sequence of plain nodes (no truthy [pages], a
    [page] that is no wildcard, no page descriptor and not in the registry
    of renames) and holds no key twice is its own transformation, and its
    file is not written: the state after the migration of the file is the
    state before it. *)
Theorem plain_sidebar_is_untouched (st : state) (content : string) (items : list value) :
  renamedFiles st = reg ->
  files st !! Path.normalize filePath = Some content ->
  yaml_load content = Some (VArr items) ->
  wf (VArr items) ->
  Forall (plainNode reg filePath) items ->
  transformSidebarItems reg filePath (VArr items) = Done (VArr items)
  /\ migrateSidebarsFile filePath st = Ok true st.
Proof.
  intros Hreg Hfile Hload Hwf Hplain.
  assert (Hsame : transformSidebarItems reg filePath (VArr items) = Done (VArr items))
    by now rewrite transformSidebarItems_array, mapItems_plain.
  split; [exact Hsame|].
  unfold migrateSidebarsFile, bind, readFileSync, orThrow, ret.
  rewrite Hfile, Hload. unfold transformSidebar, liftOutcome.
  rewrite Hreg, Hsame. now rewrite unchanged_itself.
Qed.

Lemma append_cancel_r (a b c : string) : a +:+ c = b +:+ c -> a = b.
Proof.
  intros E.
  assert (Hlen : String.length a = String.length b).
  { apply (f_equal String.length) in E. rewrite !length_append in E. lia. }
  rewrite <- (take_length_app a c), E, Hlen. apply take_length_app.
Qed.

(** X14.  A node without a legacy group whose [page] ends with a slash and
    a star, the text before them no page descriptor, becomes a directory
    node: [directory] is the text before the wildcard, [page] is set to
    undefined, and every other key keeps its value. *)
Theorem wildcard_page_becomes_directory (fields : list (string * value)) (dir : string)
    (children : outcome value) :
  noPages fields ->
  lookup "page" fields = Some (VStr (dir +:+ "/*")) ->
  Str.endsWith dir ".page.yaml" = false ->
  exists fields',
    transformSidebarItem reg filePath (VObj fields) children = Done (VObj fields') /\
    lookup "directory" fields' = Some (VStr dir) /\
    lookup "page" fields' = Some VUndefined /\
    (forall k, k <> "page" -> k <> "directory" -> lookup k fields' = lookup k fields).
Proof.
  intros Hnp Hpage Hdir. unfold noPages in Hnp.
  assert (Hw : Str.endsWith (dir +:+ "/*") "/*" = true)
    by (apply endsWith_spec; now exists dir).
  assert (Hy : Str.endsWith (dir +:+ "/*") ".page.yaml/*" = false).
  { destruct (Str.endsWith (dir +:+ "/*") ".page.yaml/*") eqn:E; [|reflexivity].
    apply endsWith_spec in E as [pre E].
    change ".page.yaml/*" with (".page.yaml" +:+ "/*") in E.
    rewrite <- append_assoc in E. apply append_cancel_r in E.
    assert (Hd : Str.endsWith dir ".page.yaml" = true)
      by (apply endsWith_spec; now exists pre).
    congruence. }
  assert (Hcut : Str.drop_end 2 (dir +:+ "/*") = dir).
  { unfold Str.drop_end. rewrite length_append. cbn [String.length].
    replace (String.length dir + 2 - 2) with (String.length dir) by lia.
    apply take_length_app. }
  exists (assign "directory" (VStr dir) (assign "page" VUndefined fields)).
  split; [|split; [|split]].
  - cbn [transformSidebarItem]. rewrite Hnp, Hpage. cbn [default from_option id].
    now rewrite Hw, Hy, Hcut.
  - apply lookup_assign_eq.
  - rewrite lookup_assign_ne by discriminate. apply lookup_assign_eq.
  - intros k H1 H2. rewrite lookup_assign_ne by congruence.
    now rewrite lookup_assign_ne by congruence.
Qed.
End SidebarExtras.

Lemma legacy_group_becomes_items_witness :
  exists fields',
    transformSidebarItem (H := Fixture.host) ∅ "./docs/sidebars.yaml" (VObj Sample.legacyGroup)
      (childrenOf (H := Fixture.host) ∅ "./docs/sidebars.yaml" (VObj Sample.legacyGroup))
      = Done (VObj fields') /\
    lookup "pages" fields' = Some VUndefined /\
    lookup "items" fields' = Some (VArr [VObj [("page", VStr "a.md")]]) /\
    (forall k, k <> "pages" -> k <> "items" -> lookup k fields' = lookup k Sample.legacyGroup) /\
    dequal (VObj Sample.legacyGroup) (VObj fields') = false.
Proof.
  exact (legacy_group_becomes_items (H := Fixture.host) ∅ "./docs/sidebars.yaml"
           Sample.legacyGroup (VArr [VObj [("page", VStr "a.md")]])
           (VArr [VObj [("page", VStr "a.md")]]) eq_refl eq_refl eq_refl).
Defined.

Lemma sidebar_with_group_is_rewritten_witness :
  dequal (VArr [VObj Sample.legacyGroup])
    (VArr [VObj [ ("group", VStr "API"); ("pages", VUndefined);
                  ("items", VArr [VObj [("page", VStr "a.md")]]) ]]) = false
  /\ migrateSidebarsFile (H := Sample.groupsHost) "./docs/sidebars.yaml" Sample.groupsState
     = Ok true
         (set_files
            (insert (Path.normalize "./docs/sidebars.yaml")
               (yaml_dump (Host := Sample.groupsHost)
                  (VArr [VObj [ ("group", VStr "API"); ("pages", VUndefined);
                                ("items", VArr [VObj [("page", VStr "a.md")]]) ]])))
            Sample.groupsState).
Proof.
  exact (sidebar_with_group_is_rewritten (H := Sample.groupsHost) ∅ "./docs/sidebars.yaml"
           Sample.groupsState "groups" [VObj Sample.legacyGroup] Sample.legacyGroup
           (VArr [VObj [ ("group", VStr "API"); ("pages", VUndefined);
                         ("items", VArr [VObj [("page", VStr "a.md")]]) ]])
           eq_refl eq_refl eq_refl (or_introl eq_refl) eq_refl eq_refl).
Defined.

Lemma plain_sidebar_is_untouched_witness :
  transformSidebarItems (H := Fixture.host) ∅ "./docs/sidebars.yaml"
    (VArr [VObj [("page", VStr "intro.md")]; VObj [("page", VStr "guide.md")]])
  = Done (VArr [VObj [("page", VStr "intro.md")]; VObj [("page", VStr "guide.md")]])
  /\ migrateSidebarsFile (H := Fixture.host) "./docs/sidebars.yaml" Sample.plainState
     = Ok true Sample.plainState.
Proof.
  refine (plain_sidebar_is_untouched (H := Fixture.host) ∅ "./docs/sidebars.yaml"
            Sample.plainState (Fixture.doc ["- page: intro.md"; "- page: guide.md"])
            [VObj [("page", VStr "intro.md")]; VObj [("page", VStr "guide.md")]]
            eq_refl eq_refl eq_refl _ _).
  - cbn; repeat split; repeat constructor; cbn; intuition discriminate.
  - repeat constructor; intros _; reflexivity.
Defined.

Lemma wildcard_page_becomes_directory_witness :
  exists fields',
    transformSidebarItem (H := Fixture.host) ∅ "./docs/sidebars.yaml"
      (VObj [("label", VStr "Guides"); ("page", VStr ("guides" +:+ "/*"))])
      (Raise (TypeError "items.map is not a function"))
      = Done (VObj fields') /\
    lookup "directory" fields' = Some (VStr "guides") /\
    lookup "page" fields' = Some VUndefined /\
    (forall k, k <> "page" -> k <> "directory" ->
               lookup k fields'
               = lookup k [("label", VStr "Guides"); ("page", VStr ("guides" +:+ "/*"))]).
Proof.
  exact (wildcard_page_becomes_directory (H := Fixture.host) ∅ "./docs/sidebars.yaml"
           [("label", VStr "Guides"); ("page", VStr ("guides" +:+ "/*"))] "guides"
           (Raise (TypeError "items.map is not a function")) eq_refl eq_refl eq_refl).
Defined.

Section SidebarTrees.
Context `{Host}.

(** The file a tree of a mapping of sidebars is written to. *)
Lemma forEachTree_writes (filePath : string) (entries : list (string * value)) :
  forall idx st st',
    forEachTree filePath entries idx st = Ok tt st' ->
    renamedFiles st' = renamedFiles st /\
    forall p, files st' !! p <> files st !! p ->
      exists i key data,
        entries !! i = Some (key, data) /\
        p = Path.normalize
              (Path.join [ Path.dirname filePath;
                           (if idx + i =? 0 then EmptyString else slug key +:+ ".")
                             +:+ "sidebars.yaml" ]).
Proof.
  induction entries as [|[key data] entries IH]; intros idx st st'; cbn [forEachTree].
  - intros [= <-]. split; [reflexivity|]. intros p Hp. congruence.
  - unfold bind at 1. unfold transformSidebar, liftOutcome.
    destruct (transformSidebarItems (renamedFiles st) filePath data) as [newData|];
      [|discriminate].
    unfold bind at 1.
    destruct (unchanged data newData).
    + unfold ret at 1. intros E. destruct (IH _ _ _ E) as [Hreg Hfiles].
      split; [exact Hreg|]. intros p Hp.
      destruct (Hfiles p Hp) as (i & k & d & Hi & ->).
      exists (S i), k, d. split; [exact Hi|].
      now replace (idx + S i) with (S idx + i) by lia.
    + unfold writeFileSync, modify. intros E. destruct (IH _ _ _ E) as [Hreg Hfiles].
      split; [exact Hreg|]. intros p Hp.
      destruct (decide (files st' !! p = files (set_files (insert (Path.normalize
                  (Path.join [Path.dirname filePath;
                              (if idx =? 0 then EmptyString else slug key +:+ ".")
                                +:+ "sidebars.yaml"])) (yaml_dump newData)) st) !! p))
        as [Heq|Hne].
      * exists 0, key, data. split; [reflexivity|]. rewrite Nat.add_0_r.
        destruct (decide (p = Path.normalize
                    (Path.join [Path.dirname filePath;
                                (if idx =? 0 then EmptyString else slug key +:+ ".")
                                  +:+ "sidebars.yaml"]))) as [->|Hp']; [reflexivity|].
        exfalso. apply Hp. rewrite Heq. cbn [files set_files].
        now rewrite lookup_insert_ne by congruence.
      * destruct (Hfiles p Hne) as (i & k & d & Hi & ->).
        exists (S i), k, d. split; [exact Hi|].
        now replace (idx + S i) with (S idx + i) by lia.
Qed.

(** X17.  When a sidebar file that holds a mapping of trees is migrated,
    the only files written are beside it: [sidebars.yaml] for the first
    tree, and the slug of the key followed by [.sidebars.yaml] for each
    other tree.  No other file changes. *)
Theorem sidebar_trees_are_written_beside (filePath content : string)
    (entries : list (string * value)) (st st' : state) :
  files st !! Path.normalize filePath = Some content ->
  yaml_load content = Some (VObj entries) ->
  migrateSidebarsFile filePath st = Ok true st' ->
  forall p, files st' !! p <> files st !! p ->
    exists i key data,
      entries !! i = Some (key, data) /\
      p = Path.normalize
            (Path.join [ Path.dirname filePath;
                         (if i =? 0 then EmptyString else slug key +:+ ".")
                           +:+ "sidebars.yaml" ]).
Proof.
  intros Hfile Hload. unfold migrateSidebarsFile, bind, readFileSync, orThrow, ret.
  rewrite Hfile, Hload.
  destruct (forEachTree filePath entries 0 st) as [[] st1|] eqn:Htrees; [|discriminate].
  intros [= <-]. exact (proj2 (forEachTree_writes filePath entries 0 st st1 Htrees)).
Qed.
End SidebarTrees.

Lemma sidebar_trees_are_written_beside_witness :
  exists i key data,
    Sample.trees !! i = Some (key, data) /\
    "docs/api-docs.sidebars.yaml"
    = Path.normalize
        (Path.join [ Path.dirname "./docs/sidebars.yaml";
                     (if i =? 0 then EmptyString else slug key +:+ ".")
                       +:+ "sidebars.yaml" ]).
Proof.
  refine (sidebar_trees_are_written_beside (H := Sample.treesHost)
            "./docs/sidebars.yaml" "trees" Sample.trees Sample.treesState
            (set_files
               (insert "docs/api-docs.sidebars.yaml"
                  (yaml_dump (Host := Sample.treesHost)
                     (VArr [VObj [ ("group", VStr "API"); ("pages", VUndefined);
                                   ("items", VArr [VObj [("page", VStr "a.md")]]) ]])))
               (set_files
                  (insert "docs/sidebars.yaml"
                     (yaml_dump (Host := Sample.treesHost)
                        (VArr [VObj [ ("group", VStr "API"); ("pages", VUndefined);
                                      ("items", VArr [VObj [("page", VStr "a.md")]]) ]])))
                  Sample.treesState))
            eq_refl eq_refl eq_refl "docs/api-docs.sidebars.yaml" _).
  intros E. vm_compute in E. discriminate E.
Defined.

(** ** What a migration leaves alone *)

Section Frames.
Variable R : state -> state -> Prop.
Hypothesis R_refl : forall st, R st st.
Hypothesis R_trans : forall a b c, R a b -> R b c -> R a c.

Lemma keepsTo_ret {A} (a : A) : keepsTo R (ret a).
Proof. intros st a' st' [= _ <-]. apply R_refl. Qed.

Lemma keepsTo_throw {A} (e : error) : keepsTo R (@throw A e).
Proof. intros st a st' E. discriminate E. Qed.

Lemma keepsTo_bind {A B} (m : M A) (f : A -> M B) :
  keepsTo R m -> (forall a, keepsTo R (f a)) -> keepsTo R (bind m f).
Proof.
  intros Hm Hf st b st'. unfold bind.
  destruct (m st) as [a st1|] eqn:E; [|discriminate].
  intros E'. exact (R_trans _ _ _ (Hm _ _ _ E) (Hf _ _ _ _ E')).
Qed.

Lemma keepsTo_modify (g : state -> state) :
  (forall st, R st (g st)) -> keepsTo R (modify g).
Proof. intros Hg st a st' E. injection E as _ <-. apply Hg. Qed.

Lemma keepsTo_get_state : keepsTo R get_state.
Proof. intros st a st' [= _ <-]. apply R_refl. Qed.

Lemma keepsTo_orThrow {A} (e : error) (o : option A) : keepsTo R (orThrow e o).
Proof. destruct o; [apply keepsTo_ret|apply keepsTo_throw]. Qed.

Lemma keepsTo_readFileSync (path : string) : keepsTo R (readFileSync path).
Proof.
  intros st a st'. unfold readFileSync.
  destruct (files st !! Path.normalize path); [|discriminate].
  intros [= _ <-]. apply R_refl.
Qed.

Lemma keepsTo_liftOutcome {A} (f : state -> outcome A) : keepsTo R (liftOutcome f).
Proof.
  intros st a st'. unfold liftOutcome. destruct (f st); [|discriminate].
  intros [= _ <-]. apply R_refl.
Qed.

Lemma keepsTo_forM_ {A} (l : list A) (f : A -> M unit) :
  (forall x, keepsTo R (f x)) -> keepsTo R (forM_ l f).
Proof.
  intros Hf. induction l as [|x l IH]; cbn [forM_].
  - apply keepsTo_ret.
  - apply keepsTo_bind; [apply Hf|intros _; exact IH].
Qed.

Lemma keepsTo_replaceM (f : hit -> M string) (ps : list piece) :
  (forall h, keepsTo R (f h)) -> keepsTo R (replaceM f ps).
Proof.
  intros Hf. induction ps as [|[c|h] ps IH]; cbn [replaceM].
  - apply keepsTo_ret.
  - apply keepsTo_bind; [exact IH|intros rest; apply keepsTo_ret].
  - apply keepsTo_bind; [apply Hf|intros x].
    apply keepsTo_bind; [exact IH|intros rest; apply keepsTo_ret].
Qed.
End Frames.

Ltac frame_step :=
  match goal with
  | |- keepsTo _ (bind _ _) => apply keepsTo_bind; try assumption; [|intros ?]
  | |- keepsTo _ (ret _) => apply keepsTo_ret; assumption
  | |- keepsTo _ (throw _) => apply keepsTo_throw
  | |- keepsTo _ get_state => apply keepsTo_get_state; assumption
  | |- keepsTo _ (orThrow _ _) => apply keepsTo_orThrow; assumption
  | |- keepsTo _ (readFileSync _) => apply keepsTo_readFileSync; assumption
  | |- keepsTo _ (liftOutcome _) => apply keepsTo_liftOutcome; assumption
  | |- keepsTo _ (forM_ _ _) => apply keepsTo_forM_; try assumption; intros ?
  | |- keepsTo _ (replaceM _ _) => apply keepsTo_replaceM; try assumption; intros ?
  | |- keepsTo _ (if ?b then _ else _) => destruct b
  | |- keepsTo _ (match ?x with _ => _ end) => destruct x
  end.

Section MarkdownFrame.
Context `{Host}.

Lemma sameButNotes_refl st : sameButNotes st st.
Proof. repeat split. Qed.

Lemma sameButNotes_trans a b c : sameButNotes a b -> sameButNotes b c -> sameButNotes a c.
Proof.
  intros (A1 & A2 & A3 & A4 & A5) (B1 & B2 & B3 & B4 & B5).
  repeat split; congruence.
Qed.

Lemma grows_refl st : grows st st.
Proof.
  repeat split; auto.
  - exists []. now rewrite app_nil_r.
  - exists EmptyString. now rewrite append_nil_r.
Qed.

Lemma grows_trans a b c : grows a b -> grows b c -> grows a c.
Proof.
  intros ([l1 A1] & A2 & A3 & [s1 A4]) ([l2 B1] & B2 & B3 & [s2 B4]).
  repeat split; auto.
  - exists (l1 ++ l2). now rewrite B1, A1, app_assoc.
  - exists (s1 +:+ s2). now rewrite B4, A4, append_assoc.
Qed.

Lemma In_setAdd (x y : string) (l : list string) : In y l -> In y (setAdd x l).
Proof.
  intros Hy. unfold setAdd. destruct (existsb _ l); [exact Hy|].
  apply in_or_app. now left.
Qed.

Lemma migrateContent_notes (filePath content : string) :
  keepsTo sameButNotes (migrateContent filePath content)
  /\ keepsTo grows (migrateContent filePath content).
Proof.
  pose proof sameButNotes_refl as R1. pose proof sameButNotes_trans as T1.
  pose proof grows_refl as R2. pose proof grows_trans as T2.
  split.
  - unfold migrateContent, transformMarkup, rewriteEmbeds, rewriteLinks,
      processFrontMatter, rewriteFrontMatter, embedReplacer, linkReplacer.
    repeat frame_step; try (apply keepsTo_modify; intros st; repeat split).
  - unfold migrateContent, transformMarkup, rewriteEmbeds, rewriteLinks,
      processFrontMatter, rewriteFrontMatter, embedReplacer, linkReplacer.
    repeat frame_step;
      try (apply keepsTo_modify; intros st; repeat split; cbn; auto;
           try (exists []; now rewrite app_nil_r);
           try (exists EmptyString; now rewrite append_nil_r);
           try (eexists; reflexivity);
           try (intros x; apply In_setAdd)).
Qed.
Lemma sameButNotesAndTexts_refl st : sameButNotesAndTexts st st.
Proof. unfold sameButNotesAndTexts. intuition. Qed.

Lemma sameButNotesAndTexts_trans a b c :
  sameButNotesAndTexts a b -> sameButNotesAndTexts b c -> sameButNotesAndTexts a c.
Proof.
  intros (A1 & A2 & A3 & A4 & A5) (B1 & B2 & B3 & B4 & B5).
  split; [congruence|]. split; [congruence|]. split; [congruence|]. split; [congruence|].
  intros k. now rewrite B5, A5.
Qed.

Lemma grows_set_files (g : gmap string string -> gmap string string) (st : state) :
  grows st (set_files g st).
Proof. apply (grows_refl st). Qed.

Lemma migrateMarkdownFile_frame (filePath : string) :
  keepsTo (fun st st' => sameButNotesAndTexts st st' /\ grows st st')
    (migrateMarkdownFile filePath).
Proof.
  intros st a st'. unfold migrateMarkdownFile, bind, readFileSync.
  destruct (files st !! Path.normalize filePath) as [content|] eqn:Hfile; [|discriminate].
  destruct (migrateContent filePath content st) as [newContent st1|] eqn:Hc; [|discriminate].
  destruct (migrateContent_notes filePath content) as [Hn Hg].
  apply Hn in Hc as Hsame. apply Hg in Hc as Hgrows.
  destruct Hsame as (S1 & S2 & S3 & S4 & S5).
  destruct (String.eqb newContent content).
  - intros [= _ <-]. split; [|exact Hgrows].
    split; [exact S1|]. split; [exact S2|]. split; [exact S3|]. split; [exact S4|].
    intros k. now rewrite S5.
  - unfold writeFileSync, modify. intros E. injection E as _ <-. split.
    + split; [exact S1|]. split; [exact S2|]. split; [exact S3|]. split; [exact S4|].
      intros k. cbn [files set_files]. rewrite S5.
      destruct (decide (k = Path.normalize filePath)) as [->|Hne].
      * rewrite lookup_insert_eq, Hfile. split; eauto.
      * now rewrite lookup_insert_ne by congruence.
    + apply (grows_trans _ _ _ Hgrows). apply grows_set_files.
Qed.

(** X12.  A markdown migration that returns leaves the registry of renames,
    the API descriptions and the instructions as they were, creates no file
    and deletes none, only appends to the paths to ignore, and drops no
    folder of partials. *)
Theorem markdown_migration_frame (paths : list string) (st st' : state) :
  migrateMarkdown paths st = Ok tt st' ->
  renamedFiles st' = renamedFiles st
  /\ apis st' = apis st
  /\ migrationInstructions st' = migrationInstructions st
  /\ (forall k, is_Some (files st' !! k) <-> is_Some (files st !! k))
  /\ (exists more, ignore st' = ignore st ++ more)
  /\ (forall x, In x (partialFolders st) -> In x (partialFolders st')).
Proof.
  intros E.
  assert (Hall : keepsTo (fun st st' => sameButNotesAndTexts st st' /\ grows st st')
                   (migrateMarkdown paths)).
  { unfold migrateMarkdown. apply keepsTo_forM_.
    - intros s. split; [apply sameButNotesAndTexts_refl|apply grows_refl].
    - intros a b c [A1 A2] [B1 B2].
      split; [exact (sameButNotesAndTexts_trans _ _ _ A1 B1)|exact (grows_trans _ _ _ A2 B2)].
    - apply migrateMarkdownFile_frame. }
  destruct (Hall _ _ _ E) as [(S1 & S2 & S3 & _ & S5) (G1 & G2 & _ & _)].
  auto 10.
Qed.
End MarkdownFrame.

Section OtherFrames.
Context `{Host}.

Lemma sameButDisk_refl st : sameButDisk st st.
Proof. unfold sameButDisk. intuition. Qed.

Lemma sameButDisk_trans a b c : sameButDisk a b -> sameButDisk b c -> sameButDisk a c.
Proof.
  intros (A1 & A2 & A3 & A4 & A5 & A6 & A7 & A8) (B1 & B2 & B3 & B4 & B5 & B6 & B7 & B8).
  unfold sameButDisk.
  split; [congruence|]. split; [congruence|]. split; [congruence|]. split; [congruence|].
  split; [congruence|]. split; [congruence|]. split; [congruence|]. auto.
Qed.

Lemma writeFileSync_sameButDisk (path content : string) :
  keepsTo sameButDisk (writeFileSync path content).
Proof.
  apply keepsTo_modify. intros st. unfold sameButDisk. cbn.
  repeat (split; [reflexivity|]). intros k Hk.
  destruct (decide (k = Path.normalize path)) as [->|Hne].
  - rewrite lookup_insert_eq. eauto.
  - now rewrite lookup_insert_ne by congruence.
Qed.

Lemma forEachTree_sameButDisk (filePath : string) (entries : list (string * value)) :
  forall idx, keepsTo sameButDisk (forEachTree filePath entries idx).
Proof.
  pose proof sameButDisk_refl as R1. pose proof sameButDisk_trans as T1.
  induction entries as [|[key data] entries IH]; intros idx; cbn [forEachTree].
  - now apply keepsTo_ret.
  - unfold transformSidebar. repeat frame_step; try apply writeFileSync_sameButDisk.
    all: apply IH.
Qed.

Lemma migrateSidebarsFile_sameButDisk (filePath : string) :
  keepsTo sameButDisk (migrateSidebarsFile filePath).
Proof.
  pose proof sameButDisk_refl as R1. pose proof sameButDisk_trans as T1.
  unfold migrateSidebarsFile, transformSidebar.
  repeat frame_step; try apply writeFileSync_sameButDisk;
    try apply forEachTree_sameButDisk.
Qed.

(** X18.  A sidebar migration that returns changes nothing but the files:
    the registry of renames, the permissions, the paths to ignore, the
    folders of partials, the API descriptions and the instructions are as
    they were, and no file is deleted. *)
Theorem sidebar_migration_frame (paths : list string) (st st' : state) :
  migrateSidebars paths st = Ok tt st' ->
  renamedFiles st' = renamedFiles st
  /\ fileRbacPermissions st' = fileRbacPermissions st
  /\ ignore st' = ignore st
  /\ partialFolders st' = partialFolders st
  /\ apis st' = apis st
  /\ migrationInstructions st' = migrationInstructions st
  /\ (forall k, is_Some (files st !! k) -> is_Some (files st' !! k)).
Proof.
  intros E.
  assert (Hall : forall l, keepsTo sameButDisk (migrateSidebarsLoop l)).
  { induction l as [|filePath l IH]; cbn [migrateSidebarsLoop].
    - apply keepsTo_ret, sameButDisk_refl.
    - apply keepsTo_bind; [apply sameButDisk_trans|apply migrateSidebarsFile_sameButDisk|].
      intros [|]; [exact IH|apply keepsTo_ret, sameButDisk_refl]. }
  destruct (Hall _ _ _ _ E) as (A1 & A2 & A3 & A4 & A5 & A6 & _ & A8).
  auto 10.
Qed.

Lemma grows_insert (k v : string) (st : state) :
  grows st (set_renamedFiles (insert k v) st).
Proof.
  destruct (grows_refl st) as (G1 & G2 & _ & G4).
  split; [exact G1|]. split; [exact G2|]. split; [|exact G4].
  intros k' Hk'. cbn. destruct (decide (k' = k)) as [->|Hne].
  - rewrite lookup_insert_eq. eauto.
  - now rewrite lookup_insert_ne by congruence.
Qed.

Lemma grows_append (g : string -> string) (st : state) :
  (exists more, forall log, g log = log +:+ more) ->
  grows st (set_migrationInstructions g st).
Proof.
  intros [more Hg]. destruct (grows_refl st) as (G1 & G2 & G3 & _).
  split; [exact G1|]. split; [exact G2|]. split; [exact G3|].
  exists more. apply Hg.
Qed.

Lemma grows_push (x : string) (st : state) :
  grows st (set_ignore (fun l => l ++ [x]) st).
Proof.
  destruct (grows_refl st) as (_ & G2 & G3 & G4).
  split; [now exists [x]|]. split; [exact G2|]. split; [exact G3|exact G4].
Qed.

Lemma unlinkSync_grows (path : string) : keepsTo grows (unlinkSync path).
Proof.
  intros st a st'. unfold unlinkSync.
  destruct (files st !! Path.normalize path); [|discriminate].
  intros E. injection E as _ <-. apply (grows_refl st).
Qed.

Lemma renameSync_grows (from to : string) : keepsTo grows (renameSync from to).
Proof.
  intros st a st'. unfold renameSync.
  destruct (files st !! Path.normalize from); [|discriminate].
  intros E. injection E as _ <-. apply (grows_refl st).
Qed.

Ltac grows_modify :=
  apply keepsTo_modify; intros ?st;
  first [ exact (grows_refl st)
        | apply grows_insert
        | apply grows_push
        | apply grows_append; eexists; intros ?; reflexivity ].

Lemma processFrontMatter_grows (content filePath : string) :
  keepsTo grows (processFrontMatter content filePath).
Proof.
  pose proof grows_refl as R1. pose proof grows_trans as T1.
  unfold processFrontMatter, rewriteFrontMatter.
  repeat frame_step; grows_modify.
Qed.

Lemma migrateMdx_grows (paths : list string) : keepsTo grows (migrateMdx paths).
Proof.
  pose proof grows_refl as R1. pose proof grows_trans as T1.
  unfold migrateMdx, migrateMdxFile, convertMdxToMd, convertMdxToTsx, recordRename,
    writeFileSync.
  repeat frame_step;
    try apply processFrontMatter_grows; try apply unlinkSync_grows; try grows_modify.
Qed.

Lemma recordPermission_grows (pageYaml : value) (p : string) :
  keepsTo grows (recordPermission pageYaml p).
Proof.
  pose proof grows_refl as R1. pose proof grows_trans as T1.
  unfold recordPermission. repeat frame_step; grows_modify.
Qed.

Lemma migratePageYaml_grows oasDefinitions definitionId pageYaml targetPath versioned :
  keepsTo grows (migratePageYaml oasDefinitions definitionId pageYaml targetPath versioned).
Proof.
  pose proof grows_refl as R1. pose proof grows_trans as T1.
  unfold migratePageYaml, writeFileSync.
  repeat frame_step;
    try apply recordPermission_grows; try apply renameSync_grows; try grows_modify.
Qed.

Lemma recordIfRenamed_grows filePath renamed : keepsTo grows (recordIfRenamed filePath renamed).
Proof.
  pose proof grows_refl as R1. pose proof grows_trans as T1.
  unfold recordIfRenamed, recordRename. repeat frame_step; grows_modify.
Qed.

Lemma migrateVersions_grows oasDefinitions filePath versions :
  keepsTo grows (migrateVersions oasDefinitions filePath versions).
Proof.
  pose proof grows_refl as R1. pose proof grows_trans as T1.
  induction versions as [|version versions IH]; cbn [migrateVersions].
  - now apply keepsTo_ret.
  - repeat frame_step;
      try apply migratePageYaml_grows; try apply recordIfRenamed_grows; try exact IH.
Qed.

Lemma migrateOpenAPI_grows (paths : list string) : keepsTo grows (migrateOpenAPI paths).
Proof.
  pose proof grows_refl as R1. pose proof grows_trans as T1.
  unfold migrateOpenAPI, migrateOpenAPIFile.
  repeat frame_step;
    try apply migratePageYaml_grows; try apply recordIfRenamed_grows;
    try apply migrateVersions_grows; try apply unlinkSync_grows; try grows_modify.
Qed.

Lemma sameButDisk_grows (st st' : state) : sameButDisk st st' -> grows st st'.
Proof.
  intros (A1 & A2 & A3 & A4 & A5 & A6 & A7 & A8).
  split; [exists []; now rewrite app_nil_r, A3|].
  split; [now rewrite A4|]. split; [now rewrite A1|].
  exists EmptyString. now rewrite append_nil_r, A6.
Qed.

Lemma migrateConfig_grows (apisObject : value) : keepsTo grows (migrateConfig apisObject).
Proof.
  pose proof grows_refl as R1. pose proof grows_trans as T1.
  unfold migrateConfig, writeFileSync.
  repeat frame_step; try apply unlinkSync_grows; try grows_modify.
Qed.

Lemma migrateTheme_grows : keepsTo grows migrateTheme.
Proof. unfold migrateTheme. grows_modify. Qed.

(** X24.  Whichever of the six migrations returns (the page descriptors, the
    MDX files, the markdown files, the sidebars, the configuration, the
    theme), the accumulators have only grown: the paths to ignore and the
    instructions have what they had at their start, no folder of partials
    is dropped, and no path leaves the registry of renames. *)
Theorem accumulators_only_grow (paths : list string) (apisObject : value) (st st' : state) :
  migrateOpenAPI paths st = Ok tt st' \/ migrateMdx paths st = Ok tt st'
  \/ migrateMarkdown paths st = Ok tt st' \/ migrateSidebars paths st = Ok tt st'
  \/ migrateConfig apisObject st = Ok tt st' \/ migrateTheme st = Ok tt st' ->
  grows st st'.
Proof.
  intros [E|[E|[E|[E|[E|E]]]]].
  - exact (migrateOpenAPI_grows paths _ _ _ E).
  - exact (migrateMdx_grows paths _ _ _ E).
  - assert (Hall : keepsTo grows (migrateMarkdown paths)).
    { unfold migrateMarkdown. apply keepsTo_forM_; [apply grows_refl|apply grows_trans|].
      intros filePath s a s' Hs. exact (proj2 (migrateMarkdownFile_frame filePath s a s' Hs)). }
    exact (Hall _ _ _ E).
  - assert (Hall : forall l, keepsTo sameButDisk (migrateSidebarsLoop l)).
    { induction l as [|filePath l IH]; cbn [migrateSidebarsLoop].
      - apply keepsTo_ret, sameButDisk_refl.
      - apply keepsTo_bind; [apply sameButDisk_trans|apply migrateSidebarsFile_sameButDisk|].
        intros [|]; [exact IH|apply keepsTo_ret, sameButDisk_refl]. }
    apply sameButDisk_grows. exact (Hall _ _ _ _ E).
  - exact (migrateConfig_grows apisObject _ _ _ E).
  - exact (migrateTheme_grows _ _ _ E).
Qed.
End OtherFrames.

Lemma markdown_migration_frame_witness :
  exists st',
    migrateMarkdown (H := Fixture.host) ["./notes.md"] Sample.notesState = Ok tt st' /\
    renamedFiles st' = renamedFiles Sample.notesState /\
    apis st' = apis Sample.notesState /\
    migrationInstructions st' = migrationInstructions Sample.notesState /\
    (forall k, is_Some (files st' !! k) <-> is_Some (files Sample.notesState !! k)) /\
    (exists more, ignore st' = ignore Sample.notesState ++ more) /\
    (forall x, In x (partialFolders Sample.notesState) -> In x (partialFolders st')).
Proof.
  eexists. split; [vm_compute; reflexivity|].
  apply (markdown_migration_frame (H := Fixture.host) ["./notes.md"]).
  vm_compute; reflexivity.
Defined.

Lemma sidebar_migration_frame_witness :
  exists st',
    migrateSidebars (H := Sample.groupsHost) ["./docs/sidebars.yaml"] Sample.groupsState
      = Ok tt st' /\
    renamedFiles st' = renamedFiles Sample.groupsState /\
    fileRbacPermissions st' = fileRbacPermissions Sample.groupsState /\
    ignore st' = ignore Sample.groupsState /\
    partialFolders st' = partialFolders Sample.groupsState /\
    apis st' = apis Sample.groupsState /\
    migrationInstructions st' = migrationInstructions Sample.groupsState /\
    (forall k, is_Some (files Sample.groupsState !! k) -> is_Some (files st' !! k)).
Proof.
  eexists. split; [vm_compute; reflexivity|].
  apply (sidebar_migration_frame (H := Sample.groupsHost) ["./docs/sidebars.yaml"]).
  vm_compute; reflexivity.
Defined.

Lemma accumulators_only_grow_witness :
  exists st',
    migrateMdx (H := Fixture.host) ["./docs/guide.mdx"] Sample.guideState = Ok tt st' /\
    grows Sample.guideState st'.
Proof.
  eexists. split; [vm_compute; reflexivity|].
  apply (accumulators_only_grow (H := Fixture.host) ["./docs/guide.mdx"] VUndefined).
  right; left. vm_compute; reflexivity.
Defined.

(** ** [migrateMdx], further *)

Section MdxFacts.
Context `{Host}.

Lemma exec_from_later (n : nat) (r : regex) (pre s : string) p :
  (exists x, exec_from n r (after p pre) s = Some x) ->
  exists x, exec_from n r p (pre +:+ s) = Some x.
Proof.
  revert p. induction pre as [|a pre IH]; intros p Hx; [exact Hx|].
  cbn [String.append exec_from].
  destruct (match_at n r p (String a (pre +:+ s))); [eauto|].
  destruct (IH (Some a) Hx) as [[pre' h] ->]. eauto.
Qed.

Lemma is_line_end_after (pre : string) :
  pre = EmptyString \/ Str.endsWith pre Str.nl = true ->
  is_line_end (after None pre) = true.
Proof.
  intros [->|E]; [reflexivity|].
  apply endsWith_spec in E as [pre' ->].
  generalize (@None ascii). induction pre' as [|a pre' IH]; intros p; [reflexivity|].
  apply IH.
Qed.

Lemma hash_is_not_space_or_word (a : ascii) :
  is_space a || is_word a = true -> Ascii.eqb a "#" = false.
Proof.
  destruct (Ascii.eqb_spec a "#") as [->|]; [discriminate|reflexivity].
Qed.

Lemma heading_matches (hashes ws rest : string) (w : ascii) p :
  is_line_end p = true ->
  hashes <> EmptyString -> Str.all (fun b => Ascii.eqb b "#") hashes = true ->
  Str.all is_space ws = true -> is_word w = true ->
  exists h, match_at 0 headingRegex p (hashes +:+ ws +:+ String w rest) = Some h.
Proof.
  intros Hp Hne Hh Hs Hw. destruct hashes as [|h0 hashes]; [congruence|].
  unfold match_at, headingRegex, cat. cbn [foldr].
  change (run (Seq BolM ?r) p ?s ?c ?k) with (if is_line_end p then run r p s c k else None).
  rewrite Hp.
  change (run (Seq ?r1 ?r2) ?p ?s ?c ?k)
    with (run r1 p s c (fun p' s' c' => run r2 p' s' c' k)).
  eexists.
  change (plus (Chr "#")) with (Seq (Chr "#") (Star true (Chr "#"))).
  change (run (Seq ?r1 ?r2) ?p ?s ?c ?k)
    with (run r1 p s c (fun p' s' c' => run r2 p' s' c' k)).
  cbn [String.append].
  change (run (Chr "#") ?p (String ?b ?s) ?c ?k)
    with (if Ascii.eqb b "#" then k (Some b) s c else None).
  cbn [Str.all] in Hh. apply andb_true_iff in Hh as [Hh0 Hh]. rewrite Hh0.
  change (run (Star true (Chr "#")) ?p ?s ?c ?k)
    with (star_loop (run (Cls (fun b => Ascii.eqb b "#"))) true k (String.length s) p s c).
  apply star_greedy_class; [exact Hh| |rewrite length_append; lia|].
  { destruct ws as [|s0 ws]; cbn [String.append stops].
    - rewrite hash_is_not_space_or_word; [reflexivity|]. now rewrite Hw, orb_true_r.
    - cbn [Str.all] in Hs. apply andb_true_iff in Hs as [Hs0 _].
      rewrite hash_is_not_space_or_word; [reflexivity|]. now rewrite Hs0. }
  change (run (Seq ?r1 ?r2) ?p ?s ?c ?k)
    with (run r1 p s c (fun p' s' c' => run r2 p' s' c' k)).
  change (run (Star true (Cls is_space)) ?p ?s ?c ?k)
    with (star_loop (run (Cls is_space)) true k (String.length s) p s c).
  apply star_greedy_class; [exact Hs| |rewrite length_append; lia|].
  { cbn [stops]. now rewrite (word_is_not_space w Hw). }
  change (run (Seq ?r1 ?r2) ?p ?s ?c ?k)
    with (run r1 p s c (fun p' s' c' => run r2 p' s' c' k)).
  rewrite run_class_cons, Hw. reflexivity.
Qed.

(** X20.  An MDX text without a [#] is not taken for Markdown.  A text with
    a line that starts with a run of [#], then white space, then a word
    character, is: the number of [#] is not bounded, and white space
    between them and the word is not needed. *)
Theorem mdx_type_detection :
  (forall content, Str.mem "#" content = false -> detectMdxIsMd content = false)
  /\ (forall pre hashes ws rest w,
        pre = EmptyString \/ Str.endsWith pre Str.nl = true ->
        hashes <> EmptyString -> Str.all (fun b => Ascii.eqb b "#") hashes = true ->
        Str.all is_space ws = true -> is_word w = true ->
        detectMdxIsMd (pre +:+ hashes +:+ ws +:+ String w rest) = true).
Proof.
  split.
  - intros content. unfold detectMdxIsMd, test, exec. generalize (@None ascii).
    induction content as [|a content IH]; intros p Hno.
    + cbn [exec_from]. unfold match_at, headingRegex, cat. cbn.
      now destruct (is_line_end p).
    + cbn [Str.mem] in Hno. apply orb_false_iff in Hno as [Ha Hno].
      cbn [exec_from].
      assert (E : match_at 0 headingRegex p (String a content) = None).
      { unfold match_at, headingRegex, cat. cbn [foldr plus run]. rewrite Ha.
        now destruct (is_line_end p). }
      rewrite E. specialize (IH (Some a) Hno).
      now destruct (exec_from 0 headingRegex (Some a) content) as [[? ?]|].
  - intros pre hashes ws rest w Hpre Hne Hh Hs Hw.
    unfold detectMdxIsMd, test, exec.
    destruct (exec_from_later 0 headingRegex pre (hashes +:+ ws +:+ String w rest) None)
      as [x ->]; [|reflexivity].
    destruct (heading_matches hashes ws rest w (after None pre)
                (is_line_end_after pre Hpre) Hne Hh Hs Hw) as [h Hm].
    destruct hashes as [|h0 hashes]; [congruence|].
    cbn [String.append exec_from] in *. rewrite Hm. eauto.
Qed.
End MdxFacts.

Lemma mdx_type_detection_witness :
  detectMdxIsMd ("import x" +:+ Str.nl +:+ "##" +:+ " " +:+ String "T" "itle") = true.
Proof.
  exact (proj2 mdx_type_detection ("import x" +:+ Str.nl) "##" " " "itle" "T"%char
           (or_intror eq_refl) (fun E => eq_ind "##" (fun s => match s with
                                                      | EmptyString => False
                                                      | String _ _ => True
                                                      end) I EmptyString E)
           eq_refl eq_refl eq_refl).
Defined.

Section NormalizeSuffix.
Lemma split_snoc (stem ext : string) :
  Str.mem "/" ext = false ->
  exists front l, Str.split "/" (stem +:+ ext) = front ++ [l +:+ ext].
Proof.
  intros Hext. induction stem as [|a stem (front & l & IH)].
  - exists [], EmptyString. cbn [String.append]. now apply split_plain.
  - cbn [String.append Str.split]. rewrite IH.
    destruct (Ascii.eqb a "/").
    + now exists (EmptyString :: front), l.
    + destruct front as [|f front]; cbn [app].
      * now exists [], (String a l).
      * now exists (String a f :: front), l.
Qed.

Lemma normalizeSegments_snoc (b : bool) (front : list string) (seg : string) :
  Str.is_empty seg = false -> String.eqb seg "." = false -> String.eqb seg ".." = false ->
  forall acc, exists pre, Path.normalizeSegments b acc (front ++ [seg]) = pre ++ [seg].
Proof.
  intros H1 H2 H3. induction front as [|x front IH]; intros acc.
  - cbn [app Path.normalizeSegments]. rewrite H1, H2, H3. cbn [orb rev].
    now exists (rev acc).
  - cbn [app Path.normalizeSegments].
    destruct (Str.is_empty x || String.eqb x "."); [apply IH|].
    destruct (String.eqb x ".."); [|apply IH].
    destruct acc as [|top acc]; [apply IH|].
    destruct (String.eqb top ".."); apply IH.
Qed.

Lemma join_snoc (pre : list string) (seg : string) :
  exists t, Str.join "/" (pre ++ [seg]) = t +:+ seg.
Proof.
  unfold Str.join. induction pre as [|x pre [t IH]].
  - now exists EmptyString.
  - destruct pre as [|y pre]; cbn [app] in *.
    + exists (x +:+ "/"). rewrite join_cons. cbn [String.concat].
      now rewrite append_assoc.
    + rewrite join_cons, IH. exists (x +:+ "/" +:+ t). now rewrite !append_assoc.
Qed.

Lemma string_snoc (s : string) :
  s <> EmptyString -> exists s' c, s = s' +:+ String c EmptyString.
Proof.
  induction s as [|a s IH]; [congruence|]. intros _.
  destruct s as [|b s].
  - now exists EmptyString, a.
  - destruct IH as (s' & c & E); [discriminate|].
    exists (String a s'), c. cbn [String.append]. now rewrite <- E.
Qed.

Lemma mem_app (c : ascii) (a b : string) :
  Str.mem c (a +:+ b) = Str.mem c a || Str.mem c b.
Proof.
  induction a as [|x a IH]; [reflexivity|].
  cbn [String.append Str.mem]. now rewrite IH, orb_assoc.
Qed.

Lemma no_trailing_separator (stem ext : string) :
  ext <> EmptyString -> Str.mem "/" ext = false ->
  Str.endsWith (stem +:+ ext) "/" = false.
Proof.
  intros Hne Hext. destruct (Str.endsWith (stem +:+ ext) "/") eqn:E; [|reflexivity].
  apply endsWith_spec in E as [pre E].
  destruct (string_snoc ext Hne) as (e & c & ->).
  rewrite <- append_assoc in E. apply snoc_inj in E. subst c.
  rewrite mem_app in Hext. cbn in Hext. now rewrite orb_true_r in Hext.
Qed.

Lemma eqb_length_ne (a b : string) :
  String.length a <> String.length b -> String.eqb a b = false.
Proof. intros Hlen. apply String.eqb_neq. intros ->. congruence. Qed.

(** A path keeps its extension when it is normalized. *)
Lemma normalize_suffix (stem ext : string) :
  3 <= String.length ext -> Str.mem "/" ext = false ->
  exists t, Path.normalize (stem +:+ ext) = t +:+ ext.
Proof.
  intros Hlen Hext.
  assert (Hne : ext <> EmptyString) by (intros ->; cbn in Hlen; lia).
  destruct (split_snoc stem ext Hext) as (front & l & Hsplit).
  assert (Hseg : 3 <= String.length (l +:+ ext)) by (rewrite length_append; lia).
  destruct (normalizeSegments_snoc (negb (Path.isAbsolute (stem +:+ ext))) front (l +:+ ext))
    with (acc := @nil string) as [pre Hnorm].
  { destruct (l +:+ ext); [cbn in Hseg; lia|reflexivity]. }
  { apply eqb_length_ne. cbn. lia. }
  { apply eqb_length_ne. cbn. lia. }
  destruct (join_snoc pre (l +:+ ext)) as [t Hjoin].
  unfold Path.normalize, Path.normalizeString, Path.sep.
  rewrite Hsplit, Hnorm, Hjoin, (no_trailing_separator stem ext Hne Hext).
  destruct (Str.is_empty (stem +:+ ext)) eqn:Hempty.
  { destruct stem, ext; try discriminate Hempty. congruence. }
  destruct (Str.is_empty (t +:+ l +:+ ext)) eqn:Hp.
  { destruct t, l, ext; try discriminate Hp. congruence. }
  exists ((if Path.isAbsolute (stem +:+ ext) then "/" else EmptyString) +:+ t +:+ l).
  now rewrite append_nil_r, !append_assoc.
Qed.
End NormalizeSuffix.

Section MdxRename.
Context `{Host}.

Lemma exec_from_suffix (L stem : string) p :
  L <> EmptyString ->
  exec_from 0 (cat [lit L; Eol]) p (stem +:+ L)
  = Some (stem, {| whole := L; groups := [] |}).
Proof.
  intros Hne. revert p. induction stem as [|a stem IH]; intros p.
  - cbn [String.append]. destruct L as [|b L]; [congruence|].
    cbn [exec_from]. now rewrite match_suffix, String.eqb_refl.
  - cbn [String.append exec_from]. rewrite match_suffix.
    rewrite eqb_length_ne by (cbn [String.length]; rewrite length_append; lia).
    now rewrite IH.
Qed.

Lemma drop_length_plus (a b : string) (n : nat) :
  Str.drop (String.length a + n) (a +:+ b) = Str.drop n b.
Proof. induction a as [|x a IH]; [reflexivity|exact IH]. Qed.

Lemma replace_mdx (stem ext : string) :
  replace_first 0 mdxRegex (fun _ => ext) (stem +:+ ".mdx") = stem +:+ ext.
Proof.
  unfold replace_first, exec, mdxRegex. rewrite exec_from_suffix by discriminate.
  cbn [whole]. rewrite drop_length_plus. cbn. now rewrite append_nil_r.
Qed.

Lemma normalize_renamed_ne (stem ext : string) :
  ext = ".md" \/ ext = ".page.tsx" ->
  Path.normalize (stem +:+ ext) <> Path.normalize (stem +:+ ".mdx").
Proof.
  intros Hext E.
  destruct (normalize_suffix stem ".mdx") as [t Ht]; [cbn; lia|reflexivity|].
  destruct (normalize_suffix stem ext) as [u Hu];
    [destruct Hext as [->| ->]; cbn; lia|destruct Hext as [->| ->]; reflexivity|].
  rewrite Ht, Hu in E. destruct Hext as [->| ->].
  - change ".md" with (".m" +:+ "d") in E. change ".mdx" with (".md" +:+ "x") in E.
    rewrite <- !append_assoc in E. apply snoc_inj in E. discriminate E.
  - change ".page.tsx" with (".page.ts" +:+ "x") in E.
    change ".mdx" with (".md" +:+ "x") in E.
    rewrite <- !append_assoc in E. apply append_cancel_r in E.
    change ".page.ts" with (".page.t" +:+ "s") in E. change ".md" with (".m" +:+ "d") in E.
    rewrite <- !append_assoc in E. apply snoc_inj in E. discriminate E.
Qed.

Lemma processFrontMatter_notes (content filePath : string) :
  keepsTo sameButNotes (processFrontMatter content filePath).
Proof.
  pose proof sameButNotes_refl as R1. pose proof sameButNotes_trans as T1.
  unfold processFrontMatter, rewriteFrontMatter.
  repeat frame_step; apply keepsTo_modify; intros st; repeat split.
Qed.

(** The state a conversion leaves, from the state the frontmatter processor left. *)
Lemma converted (source target text : string) (st st1 : state) (content : string) :
  files st !! Path.normalize source = Some content ->
  sameButNotes st st1 ->
  Path.normalize target <> Path.normalize source ->
  (writeFileSync target text;;; unlinkSync source;;; recordRename source target) st1
  = Ok tt (set_renamedFiles (insert (Path.normalize source) target)
            (set_files (delete (Path.normalize source))
              (set_files (insert (Path.normalize target) text) st1))).
Proof.
  intros Hfile (_ & _ & _ & _ & Hfiles) Hne.
  unfold bind, writeFileSync, unlinkSync, recordRename, modify. cbn [files set_files].
  now rewrite lookup_insert_ne, Hfiles, Hfile by exact Hne.
Qed.

(** X21.  When the migration of an MDX file returns, the registry maps the
    normalized path of the file to the path it was given with, its
    extension replaced by [.md] or [.page.tsx]; the MDX file is gone, the
    file of the new name exists, and one line for the file is appended to
    the instructions.  For a text taken for Markdown that does not start
    with three dashes the migration does return, and the new file holds
    the banner followed by the text. *)
Theorem mdx_file_is_renamed (stem content : string) (st : state) :
  files st !! Path.normalize (stem +:+ ".mdx") = Some content ->
  (forall st',
     migrateMdxFile (stem +:+ ".mdx") st = Ok tt st' ->
     renamedFiles st'
       = <[Path.normalize (stem +:+ ".mdx")
           := stem +:+ (if detectMdxIsMd content then ".md" else ".page.tsx")]>
           (renamedFiles st)
     /\ files st' !! Path.normalize (stem +:+ ".mdx") = None
     /\ is_Some (files st' !! Path.normalize
                   (stem +:+ (if detectMdxIsMd content then ".md" else ".page.tsx")))
     /\ migrationInstructions st'
        = migrationInstructions st +:+ "* `" +:+ Path.relative cwd "." (stem +:+ ".mdx")
            +:+ "`" +:+ Str.nl)
  /\ (Str.startsWith content "---" = false -> detectMdxIsMd content = true ->
      exists st',
        migrateMdxFile (stem +:+ ".mdx") st = Ok tt st' /\
        files st' !! Path.normalize (stem +:+ ".md") = Some (mdBanner +:+ content)).
Proof.
  intros Hfile.
  assert (Hread : forall k : string -> M unit,
            (content <- readFileSync (stem +:+ ".mdx");; k content) st = k content st).
  { intros k. unfold bind, readFileSync. now rewrite Hfile. }
  split.
  - intros st'. unfold migrateMdxFile. rewrite Hread. unfold bind at 1.
    destruct (detectMdxIsMd content).
    + unfold convertMdxToMd. rewrite replace_mdx. unfold bind at 1.
      destruct (processFrontMatter content (stem +:+ ".md") st) as [r st1|] eqn:Hfm;
        [|discriminate].
      pose proof (processFrontMatter_notes _ _ _ _ _ Hfm) as Hsame.
      rewrite (converted _ _ _ st st1 content Hfile Hsame)
        by (apply normalize_renamed_ne; now left).
      unfold modify. intros E. injection E as <-.
      destruct Hsame as (S1 & _ & S3 & _ & _). cbn.
      rewrite S1, S3. split; [reflexivity|]. split; [apply lookup_delete_eq|].
      split; [|reflexivity].
      rewrite lookup_delete_ne by (intros E; symmetry in E; revert E;
                                   apply normalize_renamed_ne; now left).
      rewrite lookup_insert_eq. eauto.
    + unfold convertMdxToTsx. rewrite replace_mdx. unfold bind at 1.
      destruct (processFrontMatter content (stem +:+ ".page.tsx") st) as [r st1|] eqn:Hfm;
        [|discriminate].
      pose proof (processFrontMatter_notes _ _ _ _ _ Hfm) as Hsame.
      rewrite (converted _ _ _ st st1 content Hfile Hsame)
        by (apply normalize_renamed_ne; now right).
      unfold modify. intros E. injection E as <-.
      destruct Hsame as (S1 & _ & S3 & _ & _). cbn.
      rewrite S1, S3. split; [reflexivity|]. split; [apply lookup_delete_eq|].
      split; [|reflexivity].
      rewrite lookup_delete_ne by (intros E; symmetry in E; revert E;
                                   apply normalize_renamed_ne; now right).
      rewrite lookup_insert_eq. eauto.
  - intros Hstart Hmd. unfold migrateMdxFile. rewrite Hread, Hmd. unfold bind at 1.
    unfold convertMdxToMd. rewrite replace_mdx. unfold bind at 1.
    unfold processFrontMatter. rewrite (exec_frontMatter_without_marker content Hstart).
    unfold ret at 1. cbn [len frontmatter truthy andb sliceFrom default from_option id Str.drop].
    rewrite (converted _ _ _ st st content Hfile (sameButNotes_refl st))
      by (apply normalize_renamed_ne; now left).
    eexists. split; [reflexivity|]. cbn.
    rewrite lookup_delete_ne by (intros E; symmetry in E; revert E;
                                 apply normalize_renamed_ne; now left).
    apply lookup_insert_eq.
Qed.
End MdxRename.

Lemma mdx_file_is_renamed_witness :
  exists st',
    migrateMdxFile (H := Fixture.host) ("./docs/guide" +:+ ".mdx") Sample.guideState
      = Ok tt st' /\
    files st' !! Path.normalize ("./docs/guide" +:+ ".md")
      = Some (mdBanner +:+ Sample.guide).
Proof.
  exact (proj2 (mdx_file_is_renamed (H := Fixture.host) "./docs/guide" Sample.guide
                  Sample.guideState eq_refl) eq_refl eq_refl).
Defined.

(** ** [migrateContent], further *)

Section LinkFrame.
Context `{Host}.

Lemma replaceM_whole (f : hit -> M string) (e : error) (st : state) (ps : list piece) :
  (forall h, f h st = Ok (whole h) st \/ f h st = Throw e) ->
  replaceM f ps st = Ok (written whole ps) st \/ replaceM f ps st = Throw e.
Proof.
  intros Hf. induction ps as [|[c|h] ps IH]; cbn [replaceM written foldr].
  - now left.
  - unfold bind. destruct IH as [-> | ->]; [now left|now right].
  - unfold bind. destruct (Hf h) as [-> | ->]; [|now right].
    destruct IH as [-> | ->]; [now left|now right].
Qed.

(** X11.  While the registry of renames is empty, rewriting the links of a
    text either returns the text as it is, with the state as it is, or
    throws the type error of [path.relative]: no link is rewritten. *)
Theorem empty_registry_keeps_links (filePath content : string) (st : state) :
  renamedFiles st = ∅ ->
  rewriteLinks filePath content st = Ok content st
  \/ rewriteLinks filePath content st
     = Throw (TypeError "The to argument must be of type string").
Proof.
  intros Hreg. unfold rewriteLinks.
  replace content with (written whole (pieces 3 linkRegex content)) at 2
    by apply (written_whole 3 linkRegex content None 0).
  apply replaceM_whole. intros h.
  unfold linkReplacer, bind, get_state. rewrite Hreg.
  unfold registryGet, underRenamedRoute. rewrite lookup_empty, map_to_list_empty.
  cbn [map existsb andb].
  destruct (inherited _); cbn [entryTruthy]; [now right|now left].
Qed.
End LinkFrame.

Lemma empty_registry_keeps_links_witness :
  rewriteLinks (H := Fixture.host) "a/b.md" "See [the guide](../c.md#sec)." (initial ∅)
    = Ok "See [the guide](../c.md#sec)." (initial ∅)
  \/ rewriteLinks (H := Fixture.host) "a/b.md" "See [the guide](../c.md#sec)." (initial ∅)
     = Throw (TypeError "The to argument must be of type string").
Proof.
  exact (empty_registry_keeps_links (H := Fixture.host) "a/b.md"
           "See [the guide](../c.md#sec)." (initial ∅) eq_refl).
Defined.

Section EmbedFacts.
Context `{Host}.

Lemma embed_match (s1 s2 : ascii) (ws1 ws2 src rest : string) p :
  Str.all is_space (String s1 ws1) = true -> Str.all is_space (String s2 ws2) = true ->
  Str.all is_dot src = true -> Str.mem DQ src = false ->
  match_at 1 embedRegex p
    ("<embed" +:+ String s1 ws1 +:+ "src=" +:+ Str.dq +:+ src +:+ Str.dq
       +:+ String s2 ws2 +:+ "/>" +:+ rest)
  = Some {| whole := "<embed" +:+ String s1 ws1 +:+ "src=" +:+ Str.dq +:+ src +:+ Str.dq
                       +:+ String s2 ws2 +:+ "/>";
            groups := [Some src] |}.
Proof.
  intros Hws1 Hws2 Hdot Hdq.
  unfold match_at, embedRegex. cbn [cat foldr].
  change (run (Seq (lit "<embed") ?r) ?p ?s ?c ?k)
    with (run (lit "<embed") p s c (fun p' s' c' => run r p' s' c' k)).
  rewrite run_lit.
  change (run (Seq (plus (Cls is_space)) ?r) ?p ?s ?c ?k)
    with (run (plus (Cls is_space)) p s c (fun p' s' c' => run r p' s' c' k)).
  apply run_plus_class; [exact Hws1|reflexivity|].
  change (run (Seq (lit "src=") ?r) ?p ?s ?c ?k)
    with (run (lit "src=") p s c (fun p' s' c' => run r p' s' c' k)).
  rewrite run_lit.
  change (Str.dq +:+ ?s) with (String DQ s).
  change (run (Seq (Chr DQ) ?r) ?p (String DQ ?s) ?c ?k) with (run r (Some DQ) s c k).
  change (run (Seq (Grp 0 ?g) ?r) ?p ?s ?c ?k)
    with (run g p s c (fun p' s' c' =>
            run r p' s' (<[0 := Some (consumed s s')]> c') k)).
  change (run (Star false (Cls is_dot)) ?p ?s ?c ?k)
    with (star_loop (run (Cls is_dot)) false k (String.length s) p s c).
  apply (star_lazy_class is_dot (fun b => negb (Ascii.eqb b DQ))).
  { exact Hdot. }
  { now apply all_not_mem. }
  { rewrite length_append. lia. }
  { intros b p' t Hb. apply negb_true_iff in Hb. cbn [run]. now rewrite Hb. }
  rewrite (consumed_app src). cbv beta.
  change (Str.dq +:+ ?s) with (String DQ s).
  change (run (Seq (Chr DQ) ?r) ?p (String DQ ?s) ?c ?k) with (run r (Some DQ) s c k).
  change (run (Seq (plus (Cls is_space)) ?r) ?p ?s ?c ?k)
    with (run (plus (Cls is_space)) p s c (fun p' s' c' => run r p' s' c' k)).
  apply run_plus_class; [exact Hws2|reflexivity|].
  change (run (Seq (lit "/>") Eps) ?p ?s ?c ?k)
    with (run (lit "/>") p s c (fun p' s' c' => k p' s' c')).
  rewrite run_lit.
  apply f_equal. apply (f_equal2 Build_hit); [|reflexivity].
  match goal with |- consumed ?s rest = ?w => replace s with (w +:+ rest) end;
    [apply consumed_app|].
  cbn [String.append]. repeat (rewrite append_assoc; cbn [String.append]).
  reflexivity.
Qed.

Lemma replaceM_keeps_app (f : hit -> M string) (pre : string) (ps : list piece)
    (st : state) :
  replaceM f (keeps pre ++ ps) st
  = match replaceM f ps st with
    | Ok x st' => Ok (pre +:+ x) st'
    | Throw e => Throw e
    end.
Proof.
  induction pre as [|a pre IH].
  - cbn. now destruct (replaceM f ps st).
  - unfold keeps in *. cbn [list_ascii_of_string map app replaceM]. unfold bind.
    rewrite IH. now destruct (replaceM f ps st).
Qed.

(** X10.  A text with one embed tag, written with white space before [src]
    and before the closing [/>], gets the tag replaced by a partial tag of
    the same source, and the folder of the source joins the folders of
    partials: the folder below the root for a source that starts with a
    slash, the folder resolved from the file otherwise. *)
Theorem embed_becomes_partial (filePath pre post src ws1 ws2 : string) (s1 s2 : ascii)
    (st : state) :
  Str.mem "<" pre = false -> Str.includes post "<embed" = false ->
  Str.all is_space (String s1 ws1) = true -> Str.all is_space (String s2 ws2) = true ->
  Str.all is_dot src = true -> Str.mem DQ src = false ->
  rewriteEmbeds filePath
    (pre +:+ "<embed" +:+ String s1 ws1 +:+ "src=" +:+ Str.dq +:+ src +:+ Str.dq
       +:+ String s2 ws2 +:+ "/>" +:+ post) st
  = Ok (pre +:+ "{% partial file=" +:+ Str.dq +:+ src +:+ Str.dq +:+ " /%}" +:+ post)
       (set_partialFolders
          (setAdd (if Str.startsWith src "/"
                   then Path.dirname (Str.drop 1 src)
                   else Path.dirname (Path.resolve cwd [Path.dirname filePath; src])))
          st).
Proof.
  intros Hpre Hpost Hws1 Hws2 Hdot Hdq.
  unfold rewriteEmbeds, pieces.
  pose proof (embed_match s1 s2 ws1 ws2 src post (after None pre) Hws1 Hws2 Hdot Hdq) as Hm.
  revert Hm.
  change embedRegex with (Seq (lit (String "<" "embed")) (cat
    [ plus (Cls is_space); lit "src="; Chr DQ;
      Grp 0 (Star false (Cls is_dot)); Chr DQ;
      plus (Cls is_space); lit "/>" ])).
  intros Hm.
  rewrite scan_prefix_without_char by exact Hpre.
  rewrite replaceM_keeps_app.
  assert (Htag : "<embed" +:+ String s1 ws1 +:+ "src=" +:+ Str.dq +:+ src +:+ Str.dq
                   +:+ String s2 ws2 +:+ "/>" +:+ post
                 = String "<" ("embed" +:+ String s1 ws1 +:+ "src=" +:+ Str.dq +:+ src
                     +:+ Str.dq +:+ String s2 ws2 +:+ "/>") +:+ post).
  { cbn [String.append]. repeat (rewrite append_assoc; cbn [String.append]).
    reflexivity. }
  rewrite Htag in Hm |- *.
  rewrite (scan_hit _ _ _ _ _ _ _ Hm).
  rewrite scan_without_literal by exact Hpost.
  cbn [replaceM]. unfold bind at 1.
  unfold embedReplacer at 1. unfold group_text, group. cbn [groups].
  change ([Some src] !! 0) with (Some (Some src)). cbn [default from_option id].
  unfold bind at 1. unfold modify at 1. unfold ret at 1. unfold bind at 1.
  rewrite replaceM_keeps. unfold ret. now rewrite !append_assoc.
Qed.
End EmbedFacts.

Lemma embed_becomes_partial_witness :
  rewriteEmbeds (H := Fixture.host) "docs/page.md"
    ("See " +:+ "<embed" +:+ String " " "" +:+ "src=" +:+ Str.dq +:+ "../shared/a.md"
       +:+ Str.dq +:+ String " " "" +:+ "/>" +:+ " end") (initial ∅)
  = Ok ("See " +:+ "{% partial file=" +:+ Str.dq +:+ "../shared/a.md" +:+ Str.dq
          +:+ " /%}" +:+ " end")
       (set_partialFolders
          (setAdd (if Str.startsWith "../shared/a.md" "/"
                   then Path.dirname (Str.drop 1 "../shared/a.md")
                   else Path.dirname
                          (Path.resolve (cwd (Host := Fixture.host))
                             [Path.dirname "docs/page.md"; "../shared/a.md"])))
          (initial ∅)).
Proof.
  exact (embed_becomes_partial (H := Fixture.host) "docs/page.md" "See " " end"
           "../shared/a.md" "" "" " "%char " "%char (initial ∅)
           eq_refl eq_refl eq_refl eq_refl eq_refl eq_refl).
Defined.

(** ** [migrateOpenAPI], further *)

Section OpenApiExtras.
Context `{Host}.


End OpenApiExtras.


(** ** [migrateConfig] *)

Section ConfigFacts.
Lemma buildConfig_done (siteConfig apis : value) (ignore partialFolders : list string)
    (config : value) :
  buildConfig siteConfig apis ignore partialFolders = Done config ->
  exists links scripts navbar search,
    migrateNavbar siteConfig = Done navbar /\
    searchConfig siteConfig = Done search /\
    config = VObj [ ("requiresLogin", VBool true);
                    ("reunite", reuniteConfig siteConfig);
                    ("apis", apis);
                    ("seo", orElse (getOpt siteConfig "seo") VUndefined);
                    ("ignore", VArr (map VStr ignore));
                    ("links", links);
                    ("scripts", scripts);
                    ("navbar", navbar);
                    ("footer", migrateFooter siteConfig);
                    ("search", search);
                    ("analytics", getOpt siteConfig "analytics");
                    ("codeSnippet", codeSnippetConfig siteConfig);
                    ("markdown", markdownConfig siteConfig partialFolders);
                    ("logo", logoConfig siteConfig);
                    ("navigation", navigationConfig siteConfig) ].
Proof.
  unfold buildConfig, andThen.
  destruct (mapIfTruthy _ _ _) as [links|]; [|discriminate].
  destruct (scriptsConfig siteConfig) as [scripts|]; [|discriminate].
  destruct (migrateNavbar siteConfig) as [navbar|]; [|discriminate].
  destruct (searchConfig siteConfig) as [search|]; [|discriminate].
  intros [= <-]. now exists links, scripts, navbar, search.
Qed.

(** X25.  In the configuration built, the table of contents of markdown is
    hidden unless the site configuration enables it: [markdown.toc.hide]
    is [true] when [toc.enable] is not truthy (also when there is no [toc]
    at all), and left out otherwise. *)
Theorem toc_is_hidden_unless_enabled (siteConfig apis : value)
    (ignore partialFolders : list string) (config : value) :
  buildConfig siteConfig apis ignore partialFolders = Done config ->
  getOpt (getOpt (getOpt config "markdown") "toc") "hide"
    = (if truthy (getOpt (getOpt siteConfig "toc") "enable") then VUndefined else VBool true)
  /\ (truthy (getOpt (getOpt siteConfig "toc") "enable") = false ->
      getOpt (getOpt config "markdown") "toc"
        = VObj [("depth", tocDepth siteConfig); ("hide", VBool true)]).
Proof.
  intros Hdone.
  destruct (buildConfig_done _ _ _ _ _ Hdone) as (links & scripts & navbar & search & _ & _ & ->).
  change (getOpt (VObj _) "markdown") with (markdownConfig siteConfig partialFolders).
  unfold markdownConfig.
  match goal with
  | |- context [getOpt (VObj ?l) "toc"] =>
      change (getOpt (VObj l) "toc")
        with (if negb (strict_eq (tocDepth siteConfig) VUndefined)
                 || truthy (tocHide siteConfig)
              then VObj [("depth", tocDepth siteConfig); ("hide", tocHide siteConfig)]
              else VUndefined)
  end.
  unfold tocHide.
  destruct (truthy (getOpt (getOpt siteConfig "toc") "enable")); cbn [negb Bool.eqb truthy].
  - split; [|discriminate]. rewrite orb_false_r.
    now destruct (negb (strict_eq (tocDepth siteConfig) VUndefined)).
  - rewrite orb_true_r. split; [reflexivity|]. reflexivity.
Qed.

Lemma withoutSearch_done (items kept : list value) :
  withoutSearch items = Done kept ->
  kept = List.filter (fun i => negb (default false (hasSearch i))) items
  /\ Forall (fun i => hasSearch i <> None) items.
Proof.
  revert kept. induction items as [|i items IH]; intros kept; cbn [withoutSearch].
  - intros [= <-]. split; [reflexivity|constructor].
  - destruct (hasSearch i) as [found|] eqn:Hi; [|discriminate].
    unfold andThen. destruct (withoutSearch items) as [rest|]; [|discriminate].
    destruct (IH rest eq_refl) as [-> Hall]. intros [= <-]. split.
    + cbn [List.filter]. rewrite Hi. cbn [default from_option id].
      now destruct found.
    + constructor; [congruence|exact Hall].
Qed.

Lemma someSearch_done (items : list value) :
  Forall (fun i => hasSearch i <> None) items ->
  someSearch items = Done (existsb (fun i => default false (hasSearch i)) items).
Proof.
  induction 1 as [|i items Hi _ IH]; [reflexivity|].
  cbn [someSearch existsb]. destruct (hasSearch i) as [[|]|]; [reflexivity|exact IH|congruence].
Qed.

(** X26.  When the site configuration has a navigation bar, the items of
    the bar built are the items without a [search], in their order; search
    is hidden in the configuration built exactly when no item has a
    [search]. *)
Theorem search_leaves_the_navbar (siteConfig apis : value)
    (ignore partialFolders : list string) (config : value) (items : list value) :
  getOpt siteConfig "nav" = VArr items ->
  buildConfig siteConfig apis ignore partialFolders = Done config ->
  getOpt (getOpt config "navbar") "items"
    = VArr (List.filter (fun i => negb (default false (hasSearch i))) items)
  /\ getOpt config "search"
     = (if existsb (fun i => default false (hasSearch i)) items
        then VUndefined else VObj [("hide", VBool true)])
  /\ Forall (fun i => hasSearch i <> None) items.
Proof.
  intros Hnav Hdone.
  destruct (buildConfig_done _ _ _ _ _ Hdone)
    as (links & scripts & navbar & search & Hnavbar & Hsearch & ->).
  change (getOpt (VObj _) "navbar") with navbar.
  change (getOpt (VObj _) "search") with search.
  unfold migrateNavbar in Hnavbar. unfold searchConfig in Hsearch.
  rewrite Hnav in Hnavbar, Hsearch. unfold andThen in *.
  destruct (withoutSearch items) as [kept|] eqn:Hkept; [|discriminate].
  destruct (withoutSearch_done _ _ Hkept) as [-> Hall].
  rewrite (someSearch_done items Hall) in Hsearch.
  injection Hnavbar as <-. injection Hsearch as <-. auto.
Qed.

Lemma mapIfTruthy_done (name : string) (f : value -> value) (xs : value) :
  sequenceOrFalsy xs -> exists out, mapIfTruthy name f xs = Done out.
Proof.
  unfold mapIfTruthy. intros [Hf|[items ->]]; [rewrite Hf|cbn [truthy]]; eauto.
Qed.

(** X27.  For a site configuration that is neither undefined nor null, the
    configuration is built when [stylesheets], [scripts] and
    [postBodyScripts] are sequences or not truthy and the navigation bar is
    absent or a sequence of items other than null and undefined; it then
    requires a login and holds the API descriptions and the paths to
    ignore.  A truthy [stylesheets] that is no sequence, and a null item in
    the navigation bar, make the build throw a type error. *)
Theorem config_is_built (siteConfig apis : value) (ignore partialFolders : list string) :
  siteConfig <> VUndefined -> siteConfig <> VNull ->
  (sequenceOrFalsy (getOpt siteConfig "stylesheets") ->
   sequenceOrFalsy (getOpt siteConfig "scripts") ->
   sequenceOrFalsy (getOpt siteConfig "postBodyScripts") ->
   (getOpt siteConfig "nav" = VUndefined \/
    exists items, getOpt siteConfig "nav" = VArr items
                  /\ Forall (fun i => hasSearch i <> None) items) ->
   exists config,
     buildConfig siteConfig apis ignore partialFolders = Done config /\
     getOpt config "requiresLogin" = VBool true /\
     getOpt config "apis" = apis /\
     getOpt config "ignore" = VArr (map VStr ignore))
  /\ (truthy (getOpt siteConfig "stylesheets") = true ->
      (forall items, getOpt siteConfig "stylesheets" <> VArr items) ->
      buildConfig siteConfig apis ignore partialFolders
        = Raise (TypeError "siteConfig.stylesheets.map is not a function"))
  /\ (forall items,
        sequenceOrFalsy (getOpt siteConfig "stylesheets") ->
        sequenceOrFalsy (getOpt siteConfig "scripts") ->
        sequenceOrFalsy (getOpt siteConfig "postBodyScripts") ->
        getOpt siteConfig "nav" = VArr items ->
        In VNull items ->
        buildConfig siteConfig apis ignore partialFolders = Raise (nullProperty "search")).
Proof.
  intros _ _. split; [|split].
  - intros Hstyles Hscripts Hpost Hnav.
    unfold buildConfig, andThen.
    destruct (mapIfTruthy_done "siteConfig.stylesheets"
                (fun l => VObj [("rel", VStr "stylesheet"); ("href", l)]) _ Hstyles)
      as [links ->].
    assert (Hs : exists scripts, scriptsConfig siteConfig = Done scripts).
    { unfold scriptsConfig, andThen.
      destruct (truthy (orElse _ _)); [|eauto].
      destruct (mapIfTruthy_done "siteConfig.scripts" (fun s => VObj [("src", s)]) _ Hscripts)
        as [head ->].
      destruct (mapIfTruthy_done "siteConfig.postBodyScripts" (fun s => VObj [("src", s)]) _
                  Hpost) as [body ->].
      eauto. }
    destruct Hs as [scripts ->].
    assert (Hn : exists navbar search,
              migrateNavbar siteConfig = Done navbar /\ searchConfig siteConfig = Done search).
    { unfold migrateNavbar, searchConfig, andThen.
      destruct Hnav as [->|(items & -> & Hall)]; [eauto|].
      rewrite (someSearch_done items Hall).
      assert (Hk : exists kept, withoutSearch items = Done kept).
      { clear -Hall. induction Hall as [|i items Hi _ [kept IH]]; [now exists []|].
        cbn [withoutSearch]. destruct (hasSearch i) as [found|]; [|congruence].
        rewrite IH. cbn [andThen]. eauto. }
      destruct Hk as [kept ->]. eauto. }
    destruct Hn as (navbar & search & -> & ->).
    eexists. split; [reflexivity|]. repeat split.
  - intros Htruthy Hna. unfold buildConfig, mapIfTruthy. rewrite Htruthy.
    destruct (getOpt siteConfig "stylesheets") as [| | | | |items|]; try reflexivity.
    now destruct (Hna items).
  - intros items Hstyles Hscripts Hpost Hnav Hnull.
    unfold buildConfig, andThen.
    destruct (mapIfTruthy_done "siteConfig.stylesheets"
                (fun l => VObj [("rel", VStr "stylesheet"); ("href", l)]) _ Hstyles)
      as [links ->].
    assert (Hs : exists scripts, scriptsConfig siteConfig = Done scripts).
    { unfold scriptsConfig, andThen.
      destruct (truthy (orElse _ _)); [|eauto].
      destruct (mapIfTruthy_done "siteConfig.scripts" (fun s => VObj [("src", s)]) _ Hscripts)
        as [head ->].
      destruct (mapIfTruthy_done "siteConfig.postBodyScripts" (fun s => VObj [("src", s)]) _
                  Hpost) as [body ->].
      eauto. }
    destruct Hs as [scripts ->].
    unfold migrateNavbar. rewrite Hnav.
    assert (Hk : withoutSearch items = Raise (nullProperty "search")).
    { clear -Hnull. induction items as [|i items IH]; [destruct Hnull|].
      cbn [withoutSearch]. destruct Hnull as [->|Hin]; [reflexivity|].
      destruct (hasSearch i); [|reflexivity]. now rewrite (IH Hin). }
    now rewrite Hk.
Qed.
End ConfigFacts.

Lemma toc_is_hidden_unless_enabled_witness :
  exists config,
    buildConfig Sample.siteConfig (VObj []) ["_*"] [] = Done config /\
    getOpt (getOpt config "markdown") "toc"
      = VObj [("depth", tocDepth Sample.siteConfig); ("hide", VBool true)].
Proof.
  eexists. split; [vm_compute; reflexivity|].
  refine (proj2 (toc_is_hidden_unless_enabled Sample.siteConfig (VObj []) ["_*"] [] _ _)
            eq_refl).
  vm_compute; reflexivity.
Defined.

Lemma search_leaves_the_navbar_witness :
  exists config,
    buildConfig Sample.siteConfig (VObj []) ["_*"] [] = Done config /\
    getOpt (getOpt config "navbar") "items"
      = VArr [VObj [("label", VStr "Docs"); ("page", VStr "index.md")]] /\
    getOpt config "search" = VUndefined.
Proof.
  eexists. split; [vm_compute; reflexivity|].
  refine (let H := search_leaves_the_navbar Sample.siteConfig (VObj []) ["_*"] [] _
                     [ VObj [("label", VStr "Docs"); ("page", VStr "index.md")];
                       VObj [("search", VBool true)] ] eq_refl _ in
          conj (proj1 H) (proj1 (proj2 H))).
  vm_compute; reflexivity.
Defined.

Lemma config_is_built_witness :
  exists config,
    buildConfig Sample.siteConfig (VObj []) ["_*"] [] = Done config /\
    getOpt config "requiresLogin" = VBool true /\
    getOpt config "apis" = VObj [] /\
    getOpt config "ignore" = VArr (map VStr ["_*"]).
Proof.
  refine (proj1 (config_is_built Sample.siteConfig (VObj []) ["_*"] []
                   ltac:(discriminate) ltac:(discriminate)) _ _ _ _).
  - right. eexists. reflexivity.
  - left. reflexivity.
  - left. reflexivity.
  - right. eexists. split; [reflexivity|].
    repeat constructor; discriminate.
Defined.

(** ** [migratePackageJson] *)

Section PackageFacts.
Lemma product_is_not_legacy (product : string) :
  In product PACKAGES ->
  product <> legacyPortal /\ product <> "@redocly/portal-legacy-ui".
Proof.
  intros Hin. cbn in Hin.
  repeat (destruct Hin as [<-|Hin]; [split; discriminate|]). destruct Hin.
Qed.

(** X28.  For a product of the list, the rewrite of a package exits exactly
    when the package has no truthy dependency on the legacy portal.  In
    the package it writes, that dependency is gone, the product is a
    dependency with the version given, the legacy user interface is a
    dependency when there is an [index.mdx], and every other dependency is
    as it was. *)
Theorem legacy_dependency_is_replaced (fields : list (string * value))
    (product version : string) (hasIndexMdx : bool) :
  In product PACKAGES ->
  (rewritePackageJson (VObj fields) product version hasIndexMdx = Exited
   <-> truthy (getOpt (fieldOf fields "dependencies") legacyPortal) = false)
  /\ (forall out,
        rewritePackageJson (VObj fields) product version hasIndexMdx = Written out ->
        exists before after,
          fieldOf fields "dependencies" = VObj before /\
          getOpt out "dependencies" = VObj after /\
          lookup legacyPortal after = None /\
          lookup product after = Some (VStr version) /\
          lookup "@redocly/portal-legacy-ui" after
            = (if hasIndexMdx then Some (VStr "^0.1.0")
               else lookup "@redocly/portal-legacy-ui" before) /\
          (forall k, k <> legacyPortal -> k <> product ->
                     k <> "@redocly/portal-legacy-ui" ->
                     lookup k after = lookup k before)).
Proof.
  intros Hin. destruct (product_is_not_legacy product Hin) as [Hp1 Hp2].
  unfold rewritePackageJson. split.
  - destruct (fieldOf fields "dependencies") as [| | | | | |before];
      try (split; reflexivity).
    change (getOpt (VObj before) legacyPortal) with (fieldOf before legacyPortal).
    destruct (truthy (fieldOf before legacyPortal)); cbn [negb]; [|split; reflexivity].
    destruct (if truthy (fieldOf fields "scripts") then _ else _); split; discriminate.
  - intros out.
    destruct (fieldOf fields "dependencies") as [| | | | | |before] eqn:Hdeps;
      try discriminate.
    destruct (truthy (fieldOf before legacyPortal)) eqn:Hlegacy; cbn [negb]; [|discriminate].
    destruct (if truthy (fieldOf fields "scripts") then _ else _) as [scripts|];
      [|discriminate].
    set (deps1 := assign product (VStr version) (remove legacyPortal before)).
    set (deps2 := if hasIndexMdx
                  then assign "@redocly/portal-legacy-ui" (VStr "^0.1.0") deps1 else deps1).
    set (fields1 := if truthy (fieldOf fields "scripts")
                    then assign "scripts" scripts fields else fields).
    intros [= <-]. exists before, deps2.
    split; [reflexivity|].
    split.
    { unfold getOpt. cbn [get]. destruct (length deps2 =? 1).
      - rewrite lookup_remove_ne by discriminate. rewrite lookup_remove_ne by discriminate.
        now rewrite lookup_assign_eq.
      - now rewrite lookup_assign_eq. }
    assert (H1 : forall k, k <> "@redocly/portal-legacy-ui" ->
                           lookup k deps2 = lookup k deps1).
    { intros k Hk. unfold deps2. destruct hasIndexMdx; [|reflexivity].
      apply lookup_assign_ne. congruence. }
    split.
    { rewrite H1 by discriminate. unfold deps1.
      rewrite lookup_assign_ne by congruence. apply lookup_remove_eq. }
    split.
    { rewrite H1 by congruence. apply lookup_assign_eq. }
    split.
    { unfold deps2. destruct hasIndexMdx; [apply lookup_assign_eq|].
      unfold deps1. rewrite lookup_assign_ne by congruence.
      now rewrite lookup_remove_ne by discriminate. }
    intros k K1 K2 K3. rewrite H1 by exact K3. unfold deps1.
    rewrite lookup_assign_ne by congruence. now rewrite lookup_remove_ne by congruence.
Qed.

Lemma rewriteStart_done (scripts out : list (string * value)) :
  rewriteStart scripts = Done out ->
  (forall k, k <> "start" -> lookup k out = lookup k scripts)
  /\ (forall text, fieldOf scripts "start" = VStr text -> Str.is_empty text = false ->
        lookup "start" out
        = Some (VStr (if Str.includes text "redocly-portal"
                      then Str.replace "redocly-portal develop" previewCommand text
                      else previewCommand))).
Proof.
  unfold rewriteStart.
  destruct (truthy (fieldOf scripts "start")) eqn:Htruthy.
  - destruct (includesText (fieldOf scripts "start") "redocly-portal") as [[|]|] eqn:Hinc;
      [|intros [= <-]|discriminate].
    + destruct (fieldOf scripts "start") as [| | | |text0| |] eqn:Hstart; try discriminate.
      intros [= <-]. split.
      * intros k Hk. apply lookup_assign_ne. congruence.
      * intros text [= <-] _. cbn [includesText] in Hinc. injection Hinc as ->.
        apply lookup_assign_eq.
    + split.
      * intros k Hk. apply lookup_assign_ne. congruence.
      * intros text Hstart _. rewrite Hstart in Hinc. cbn [includesText] in Hinc.
        injection Hinc as ->. apply lookup_assign_eq.
  - intros [= <-]. split; [reflexivity|].
    intros text Hstart Hne. rewrite Hstart in Htruthy. cbn [truthy] in Htruthy.
    rewrite Hne in Htruthy. discriminate.
Qed.

Lemma dropLegacyScript_done (name : string) (scripts out : list (string * value)) :
  dropLegacyScript name scripts = Done out ->
  (forall k, k <> name -> lookup k out = lookup k scripts)
  /\ (truthy (fieldOf scripts name) = true ->
      includesText (fieldOf scripts name) "redocly-portal" = Some true ->
      lookup name out = None)
  /\ (truthy (fieldOf scripts name) = false
      \/ includesText (fieldOf scripts name) "redocly-portal" = Some false ->
      out = scripts).
Proof.
  unfold dropLegacyScript.
  destruct (truthy (fieldOf scripts name)).
  - destruct (includesText (fieldOf scripts name) "redocly-portal") as [[|]|];
      [intros [= <-]|intros [= <-]|discriminate].
    + split; [|split].
      * intros k Hk. apply lookup_remove_ne. congruence.
      * intros _ _. apply lookup_remove_eq.
      * intros [|]; discriminate.
    + split; [reflexivity|]. split; [discriminate|reflexivity].
  - intros [= <-]. split; [reflexivity|]. split; [discriminate|reflexivity].
Qed.

(** X29.  When the scripts of a package are rewritten, every script other
    than [start], [build] and [clean] is as it was.  A [start] that is a
    text, not empty, becomes the preview command, or, when it names the
    legacy portal, itself with its first [redocly-portal develop] replaced
    by the preview command.  A [build] or a [clean] that is a text is
    deleted when it names the legacy portal, and kept otherwise. *)
Theorem legacy_scripts_are_rewritten (scripts : list (string * value)) (out : value) :
  rewriteScripts (VObj scripts) = Done out ->
  exists after,
    out = VObj after /\
    (forall k, k <> "start" -> k <> "build" -> k <> "clean" ->
               lookup k after = lookup k scripts) /\
    (forall text, fieldOf scripts "start" = VStr text -> Str.is_empty text = false ->
       lookup "start" after
       = Some (VStr (if Str.includes text "redocly-portal"
                     then Str.replace "redocly-portal develop" previewCommand text
                     else previewCommand))) /\
    (forall name text, name = "build" \/ name = "clean" ->
       fieldOf scripts name = VStr text ->
       lookup name after
       = (if Str.includes text "redocly-portal" then None else lookup name scripts)).
Proof.
  cbn [rewriteScripts]. unfold andThen.
  destruct (rewriteStart scripts) as [s1|] eqn:H1; [|discriminate].
  destruct (dropLegacyScript "build" s1) as [s2|] eqn:H2; [|discriminate].
  destruct (dropLegacyScript "clean" s2) as [s3|] eqn:H3; [|discriminate].
  intros [= <-]. exists s3. split; [reflexivity|].
  destruct (rewriteStart_done _ _ H1) as [A1 A2].
  destruct (dropLegacyScript_done _ _ _ H2) as (B1 & B2 & B3).
  destruct (dropLegacyScript_done _ _ _ H3) as (C1 & C2 & C3).
  split; [|split].
  - intros k K1 K2 K3. rewrite C1, B1, A1 by congruence. reflexivity.
  - intros text Hstart Hne. rewrite C1, B1 by discriminate. now apply A2.
  - intros name text Hname Hscript.
    assert (Hb : fieldOf s1 "build" = fieldOf scripts "build")
      by (unfold fieldOf; now rewrite A1 by discriminate).
    assert (Hc : fieldOf s2 "clean" = fieldOf scripts "clean")
      by (unfold fieldOf; rewrite B1, A1 by discriminate; reflexivity).
    assert (Hinc : Str.includes text "redocly-portal" = true ->
                   truthy (VStr text) = true).
    { destruct text; [discriminate|reflexivity]. }
    destruct Hname as [-> | ->].
    + rewrite C1 by discriminate. rewrite Hb, Hscript in B2, B3.
      cbn [includesText] in B2, B3.
      destruct (Str.includes text "redocly-portal").
      * apply B2; auto.
      * rewrite B3 by (right; reflexivity). apply A1. discriminate.
    + rewrite Hc, Hscript in C2, C3. cbn [includesText] in C2, C3.
      destruct (Str.includes text "redocly-portal").
      * apply C2; auto.
      * rewrite C3 by (right; reflexivity). rewrite B1, A1 by discriminate. reflexivity.
Qed.

(** X30.  The choice that ends the question loop is a number from 1 to 7,
    it is the first answer in that range (the answers before it end no
    loop), and the product picked with it is one of the list. *)
Theorem picked_product_is_a_package (answers : list number) (choice : Z) :
  pickChoice answers = Some choice ->
  (1 <= choice <= 7)%Z
  /\ (exists before after,
        answers = before ++ Int choice :: after /\ pickChoice before = None)
  /\ (exists product, pickProduct answers = Some product /\ In product PACKAGES).
Proof.
  intros Hpick.
  assert (Hrange : (1 <= choice <= 7)%Z).
  { induction answers as [|[|z] answers IH]; cbn [pickChoice] in Hpick; [discriminate|auto|].
    destruct ((z <? 1)%Z || (Z.of_nat (length PACKAGES) <? z)%Z) eqn:E; [auto|].
    injection Hpick as <-. apply orb_false_iff in E as [E1 E2].
    apply Z.ltb_ge in E1, E2. cbn in E2. lia. }
  split; [exact Hrange|]. split.
  - induction answers as [|[|z] answers IH]; cbn [pickChoice] in Hpick; [discriminate| |].
    + destruct (IH Hpick) as (before & after & -> & Hb).
      now exists (NaN :: before), after.
    + destruct ((z <? 1)%Z || (Z.of_nat (length PACKAGES) <? z)%Z) eqn:E.
      * destruct (IH Hpick) as (before & after & -> & Hb).
        exists (Int z :: before), after. split; [reflexivity|].
        cbn [pickChoice]. now rewrite E.
      * injection Hpick as <-. now exists [], answers.
  - unfold pickProduct. rewrite Hpick.
    assert (Hcases : (choice = 1 \/ choice = 2 \/ choice = 3 \/ choice = 4 \/ choice = 5
                      \/ choice = 6 \/ choice = 7)%Z) by lia.
    destruct Hcases as [->|[->|[->|[->|[->|[->| ->]]]]]];
      (eexists; split; [reflexivity|]); cbn; tauto.
Qed.
End PackageFacts.

Lemma legacy_dependency_is_replaced_witness :
  exists out before after,
    rewritePackageJson (VObj Sample.packageJson) "@redocly/realm" "0.99.0" true
      = Written out /\
    fieldOf Sample.packageJson "dependencies" = VObj before /\
    getOpt out "dependencies" = VObj after /\
    lookup legacyPortal after = None /\
    lookup "@redocly/realm" after = Some (VStr "0.99.0") /\
    lookup "@redocly/portal-legacy-ui" after = Some (VStr "^0.1.0") /\
    (forall k, k <> legacyPortal -> k <> "@redocly/realm" ->
               k <> "@redocly/portal-legacy-ui" ->
               lookup k after = lookup k before).
Proof.
  eexists.
  refine (let H := proj2 (legacy_dependency_is_replaced Sample.packageJson
                            "@redocly/realm" "0.99.0" true (or_introl eq_refl)) _ _ in
          match H with
          | ex_intro _ before (ex_intro _ after P) =>
              ex_intro _ before (ex_intro _ after (conj _ P))
          end).
  Unshelve. all: vm_compute; reflexivity.
Defined.

Lemma legacy_scripts_are_rewritten_witness :
  exists after,
    rewriteScripts (fieldOf Sample.packageJson "scripts") = Done (VObj after) /\
    lookup "start" after = Some (VStr "npx @redocly/cli preview") /\
    lookup "build" after = None /\
    lookup "test" after = Some (VStr "jest").
Proof.
  destruct (legacy_scripts_are_rewritten
              [ ("start", VStr "redocly-portal develop");
                ("build", VStr "redocly-portal build");
                ("test", VStr "jest") ]
              (VObj [("start", VStr "npx @redocly/cli preview"); ("test", VStr "jest")])
              eq_refl)
    as (after & Hout & Hother & Hstart & Hdrop).
  exists after. split; [rewrite <- Hout; reflexivity|]. split; [|split].
  - exact (Hstart "redocly-portal develop" eq_refl eq_refl).
  - exact (Hdrop "build" "redocly-portal build" (or_introl eq_refl) eq_refl).
  - rewrite (Hother "test"); [reflexivity | discriminate ..].
Defined.

Lemma picked_product_is_a_package_witness :
  (1 <= 2 <= 7)%Z
  /\ (exists before after,
        [NaN; Int 9; Int 2; Int 5] = before ++ Int 2 :: after /\ pickChoice before = None)
  /\ (exists product,
        pickProduct [NaN; Int 9; Int 2; Int 5] = Some product /\ In product PACKAGES).
Proof.
  exact (picked_product_is_a_package [NaN; Int 9; Int 2; Int 5] 2%Z eq_refl).
Defined.
